(** * MFM Fan Cult manager: a shallow embedding of the content classes

    The development follows [mfm_fan_cult/content.py] (class [FanCultContent]),
    [mfm_fan_cult/content_types/minisodes.py] (class [MinisodeContent]) and
    [mfm_fan_cult/content_types/videos.py] (class [VideoContent]).

    - Strings are [string]; dates are [Z] (a naive timestamp, ordered as the
      [DateTime] column is); integer ids are [Z].
    - The SQLAlchemy session is an explicit state: the rows of the table as
      last committed, the rows flushed inside the open transaction and the
      pending objects handed to [add].
    - The file system, the console and the terminal input are an explicit
      [World]; the remote site is a record of responses, [Site].
    - Python exceptions are the [Raise] case of [result]; the state at the
      point of the raise is kept, so that what is durable after a failure can
      be stated.
    - HTML pages are seen through the accesses the code makes: a tag or an
      attribute that may be missing is an [option].

    The manager object ([manager.get_session], [manager.decode], the
    message functions) and the login decorators are not part of these
    sources. What the manager decides is a parameter: whether the session
    autoflushes is a field of [Session], [decode] is a field of [Lib], and
    the commands are modelled from the function under the decorators, with
    the account the decorator passes in as an argument. Library calls follow
    the libraries: [Query.one_or_none], [ORDER BY] and [LIMIT] on SQLite,
    [click.prompt] and [click.confirm], [os.path], and
    [FeedGenerator.add_entry], which puts a new entry in front. *)

From Stdlib Require Import ZArith List String Ascii Bool Lia.
From stdpp Require Import base option list sorting gmap strings pretty.

Open Scope Z_scope.

(** ** Python strings and paths *)

Module Py.

(** [str.strip()] on ASCII text: leading and trailing white space goes. *)
Fixpoint lstrip (s : string) : string :=
  match s with
  | String c s' => if Ascii.is_space c then lstrip s' else s
  | EmptyString => EmptyString
  end.

Definition strip (s : string) : string :=
  String.rev (lstrip (String.rev (lstrip s))).

Definition upper (c : ascii) : ascii :=
  let n := nat_of_ascii c in
  if ((97 <=? n)%nat && (n <=? 122)%nat)%bool then ascii_of_nat (n - 32) else c.

Definition lower (c : ascii) : ascii :=
  let n := nat_of_ascii c in
  if ((65 <=? n)%nat && (n <=? 90)%nat)%bool then ascii_of_nat (n + 32) else c.

Fixpoint map_string (f : ascii -> ascii) (s : string) : string :=
  match s with
  | String c s' => String (f c) (map_string f s')
  | EmptyString => EmptyString
  end.

(** [str.lower()] on ASCII text; SQLite's [lower()] is the same function. *)
Definition str_lower (s : string) : string := map_string lower s.

(** [str.capitalize()]: first character upper case, the rest lower case. *)
Definition capitalize (s : string) : string :=
  match s with
  | String c s' => String (upper c) (map_string lower s')
  | EmptyString => EmptyString
  end.

(** [s.endswith(suffix)] *)
Definition endswith (s suffix : string) : bool :=
  String.prefix (String.rev suffix) (String.rev s).

(** Truthiness of a string: [if s:] holds for the non-empty ones. *)
Definition truthy (s : string) : bool :=
  match s with EmptyString => false | _ => true end.

(** [os.path.basename]: what follows the last slash. *)
Fixpoint basename_go (cur s : string) : string :=
  match s with
  | String c s' =>
      if Ascii.eqb c "/" then basename_go "" s'
      else basename_go (cur +:+ String c "") s'
  | EmptyString => cur
  end.

Definition basename (p : string) : string := basename_go "" p.

(** A path whose last component is empty, [.] or [..] names a directory
    whenever it names anything. *)
Definition names_directory (p : string) : bool :=
  (String.eqb (basename p) "" || String.eqb (basename p) "."
   || String.eqb (basename p) "..")%bool.

(** [os.path.join a b] (POSIX): an absolute [b] wins; otherwise one slash
    separates the parts unless [a] is empty or already ends with one. *)
Definition path_join (a b : string) : string :=
  if String.prefix "/" b then b
  else if (negb (truthy a) || endswith a "/")%bool then a +:+ b
  else a +:+ "/" +:+ b.

(** The directories that [os.makedirs p] walks through: every prefix of
    [p] that ends before a slash, and [p] itself. *)
Fixpoint ancestors_go (cur s : string) : list string :=
  match s with
  | String c s' =>
      if (Ascii.eqb c "/" && truthy cur)%bool
      then cur :: ancestors_go (cur +:+ "/") s'
      else ancestors_go (cur +:+ String c "") s'
  | EmptyString => if truthy cur then [cur] else []
  end.

Definition ancestors (p : string) : list string := ancestors_go "" p.

(** [str(n)] for an integer. *)
Definition str (n : Z) : string := pretty n.

(** [s[:-1]] *)
Definition drop_last (s : string) : string :=
  substring 0 (String.length s - 1)%nat s.

(** [s.split(sep)] for a non-empty [sep]; [skip] counts the characters
    of a separator still to be passed over. *)
Fixpoint split_go (sep : string) (skip : nat) (cur s : string)
  : list string :=
  match s with
  | EmptyString => [cur]
  | String c s' =>
      match skip with
      | S k => split_go sep k cur s'
      | O =>
          if String.prefix sep s
          then cur :: split_go sep (String.length sep - 1)%nat "" s'
          else split_go sep 0%nat (cur +:+ String c "") s'
      end
  end.

Definition split (s sep : string) : list string := split_go sep 0%nat "" s.

End Py.

(** ** Exceptions and results *)

Inductive exn : Type :=
  | AttributeError | TypeError | KeyError | IndexError | ValueError
  | RequestException | MultipleResultsFound | OSError | Abort
  | OverflowError.

Inductive result (A : Type) : Type :=
  | Ok (a : A)
  | Raise (e : exn).
Arguments Ok {A} a.
Arguments Raise {A} e.

(** An attribute or subscript access on something that may be [None]. *)
Definition access {A} (e : exn) (o : option A) : result A :=
  match o with Some a => Ok a | None => Raise e end.

(** A computation over a state [S] that may raise; the state survives. *)
Definition M (S A : Type) : Type := S -> result A * S.

Definition ret {S A} (a : A) : M S A := fun s => (Ok a, s).

Definition bind {S A B} (m : M S A) (k : A -> M S B) : M S B :=
  fun s => match m s with
           | (Ok a, s') => k a s'
           | (Raise e, s') => (Raise e, s')
           end.

Definition lift {S A} (r : result A) : M S A := fun s => (r, s).

Definition modify {S} (f : S -> S) : M S unit := fun s => (Ok tt, f s).

Definition gets {S A} (f : S -> A) : M S A := fun s => (Ok (f s), s).

Notation "x <-- m ;; k" := (bind m (fun x => k))
  (at level 100, m at next level, right associativity).
Notation "m ;;; k" := (bind m (fun _ => k))
  (at level 100, right associativity).

(** ** The database session *)

(** What the code uses of a mapped class: its primary key (unset until the
    row is flushed), and the [title], [url] and [date] columns. *)
Class Model (R : Type) := {
  model_id : R -> option Z;
  with_id : Z -> R -> R;
  model_title : R -> string;
  model_url : R -> string;
  model_date : R -> Z
}.

Section Session.
Context {R : Type} `{Model R}.

(** A session on one table. [autoflush] is set by whoever creates the
    session ([sessionmaker] has it on unless told otherwise): when on, a
    query first flushes the pending objects, so that it sees them. *)
Record Session := mkSession {
  committed : list R;   (* the table as last committed: what is durable *)
  flushed : list R;     (* rows inserted in the open transaction *)
  pending : list R;     (* objects given to [add], not yet flushed *)
  autoflush : bool
}.

Definition fresh_session (rows : list R) (af : bool) : Session :=
  mkSession rows [] [] af.

(** An INTEGER PRIMARY KEY gets one more than the largest key in use. *)
Definition max_id (rows : list R) : Z :=
  foldr (fun r m => Z.max (default 0 (model_id r)) m) 0 rows.

Fixpoint assign_ids (next : Z) (rs : list R) : list R :=
  match rs with
  | [] => []
  | r :: rs' => with_id next r :: assign_ids (next + 1) rs'
  end.

(** Rows a query sees: committed ones and those of the open transaction. *)
Definition visible (s : Session) : list R := committed s ++ flushed s.

Definition flush (s : Session) : Session :=
  mkSession (committed s)
            (flushed s ++ assign_ids (max_id (visible s) + 1) (pending s))
            [] (autoflush s).

(** [db.add(obj)] *)
Definition add (r : R) : M Session unit :=
  modify (fun s => mkSession (committed s) (flushed s) (pending s ++ [r])
                             (autoflush s)).

(** [db.query(model)...all()]: an autoflushing session flushes first. *)
Definition query_all : M Session (list R) :=
  fun s => let s' := if autoflush s then flush s else s in
           (Ok (visible s'), s').

(** [db.commit()]: flush, then make the transaction durable in one step. *)
Definition commit : M Session unit :=
  modify (fun s => let s' := flush s in
                   mkSession (visible s') [] [] (autoflush s)).

(** [.one_or_none()] *)
Definition one_or_none (rows : list R) : result (option R) :=
  match rows with
  | [] => Ok None
  | [r] => Ok (Some r)
  | _ => Raise MultipleResultsFound
  end.

(** [.filter_by(title=title, url=url)] *)
Definition has_key (title url : string) (r : R) : bool :=
  (String.eqb (model_title r) title && String.eqb (model_url r) url)%bool.

(** [db.query(model).filter_by(title=title, url=url).one_or_none()] *)
Definition find_by_title_and_url (title url : string)
  : M Session (option R) :=
  rows <-- query_all ;;
  lift (one_or_none (filter (has_key title url) rows)).

(** [db.query(model).get(id)] *)
Definition get_by_id (id : Z) (rows : list R) : option R :=
  List.find (fun r => bool_decide (model_id r = Some id)) rows.

(** [.order_by(model.date.asc())] and [.order_by(model.date.desc())] *)
Definition date_asc (a b : R) : Prop := model_date a <= model_date b.
Definition date_desc (a b : R) : Prop := model_date b <= model_date a.

#[export] Instance date_asc_dec : RelDecision date_asc :=
  fun a b => decide (model_date a <= model_date b).
#[export] Instance date_desc_dec : RelDecision date_desc :=
  fun a b => decide (model_date b <= model_date a).

Definition order_by_date_asc (rows : list R) : list R :=
  merge_sort date_asc rows.
Definition order_by_date_desc (rows : list R) : list R :=
  merge_sort date_desc rows.

(** [.limit(n)] on SQLite, for an [n] the statement can carry (see
    [sqlite_bind]): a negative bound is no bound. *)
Definition limit (n : Z) (rows : list R) : list R :=
  if n <? 0 then rows else take (Z.to_nat n) rows.

End Session.
Arguments Session R : clear implicits.

(** An integer parameter of a statement: [sqlite3] binds Python integers
    as 64-bit signed ones and raises [OverflowError] on any other, when the
    statement is executed. *)
Definition sqlite_bind (n : Z) : result Z :=
  if ((n <? - 2 ^ 63) || (2 ^ 63 <=? n))%bool then Raise OverflowError
  else Ok n.

(** The [for ... in tqdm(...)] loop of [_update_episodes] and of
    [_update_videos] (the two are the same but for the names): every
    candidate goes through [create]; what it returns is appended to [added]
    and given to the session. The progress bar is not modelled. *)
Fixpoint scan {R C : Type} `{Model R} (create : C -> M (Session R) (option R))
    (cs : list C) (added : list R) : M (Session R) (list R) :=
  match cs with
  | [] => ret added
  | c :: cs' =>
      r <-- create c ;;
      match r with
      | Some e => add e ;;; scan create cs' (added ++ [e])
      | None => scan create cs' added
      end
  end.

(** ** Table definitions *)

Inductive ColumnType : Type :=
  | Integer | String_ | DateTime | URLType | EmailType | BLOB.

(** [Column(name, type, primary_key=False, unique=False, nullable=True)] *)
Record Column := mkColumn {
  col_name : string;
  col_type : ColumnType;
  primary_key : bool;
  unique : bool;
  nullable : bool
}.

(** [Table(name, metadata, *columns_and_constraints)]: [constraints] holds
    the column lists of the [UniqueConstraint] arguments. *)
Record Table := mkTable {
  table_name : string;
  columns : list Column;
  constraints : list (list string)
}.

(** The column sets a table keeps unique. *)
Definition unique_keys (t : Table) : list (list string) :=
  map (fun c => [col_name c])
      (filter (fun c => (primary_key c || unique c)%bool) (columns t))
  ++ constraints t.

Inductive value : Type :=
  | VInt (n : Z) | VStr (s : string) | VDate (d : Z) | VNull.

#[export] Instance value_eq_dec : EqDecision value.
Proof. solve_decision. Defined.

(** A mapped class also says what it stores in each column. *)
Class Mapped (R : Type) := {
  column : R -> string -> value
}.

(** The rows respect every uniqueness the table declares. *)
Definition table_accepts {R} `{Mapped R} (t : Table) (rows : list R) : Prop :=
  Forall (fun cols => NoDup (map (fun r => map (column r) cols) rows))
         (unique_keys t).

(** ** Feeds (the [feedgen] objects) *)

Record FeedEntry := mkFeedEntry {
  fe_id : string;
  fe_title : string;
  fe_description : string;
  fe_content : option string;          (* CDATA content *)
  fe_published : Z;                    (* [pytz.utc.localize(date)] *)
  fe_link : string;
  fe_author : option (string * string);
  fe_enclosure : option (string * option string * option string);
  fe_itunes_author : option string;
  fe_itunes_image : option string;
  fe_media_thumbnail : option string;
  fe_media_content : option string
}.

Record FeedGenerator := mkFeedGenerator {
  fg_title : string;
  fg_subtitle : string;
  fg_author : string * string;
  fg_copyright : string;
  fg_logo : string;
  fg_link : string;
  fg_language : string;
  fg_extensions : list string;
  fg_itunes_author : option string;
  fg_itunes_owner : option (string * string);
  fg_itunes_image : option string;
  fg_entries : list FeedEntry
}.

(** [fg.add_entry()] and the setters called on the entry it returns.
    [FeedGenerator.add_entry(feedEntry=None, order='prepend')]: called
    without an [order], it puts the new entry in front of the others. *)
Definition add_entry (fe : FeedEntry) (fg : FeedGenerator) : FeedGenerator :=
  mkFeedGenerator (fg_title fg) (fg_subtitle fg) (fg_author fg)
    (fg_copyright fg) (fg_logo fg) (fg_link fg) (fg_language fg)
    (fg_extensions fg) (fg_itunes_author fg) (fg_itunes_owner fg)
    (fg_itunes_image fg) (fe :: fg_entries fg).

(** [fg.load_extension(name)] *)
Definition load_extension (name : string) (fg : FeedGenerator) : FeedGenerator :=
  mkFeedGenerator (fg_title fg) (fg_subtitle fg) (fg_author fg)
    (fg_copyright fg) (fg_logo fg) (fg_link fg) (fg_language fg)
    (fg_extensions fg ++ [name]) (fg_itunes_author fg) (fg_itunes_owner fg)
    (fg_itunes_image fg) (fg_entries fg).

(** ** The world outside the database *)

Inductive Cell : Type := CInt (n : option Z) | CStr (s : string).

(** What is printed or written: plain text, a feed serialised by
    [rss_str]/[rss_file], or a table laid out by [tabulate]. The last two are
    kept structured: the libraries decide the characters. *)
Inductive Text : Type :=
  | Plain (s : string)
  | Rss (fg : FeedGenerator)
  | Tabulate (table_data : list (list Cell)) (fields : list string)
             (tablefmt : string).

Inductive Out : Type :=
  | Echo (t : Text)            (* [click.echo] *)
  | Info (s : string)          (* [manager.info] *)
  | Success (s : string)       (* [manager.success] *)
  | Warning (s : string)       (* [manager.warning] *)
  | Error (s : string)         (* [manager.error] *)
  | Ask (s : string).          (* the text of a prompt or confirmation *)

(** The files and directories on disk, what was printed, the lines still
    to be typed at the terminal, and the current year. *)
Record World := mkWorld {
  files : gmap string Text;
  dirs : gset string;
  console : list Out;
  stdin : list string;
  year : Z                     (* [datetime.now().year] *)
}.

Definition W (A : Type) : Type := M World A.

Definition out (o : Out) : W unit :=
  modify (fun w => mkWorld (files w) (dirs w) (console w ++ [o]) (stdin w)
                           (year w)).

Definition isfile (p : string) : W bool :=
  gets (fun w => bool_decide (is_Some (files w !! p))).

Definition isdir (p : string) : W bool :=
  gets (fun w => bool_decide (p ∈ dirs w)).

(** [os.makedirs(p)]: creates [p] and the directories leading to it; fails
    when [p] exists or when a file is in the way. *)
Definition makedirs (p : string) : W unit :=
  fun w =>
    if (bool_decide (p ∈ dirs w)
        || existsb (fun d => bool_decide (is_Some (files w !! d)))
                   (Py.ancestors p))%bool
    then (Raise OSError, w)
    else (Ok tt, mkWorld (files w) (dirs w ∪ list_to_set (Py.ancestors p))
                         (console w) (stdin w) (year w)).

(** [os.path.dirname] *)
Fixpoint all_slashes (s : string) : bool :=
  match s with
  | String c s' => (Ascii.eqb c "/" && all_slashes s')%bool
  | EmptyString => true
  end.

Fixpoint lstrip_slashes (s : string) : string :=
  match s with
  | String c s' => if Ascii.eqb c "/" then lstrip_slashes s' else s
  | EmptyString => EmptyString
  end.

Definition dirname (p : string) : string :=
  let head :=
    substring 0 (String.length p - String.length (Py.basename p))%nat p in
  if all_slashes head then head
  else String.rev (lstrip_slashes (String.rev head)).

(** Writing a whole file, as [open(p, "wb")] followed by writes, or
    [rss_file], does: the directory has to be there, and [p] must not be
    one, under this name or as a path that ends in a slash, in [.] or in
    [..]. *)
Definition write_file (p : string) (t : Text) : W unit :=
  fun w =>
    if (bool_decide (p ∈ dirs w)
        || negb (bool_decide (dirname p ∈ dirs w))
        || Py.names_directory p)%bool
    then (Raise OSError, w)
    else (Ok tt, mkWorld (<[p := t]> (files w)) (dirs w) (console w)
                         (stdin w) (year w)).

(** [click.confirm(text)]: reads lines until one is an answer (y, yes, n
    or no, in any case); an empty line takes the default, which is no; at
    the end of the input the prompt aborts. *)
Fixpoint read_confirm (lines : list string) : result bool * list string :=
  match lines with
  | [] => (Raise Abort, [])
  | l :: rest =>
      let a := Py.map_string Py.lower (Py.strip l) in
      if (String.eqb a "y" || String.eqb a "yes")%bool then (Ok true, rest)
      else if (String.eqb a "n" || String.eqb a "no"
               || String.eqb a "")%bool then (Ok false, rest)
      else read_confirm rest
  end.

Definition confirm (text : string) : W bool :=
  out (Ask text) ;;;
  fun w => let '(r, rest) := read_confirm (stdin w) in
           (r, mkWorld (files w) (dirs w) (console w) rest (year w)).

(** [click.prompt(text, type=click.Choice(range(n)), default=d)]: an empty
    line takes the default; a line that names one of the choices is taken;
    anything else is asked again; at the end of the input the prompt
    aborts. *)
Fixpoint read_choice (n : nat) (d : nat) (lines : list string)
  : result nat * list string :=
  match lines with
  | [] => (Raise Abort, [])
  | l :: rest =>
      if String.eqb l "" then (Ok d, rest)
      else match List.find (fun i => String.eqb (pretty i) l) (seq 0 n) with
           | Some i => (Ok i, rest)
           | None => read_choice n d rest
           end
  end.

Definition prompt_choice (text : string) (n d : nat) : W nat :=
  out (Ask text) ;;;
  fun w => let '(r, rest) := read_choice n d (stdin w) in
           (r, mkWorld (files w) (dirs w) (console w) rest (year w)).

Fixpoint for_each {S A} (f : A -> M S unit) (l : list A) : M S unit :=
  match l with
  | [] => ret tt
  | x :: l' => f x ;;; for_each f l'
  end.

(** The double quote character, for messages that quote a path. *)
Definition dquote : string := String (ascii_of_nat 34) EmptyString.

(** ** Library functions and the remote site *)

(** Functions of the libraries the code calls and of the manager object,
    whose own code is not part of these sources. *)
Record Lib := mkLib {
  dateutil_parse : string -> result Z;   (* [dateutil.parser.parse] *)
  strftime : Z -> string;                (* [date.strftime('%d %B %Y')] *)
  shorten : string -> string;            (* [textwrap.shorten(_, width=50)] *)
  decode : string -> string              (* [manager.decode] *)
}.

(** The element [ep] handed to [_create_episode], seen through the
    accesses the code makes. *)
Record EpisodeTag := mkEpisodeTag {
  ep_a_href : option string;         (* [ep.a['href']] *)
  ep_h1_text : option string;        (* [ep.h1.text] *)
  ep_date_h3 : option string;        (* [div.ep-date h3] text *)
  ep_date_h4 : option string         (* [div.ep-date h4] text *)
}.

(** An episode page: the [div.home-about] block and, for every inline
    script, what the pattern [m4a: "(.+)"] captures in it. *)
Record About := mkAbout {
  about_p_text : option string;
  about_img_src : option string
}.

Record EpisodePage := mkEpisodePage {
  home_about : option About;
  inline_scripts : list (option string)
}.

(** An article of the news grid, as [_create_video] reads it. *)
Record Article := mkArticle {
  art_h1_text : option string;
  art_a_href : option string;
  art_h6_text : option string;
  art_data_vimeo : option string     (* [div.bg-image]['data-vimeo'] *)
}.

(** The JSON that Vimeo's oEmbed end point answers. *)
Record VimeoMetadata := mkVimeoMetadata {
  thumbnail_url : option string;
  thumbnail_url_with_play_button : option string;
  iframe_src : option string         (* [src] of the iframe in ['html'] *)
}.

(** [vimeo.best_stream]: its title, and what [stream.download] stores, under
    the name the library picks. *)
Record VimeoStream := mkVimeoStream {
  stream_title : string;
  stream_saved_as : string;
  stream_data : string
}.

Record LoginResponse := mkLoginResponse {
  http_error : option string;        (* what [raise_for_status] raises *)
  login_status : option bool         (* [res.json()['LoginStatus']] *)
}.

(** What the site answers. A [Raise] is a transport failure. The listing
    pages are [None] when the enclosing block ([div.eps], [div.news-grid])
    is missing. *)
Record Site := mkSite {
  get_episodes : result (option (list EpisodeTag));
  get_episode_page : string -> result EpisodePage;
  post_news : Z -> result (option (list Article));
  get_vimeo_metadata : string -> result VimeoMetadata;
  head_headers : string -> result (option string * option string);
      (* [Content-Type] and [Content-Length] of a HEAD response *)
  get_stream : string -> result (list string);
      (* the chunks of [iter_content] *)
  vimeo_best_stream : string -> string -> result VimeoStream;
  login_form_action : result (option string);
  post_login : string -> string -> string -> result LoginResponse
}.

(** A command works on the session and on the world at once. *)
Definition in_db {R A} (m : M (Session R) A) : M (Session R * World) A :=
  fun '(s, w) => let '(r, s') := m s in (r, (s', w)).

Definition in_world {R A} (m : W A) : M (Session R * World) A :=
  fun '(s, w) => let '(r, w') := m w in (r, (s, w')).

(** SQLite's [LIKE]: [%] stands for any run of characters, [_] for any one
    character, and ASCII letters match whatever their case. *)
Fixpoint like_chars (p s : list ascii) : bool :=
  match p with
  | [] => match s with [] => true | _ => false end
  | c :: p' =>
      if Ascii.eqb c "%" then
        (fix any (s : list ascii) : bool :=
           (like_chars p' s
            || match s with [] => false | _ :: s' => any s' end)%bool) s
      else
        match s with
        | [] => false
        | d :: s' =>
            ((Ascii.eqb c "_" || Ascii.eqb (Py.lower c) (Py.lower d))
             && like_chars p' s')%bool
        end
  end.

Definition like (text pattern : string) : bool :=
  like_chars (list_ascii_of_string pattern) (list_ascii_of_string text).

(** [click.option(..., default=d)]: an option left out gets the default. *)
Definition click_option {A} (default : A) (given : option A) : A :=
  match given with Some a => a | None => default end.

(** [if s:] for an optional string argument. *)
Definition given (o : option string) : option string :=
  match o with
  | Some s => if Py.truthy s then Some s else None
  | None => None
  end.

(** The objects a scan added are the session's own: once the session has
    committed they carry their ids, and reading them again gives the last
    rows of the table, as many as were added. *)
Definition loaded {R} (s : Session R) (added : list R) : list R :=
  drop (length (committed s) - length added) (committed s).

(** A computation on the world, run beside any other state. *)
Definition on_world {S A} (m : W A) : M (S * World) A :=
  fun '(s, w) => let '(r, w') := m w in (r, (s, w')).

(** ** content.py: class FanCultContent *)

Module FanCultContent.

Definition model_name : string := "account".
Definition base_url : string := "https://myfavoritemurder.com".
Definition login_url : string := base_url +:+ "/login".
Definition logo : string := "https://emorel.li/dl/fc_logo.png".
Definition copyright : string * string :=
  ("Exactly Right", "exactlyrightmedia@gmail.com").

Record Account := mkAccount {
  username : string;
  password : string;
  download_dir : option string
}.

(** [table]: the account table. *)
Definition table : Table :=
  mkTable "account"
    [ mkColumn "username" EmailType true true false;
      mkColumn "password" BLOB false false false;
      mkColumn "download_dir" String_ false false true;
      mkColumn "last_updated" DateTime false false false ]
    [].

(** [_get_account]: [accounts] is the account table. [query.one()] gives
    the only row, raises [NoResultFound] on none and
    [MultipleResultsFound] on several; both are caught. *)
Definition _get_account (accounts : list Account) : W (option Account) :=
  match accounts with
  | [] =>
      out (Warning "Please login to your account first.") ;;;
      ret None
  | [account] => ret (Some account)
  | _ =>
      out (Echo (Plain "Multiple accounts found:")) ;;;
      for_each (fun '(idx, acct) =>
                  out (Echo (Plain (" [" +:+ pretty idx +:+ "] "
                                    +:+ username acct))))
               (imap (fun (idx : nat) acct => (idx, acct)) accounts) ;;;
      user_idx <-- prompt_choice "
Enter account number" (length accounts) 0 ;;
      account <-- lift (access IndexError (accounts !! user_idx)) ;;
      ret (Some account)
  end.

(** [_make_login_request] *)
Definition _make_login_request (site : Site) (username password : string)
  : W bool :=
  action <-- lift (login_form_action site) ;;
  action <-- lift (access AttributeError action) ;;
  let login_url := base_url +:+ action in
  res <-- lift (post_login site login_url username password) ;;
  match http_error res with
  | Some ex => out (Error ("Unable to login: " +:+ ex)) ;;; ret false
  | None =>
      status <-- lift (access KeyError (login_status res)) ;;
      if negb status
      then out (Error "Unable to login: invalid credentials") ;;; ret false
      else ret true
  end.

(** [login_user] *)
Definition login_user (lib : Lib) (site : Site) (accounts : list Account)
  : W (option Account) :=
  account <-- _get_account accounts ;;
  match account with
  | None => ret None
  | Some account =>
      success <-- _make_login_request site (username account)
                    (decode lib (password account)) ;;
      if negb success then ret None else ret (Some account)
  end.

(** [_get_rss_feed_generator] *)
Definition _get_rss_feed_generator (model_name : string) (podcast : bool)
  : W FeedGenerator :=
  now_year <-- gets year ;;
  let fg :=
    mkFeedGenerator
      ("MFM Fan Cult " +:+ Py.capitalize model_name)
      ("Generated feed of Fan Cult exclusive " +:+ model_name +:+ ".")
      copyright
      (pretty now_year +:+ " " +:+ fst copyright)
      logo base_url "en" [] None None None [] in
  if podcast
  then
    let fg := load_extension "podcast" fg in
    ret (mkFeedGenerator (fg_title fg) (fg_subtitle fg) (fg_author fg)
           (fg_copyright fg) (fg_logo fg) (fg_link fg) (fg_language fg)
           (fg_extensions fg) (Some (fst copyright)) (Some copyright)
           (Some logo) (fg_entries fg))
  else ret fg.

(** [_get_download_dir] *)
Definition _get_download_dir (model_name : string) (dest : option string)
    (account : Account) (with_model : bool) : W string :=
  let dest_dir :=
    match dest with
    | Some d => if Py.truthy d then Some d else download_dir account
    | None => download_dir account
    end in
  dest_dir <-- lift (access TypeError dest_dir) ;;
  let dest_dir :=
    if with_model then Py.path_join dest_dir (Py.capitalize model_name)
    else dest_dir in
  there <-- isdir dest_dir ;;
  (if negb there then makedirs dest_dir else ret tt) ;;;
  ret dest_dir.

(** [_get_download_path] *)
Definition _get_download_path (base_path file_name : string) (yes : bool)
  : W (option string) :=
  let file_path := Py.path_join base_path file_name in
  there <-- isfile file_path ;;
  if there
  then
    out (Warning ("File " +:+ dquote +:+ file_path +:+ dquote
                  +:+ " already exists")) ;;;
    ret None
  else if negb yes
  then
    ok <-- confirm ("Download file to " +:+ file_path +:+ "?") ;;
    if negb ok then ret None else ret (Some file_path)
  else
    out (Echo (Plain ("Downloading file to " +:+ file_path))) ;;;
    ret (Some file_path).

End FanCultContent.

(** ** content_types/minisodes.py: class MinisodeContent *)

Module MinisodeContent.
Import FanCultContent.

Definition model_name : string := "minisodes".
Definition episodes_url : string := base_url +:+ "/episodes".

(** The mapped class of the [minisodes] table. [last_updated] is filled
    in by the server and never read; it is left out. *)
Record Episode := mkEpisode {
  minisode_id : option Z;
  title : string;
  description : string;
  date : Z;
  url : string;
  image : string;
  audio : string
}.

#[global] Instance episode_model : Model Episode := {|
  model_id := minisode_id;
  with_id := fun n e => mkEpisode (Some n) (title e) (description e)
                          (date e) (url e) (image e) (audio e);
  model_title := title;
  model_url := url;
  model_date := date
|}.

#[global] Instance episode_mapped : Mapped Episode := {|
  column := fun e c =>
    if String.eqb c "minisode_id"
    then match minisode_id e with Some n => VInt n | None => VNull end
    else if String.eqb c "title" then VStr (title e)
    else if String.eqb c "description" then VStr (description e)
    else if String.eqb c "date" then VDate (date e)
    else if String.eqb c "url" then VStr (url e)
    else if String.eqb c "image" then VStr (image e)
    else if String.eqb c "audio" then VStr (audio e)
    else VNull
|}.

(** [table] *)
Definition table : Table :=
  mkTable "minisodes"
    [ mkColumn "minisode_id" Integer true false false;
      mkColumn "title" String_ false false false;
      mkColumn "description" String_ false false false;
      mkColumn "date" DateTime false false false;
      mkColumn "url" URLType false false false;
      mkColumn "image" URLType false false false;
      mkColumn "audio" URLType false false false;
      mkColumn "last_updated" DateTime false false false ]
    [].

(** [_find_episode] *)
Definition _find_episode (title url : string)
  : M (Session Episode) (option Episode) :=
  find_by_title_and_url title url.

(** [_get_episode_date] *)
Definition _get_episode_date (lib : Lib) (ep : EpisodeTag) : result Z :=
  match ep_date_h3 ep, ep_date_h4 ep with
  | Some h3, Some h4 =>
      let date_dd := Py.strip h3 in
      let date_mm_yy := Py.strip h4 in
      dateutil_parse lib (date_dd +:+ " " +:+ date_mm_yy)
  | _, _ => Raise AttributeError
  end.

(** [_create_episode] *)
Definition _create_episode (lib : Lib) (site : Site) (ep : EpisodeTag)
  : M (Session Episode) (option Episode) :=
  href <-- lift (access TypeError (ep_a_href ep)) ;;
  let ep_url := base_url +:+ Py.strip href in
  h1 <-- lift (access AttributeError (ep_h1_text ep)) ;;
  let ep_title := Py.strip h1 in
  existing <-- _find_episode ep_title ep_url ;;
  match existing with
  | Some _ => ret None
  | None =>
      soup <-- lift (get_episode_page site ep_url) ;;
      let about := home_about soup in
      script <-- lift (access IndexError (inline_scripts soup !! 1%nat)) ;;
      p_text <-- lift (access AttributeError (about ≫= about_p_text)) ;;
      date <-- lift (_get_episode_date lib ep) ;;
      img_src <-- lift (access AttributeError (about ≫= about_img_src)) ;;
      m4a <-- lift (access AttributeError script) ;;
      ret (Some (mkEpisode None ep_title (Py.strip p_text) date ep_url
                           (Py.strip img_src) (Py.strip m4a)))
  end.

(** [_update_episodes] *)
Definition _update_episodes (lib : Lib) (site : Site)
  : M (Session Episode) (list Episode) :=
  all_eps <-- lift (get_episodes site) ;;
  fan_cult_eps <-- lift (access AttributeError all_eps) ;;
  added <-- scan (_create_episode lib site) fan_cult_eps [] ;;
  (match added with [] => ret tt | _ => commit end) ;;;
  ret added.

(** [get_episode]: [rows] is the table, [episode_id] the integer that the
    command line argument denotes. *)
Definition get_episode (rows : list Episode) (episode_id : Z)
  : W (option Episode) :=
  match get_by_id episode_id rows with
  | None =>
      out (Error ("No minisode found for ID: " +:+ Py.str episode_id)) ;;;
      ret None
  | Some episode => ret (Some episode)
  end.

(** [_download_episode] *)
Definition _download_episode (site : Site) (episode : Episode)
    (episode_path : string) (yes : bool) : W unit :=
  let file_name := Py.basename (audio episode) in
  file_path <-- _get_download_path episode_path file_name yes ;;
  match file_path with
  | None => ret tt
  | Some file_path =>
      if negb (Py.truthy file_path) then ret tt
      else
        chunks <-- lift (get_stream site (audio episode)) ;;
        write_file file_path
          (Plain (foldr (fun chunk data => chunk +:+ data) "" chunks)) ;;;
        there <-- isfile file_path ;;
        if negb there
        then out (Error ("Problem downloading file: " +:+ file_path))
        else ret tt
  end.

(** The entry built in the loop of [_create_episode_feed]. *)
Definition episode_entry (episode : Episode)
    (audio_type audio_length : option string) : FeedEntry :=
  mkFeedEntry
    (match minisode_id episode with Some n => Py.str n | None => "None" end)
    (title episode)
    (description episode)
    None
    (date episode)
    (url episode)
    None
    (Some (audio episode, audio_length, audio_type))
    (Some "Exactly Right")
    (Some (image episode))
    None None.

Fixpoint episode_entries (site : Site) (episodes : list Episode)
    (fg : FeedGenerator) : result FeedGenerator :=
  match episodes with
  | [] => Ok fg
  | episode :: rest =>
      match head_headers site (audio episode) with
      | Raise e => Raise e
      | Ok (audio_type, audio_length) =>
          episode_entries site rest
            (add_entry (episode_entry episode audio_type audio_length) fg)
      end
  end.

(** [_create_episode_feed]: [rows] is the table. *)
Definition _create_episode_feed (site : Site) (rows : list Episode)
    (file_dir : string) (print_ : bool) : W unit :=
  let file_path := Py.path_join file_dir (model_name +:+ ".xml") in
  fg <-- _get_rss_feed_generator model_name true ;;
  let episodes := order_by_date_asc rows in
  fg <-- lift (episode_entries site episodes fg) ;;
  if print_
  then out (Echo (Rss fg))
  else
    write_file file_path (Rss fg) ;;;
    out (Success ("RSS file created: " +:+ file_path)).

(** [format_episode_list] *)
Definition format_episode_list (lib : Lib) (episodes : list Episode)
    (fmt : string) : Text :=
  let fields := ["ID"; "Title"; "Description"; "Date"; "URL"] in
  let table_data :=
    map (fun episode =>
           [ CInt (minisode_id episode);
             CStr (strftime lib (date episode));
             CStr (title episode);
             CStr (shorten lib (description episode));
             CStr (shorten lib (url episode)) ])
        episodes in
  Tabulate table_data fields fmt.

(** The query that [list] builds and runs: the [WHERE] clause of the
    filters, then [ORDER BY], then [LIMIT]. *)
Definition list_filter (search : option string) (rows : list Episode)
  : list Episode :=
  match given search with
  | Some search =>
      let pattern := "%" +:+ search +:+ "%" in
      filter (fun e => (like (title e) pattern
                        || like (description e) pattern)%bool) rows
  | None => rows
  end.

Definition list_query (number : Z) (search : option string)
    (rows : list Episode) : list Episode :=
  let ordered := order_by_date_desc (list_filter search rows) in
  if 0 <? number then limit number ordered else ordered.

(** [update]: the function under the decorators. *)
Definition update (lib : Lib) (site : Site) (list_ : bool)
  : M (Session Episode * World) unit :=
  new_episodes <-- in_db (_update_episodes lib site) ;;
  match new_episodes with
  | [] => in_world (out (Info "No new minisodes found."))
  | _ =>
      in_world (out (Success ("Added " +:+ pretty (length new_episodes)
                              +:+ " new minisode(s)!"))) ;;;
      if list_
      then
        s <-- gets fst ;;
        in_world (out (Echo (format_episode_list lib (loaded s new_episodes)
                               "psql")))
      else ret tt
  end.

(** [download]: the function under the decorators; [account] is what the
    login decorator passes in. *)
Definition download (site : Site) (minisode_id : Z) (yes : bool)
    (dest : option string) (account : Account)
  : M (Session Episode * World) unit :=
  episode_path <-- in_world (_get_download_dir model_name dest account true) ;;
  rows <-- in_db query_all ;;
  episode <-- in_world (get_episode rows minisode_id) ;;
  match episode with
  | Some episode => in_world (_download_episode site episode episode_path yes)
  | None => ret tt
  end.

(** [list]: the function under the decorators. *)
Definition list_ (lib : Lib) (site : Site) (number : Z) (refresh : bool)
    (fmt : string) (search : option string)
  : M (Session Episode * World) unit :=
  (if refresh then in_db (_update_episodes lib site) ;;; ret tt
   else ret tt) ;;;
  rows <-- in_db query_all ;;
  (if 0 <? number then lift (sqlite_bind number) ;;; ret tt else ret tt) ;;;
  let episodes := list_query number search rows in
  match episodes with
  | [] => in_world (out (Warning "No minisodes found."))
  | _ => in_world (out (Echo (format_episode_list lib episodes fmt)))
  end.

(** [list] as the command line reaches it: [--number] defaults to 10 and
    [--format] to psql. *)
Definition list_command (lib : Lib) (site : Site) (number : option Z)
    (refresh : bool) (fmt search : option string)
  : M (Session Episode * World) unit :=
  list_ lib site (click_option 10 number) refresh
        (click_option "psql" fmt) search.

(** [feed]: the function under the decorators. *)
Definition feed (lib : Lib) (site : Site) (print_ : bool)
    (dest : option string) (refresh : bool) (account : Account)
  : M (Session Episode * World) unit :=
  (if refresh then in_db (_update_episodes lib site) ;;; ret tt
   else ret tt) ;;;
  path <-- in_world (_get_download_dir model_name dest account false) ;;
  rows <-- in_db query_all ;;
  in_world (_create_episode_feed site rows path print_).

End MinisodeContent.

(** ** content_types/videos.py: class VideoContent *)

Module VideoContent.
Import FanCultContent.

Definition model_name : string := "videos".
Definition vimeo_url : string := "https://vimeo.com/api/oembed.json?url=".

(** The mapped class of the [videos] table, [last_updated] left out. *)
Record Video := mkVideo {
  video_id : option Z;
  title : string;
  type : string;
  date : Z;
  url : string;
  image : string;
  video : string;
  video_image : string
}.

#[global] Instance video_model : Model Video := {|
  model_id := video_id;
  with_id := fun n v => mkVideo (Some n) (title v) (type v) (date v)
                          (url v) (image v) (video v) (video_image v);
  model_title := title;
  model_url := url;
  model_date := date
|}.

#[global] Instance video_mapped : Mapped Video := {|
  column := fun v c =>
    if String.eqb c "video_id"
    then match video_id v with Some n => VInt n | None => VNull end
    else if String.eqb c "title" then VStr (title v)
    else if String.eqb c "type" then VStr (type v)
    else if String.eqb c "date" then VDate (date v)
    else if String.eqb c "url" then VStr (url v)
    else if String.eqb c "image" then VStr (image v)
    else if String.eqb c "video" then VStr (video v)
    else if String.eqb c "video_image" then VStr (video_image v)
    else VNull
|}.

(** [table] *)
Definition table : Table :=
  mkTable "videos"
    [ mkColumn "video_id" Integer true false false;
      mkColumn "title" String_ false false false;
      mkColumn "type" String_ false false false;
      mkColumn "date" DateTime false false false;
      mkColumn "url" URLType false false false;
      mkColumn "image" URLType false false false;
      mkColumn "video" URLType false false false;
      mkColumn "video_image" URLType false false false;
      mkColumn "last_updated" DateTime false false false ]
    [].

(** [_find_video] *)
Definition _find_video (title url : string)
  : M (Session Video) (option Video) :=
  find_by_title_and_url title url.

(** [_get_video_metadata] *)
Definition _get_video_metadata (site : Site) (video_url : string)
  : result VimeoMetadata :=
  let vimeo_video_url := vimeo_url +:+ video_url in
  get_vimeo_metadata site vimeo_video_url.

(** [_create_video] *)
Definition _create_video (lib : Lib) (site : Site) (article : Article)
  : M (Session Video) (option Video) :=
  match art_h1_text article with
  | None => ret None
  | Some h1 =>
      let video_title := Py.strip h1 in
      href <-- lift (access TypeError (art_a_href article)) ;;
      let video_url := base_url +:+ Py.strip href in
      existing <-- _find_video video_title video_url ;;
      match existing with
      | Some _ => ret None
      | None =>
          h6 <-- lift (access AttributeError (art_h6_text article)) ;;
          match Py.split (Py.drop_last (Py.strip h6)) " - " with
          | [date_str; video_type] =>
              vimeo_url <-- lift (access TypeError
                                    (art_data_vimeo article)) ;;
              video_metadata <-- lift (_get_video_metadata site vimeo_url) ;;
              date <-- lift (dateutil_parse lib date_str) ;;
              image <-- lift (access KeyError
                                (thumbnail_url video_metadata)) ;;
              video_image <-- lift (access KeyError
                 (thumbnail_url_with_play_button video_metadata)) ;;
              ret (Some (mkVideo None video_title video_type date
                           video_url image vimeo_url video_image))
          | _ => lift (Raise ValueError)
          end
      end
  end.

(** [_update_videos] *)
Definition _update_videos (lib : Lib) (site : Site) (limit : Z)
  : M (Session Video) (list Video) :=
  news <-- lift (post_news site limit) ;;
  all_articles <-- lift (access AttributeError news) ;;
  added <-- scan (_create_video lib site) all_articles [] ;;
  (match added with [] => ret tt | _ => commit end) ;;;
  ret added.

(** [get_video]: [rows] is the table, [video_id] the integer that the
    command line argument denotes. *)
Definition get_video (rows : list Video) (video_id : Z)
  : W (option Video) :=
  match get_by_id video_id rows with
  | None =>
      out (Error ("No video found for ID: " +:+ Py.str video_id)) ;;;
      ret None
  | Some video => ret (Some video)
  end.

(** [_download_video] *)
Definition _download_video (site : Site) (video_ : Video)
    (video_path : string) (yes : bool) : W unit :=
  video_metadata <-- lift (_get_video_metadata site (video video_)) ;;
  src <-- lift (access KeyError (iframe_src video_metadata)) ;;
  let video_src := List.hd "" (Py.split (Py.strip src) "?") in
  stream <-- lift (vimeo_best_stream site video_src (url video_)) ;;
  let file_name := stream_title stream in
  let file_name :=
    if negb (Py.endswith file_name ".mp4") then file_name +:+ ".mp4"
    else file_name in
  file_path <-- _get_download_path video_path file_name yes ;;
  match file_path with
  | None => ret tt
  | Some file_path =>
      if negb (Py.truthy file_path) then ret tt
      else
        write_file (Py.path_join video_path (stream_saved_as stream))
                   (Plain (stream_data stream)) ;;;
        there <-- isfile file_path ;;
        if negb there
        then out (Error ("Problem downloading file: " +:+ file_path))
        else ret tt
  end.

(** The entry built in the loop of [_create_video_feed]. *)
Definition video_entry (video_ : Video) : FeedEntry :=
  let content :=
    "<p>" +:+ type video_ +:+ "</p>"
    +:+ "<p><a href=" +:+ dquote +:+ url video_ +:+ dquote +:+ ">"
    +:+ "<img src=" +:+ dquote +:+ video_image video_ +:+ dquote +:+ "/>"
    +:+ "</a></p>" in
  mkFeedEntry
    (match video_id video_ with Some n => Py.str n | None => "None" end)
    (title video_)
    (type video_)
    (Some content)
    (date video_)
    (url video_)
    (Some copyright)
    None None None
    (Some (image video_))
    (Some (video video_)).

Definition video_entries (videos : list Video) (fg : FeedGenerator)
  : FeedGenerator :=
  fold_left (fun fg video_ => add_entry (video_entry video_) fg) videos fg.

(** [_create_video_feed]: [rows] is the table. *)
Definition _create_video_feed (rows : list Video) (file_dir : string)
    (print_ : bool) (limit_ : Z) : W unit :=
  let file_path := Py.path_join file_dir (model_name +:+ ".xml") in
  fg <-- _get_rss_feed_generator model_name false ;;
  let fg := load_extension "media" fg in
  lift (sqlite_bind limit_) ;;;
  let videos := limit limit_ (order_by_date_desc rows) in
  let fg := video_entries videos fg in
  if print_
  then out (Echo (Rss fg))
  else
    write_file file_path (Rss fg) ;;;
    out (Success ("RSS file created: " +:+ file_path)).

(** [format_video_list] *)
Definition format_video_list (lib : Lib) (videos : list Video)
    (fmt : string) : Text :=
  let fields := ["ID"; "Date"; "Title"; "Type"; "URL"] in
  let table_data :=
    map (fun video_ =>
           [ CInt (video_id video_);
             CStr (strftime lib (date video_));
             CStr (shorten lib (title video_));
             CStr (type video_);
             CStr (shorten lib (url video_)) ])
        videos in
  Tabulate table_data fields fmt.

(** The query that [list] builds and runs: the [WHERE] clause of the
    filters, then [ORDER BY], then [LIMIT]. *)
Definition list_filter (type_ search : option string) (rows : list Video)
  : list Video :=
  let by_type :=
    match given type_ with
    | Some type_ => filter (fun v => like (type v) ("%" +:+ type_ +:+ "%"))
                           rows
    | None => rows
    end in
  match given search with
  | Some search =>
      filter (fun v => like (title v) ("%" +:+ search +:+ "%")) by_type
  | None => by_type
  end.

Definition list_query (number : Z) (type_ search : option string)
    (rows : list Video) : list Video :=
  let ordered := order_by_date_desc (list_filter type_ search rows) in
  if 0 <? number then limit number ordered else ordered.

(** [update]: the function under the decorators. *)
Definition update (lib : Lib) (site : Site) (number : Z) (list_ : bool)
  : M (Session Video * World) unit :=
  new_videos <-- in_db (_update_videos lib site number) ;;
  match new_videos with
  | [] => in_world (out (Info "No new videos found."))
  | _ =>
      in_world (out (Success ("Added " +:+ pretty (length new_videos)
                              +:+ " new video(s)!"))) ;;;
      if list_
      then
        s <-- gets fst ;;
        in_world (out (Echo (format_video_list lib (loaded s new_videos)
                               "psql")))
      else ret tt
  end.

(** [download]: the function under the decorators. *)
Definition download (site : Site) (video_id : Z) (yes : bool)
    (dest : option string) (account : Account)
  : M (Session Video * World) unit :=
  video_path <-- in_world (_get_download_dir model_name dest account true) ;;
  rows <-- in_db query_all ;;
  video_ <-- in_world (get_video rows video_id) ;;
  match video_ with
  | Some video_ => in_world (_download_video site video_ video_path yes)
  | None => ret tt
  end.

(** [list]: the function under the decorators. *)
Definition list_ (lib : Lib) (site : Site) (number : Z) (refresh : bool)
    (fmt : string) (type_ search : option string)
  : M (Session Video * World) unit :=
  (if refresh then in_db (_update_videos lib site 100) ;;; ret tt
   else ret tt) ;;;
  rows <-- in_db query_all ;;
  (if 0 <? number then lift (sqlite_bind number) ;;; ret tt else ret tt) ;;;
  let videos := list_query number type_ search rows in
  match videos with
  | [] => in_world (out (Warning "No videos found."))
  | _ => in_world (out (Echo (format_video_list lib videos fmt)))
  end.

(** [list] as the command line reaches it. *)
Definition list_command (lib : Lib) (site : Site) (number : option Z)
    (refresh : bool) (fmt type_ search : option string)
  : M (Session Video * World) unit :=
  list_ lib site (click_option 10 number) refresh
        (click_option "psql" fmt) type_ search.

(** [feed]: the function under the decorators. *)
Definition feed (lib : Lib) (site : Site) (number : Z) (print_ : bool)
    (dest : option string) (refresh : bool) (account : Account)
  : M (Session Video * World) unit :=
  (if refresh then in_db (_update_videos lib site number) ;;; ret tt
   else ret tt) ;;;
  path <-- in_world (_get_download_dir model_name dest account false) ;;
  rows <-- in_db query_all ;;
  in_world (_create_video_feed rows path print_ number).

End VideoContent.

(** ** Definitions used to state the properties *)

(** Setting the primary key sets it and touches no other column. *)
Class ModelLaws (R : Type) `{Model R} := {
  id_with_id : forall n r, model_id (with_id n r) = Some n;
  title_with_id : forall n r, model_title (with_id n r) = model_title r;
  url_with_id : forall n r, model_url (with_id n r) = model_url r;
  date_with_id : forall n r, model_date (with_id n r) = model_date r
}.

(** The de-duplication key of a row. *)
Definition key_of {R} `{Model R} (r : R) : string * string :=
  (model_title r, model_url r).

(** Everything the session holds, durable or not. *)
Definition everything {R} (s : Session R) : list R :=
  committed s ++ flushed s ++ pending s.

(** The shape the two creators share: [pre] reads the key off the candidate
    (or says that the candidate is passed over), the session is searched for
    the key, and only when nothing is found [build] makes the new object. *)
Definition create_with {R C} `{Model R}
    (pre : C -> result (option (string * string)))
    (build : C -> string -> string -> result R) (c : C)
  : M (Session R) (option R) :=
  k <-- lift (pre c) ;;
  match k with
  | None => ret None
  | Some (title, url) =>
      existing <-- find_by_title_and_url title url ;;
      match existing with
      | Some _ => ret None
      | None => e <-- lift (build c title url) ;; ret (Some e)
      end
  end.

(** The session holds [added], and nothing else, on top of the committed
    rows [c0]: a first part flushed with the ids it will keep, the rest
    pending. *)
Definition staged_as {R} `{Model R} (c0 : list R) (s : Session R)
    (added : list R) : Prop :=
  committed s = c0 /\
  exists k : nat,
    (k <= length added)%nat /\
    flushed s = assign_ids (max_id c0 + 1) (take k added) /\
    pending s = drop k added.

(** Every candidate gone through has its key exactly once in the
    autoflushing session, and none made the key computation raise. *)
Definition known {R C} `{Model R}
    (pre : C -> result (option (string * string)))
    (done : list C) (s : Session R) : Prop :=
  autoflush s = true /\
  forall c, c ∈ done ->
    match pre c with
    | Raise _ => False
    | Ok None => True
    | Ok (Some (t, u)) =>
        length (filter (has_key t u) (everything s)) = 1%nat
    end.

(** No two rows of an autoflushing session share a key. *)
Definition distinct {R} `{Model R} (s : Session R) : Prop :=
  autoflush s = true /\ NoDup (map key_of (everything s)).


(** A computation that prints and does nothing else. *)
Definition only_prints (m : W unit) : Prop :=
  forall w, exists os,
    m w = (Ok tt, mkWorld (files w) (dirs w) (console w ++ os) (stdin w)
                          (year w)).

(** The keys of the candidates that have one. *)
Definition candidate_keys {C} (pre : C -> result (option (string * string)))
    (cs : list C) : list (string * string) :=
  omap (fun c => match pre c with Ok (Some k) => Some k | _ => None end) cs.

(** During a scan by a session that does not autoflush, begun on the
    committed rows [rows]: nothing is flushed, what was added is pending,
    every added row has the key of a candidate gone through, no two rows
    share a key if none did in [rows], and every candidate gone through has
    its key exactly once among [rows] and the added rows. *)
Definition tracked {R C} `{Model R}
    (pre : C -> result (option (string * string))) (rows : list R)
    (done : list C) (s : Session R) (added : list R) : Prop :=
  s = mkSession rows [] added false
  /\ (forall e, e ∈ added -> key_of e ∈ candidate_keys pre done)
  /\ (NoDup (map key_of rows) -> NoDup (map key_of (rows ++ added)))
  /\ forall c, c ∈ done ->
       match pre c with
       | Raise _ => False
       | Ok None => True
       | Ok (Some (t, u)) =>
           length (filter (has_key t u) (rows ++ added)) = 1%nat
       end.

(** The shape the two update functions share: fetch the listing, scan it,
    commit when anything was added, return what was added. *)
Definition update_with {R C} `{Model R}
    (pre : C -> result (option (string * string)))
    (build : C -> string -> string -> result R)
    (listing : result (option (list C))) : M (Session R) (list R) :=
  page <-- lift listing ;;
  candidates <-- lift (access AttributeError page) ;;
  added <-- scan (create_with pre build) candidates [] ;;
  (match added with [] => ret tt | _ => commit end) ;;;
  ret added.

Module MinisodeFacts.
Import FanCultContent MinisodeContent.

(** The key [_create_episode] computes before it searches. *)
Definition episode_key (ep : EpisodeTag)
  : result (option (string * string)) :=
  match ep_a_href ep, ep_h1_text ep with
  | None, _ => Raise TypeError
  | Some _, None => Raise AttributeError
  | Some href, Some h1 => Ok (Some (Py.strip h1, base_url +:+ Py.strip href))
  end.

(** What [_create_episode] does once the search found nothing. *)
Definition episode_build (lib : Lib) (site : Site) (ep : EpisodeTag)
    (ep_title ep_url : string) : result Episode :=
  match get_episode_page site ep_url with
  | Raise e => Raise e
  | Ok soup =>
      match inline_scripts soup !! 1%nat with
      | None => Raise IndexError
      | Some script =>
          match home_about soup ≫= about_p_text with
          | None => Raise AttributeError
          | Some p_text =>
              match _get_episode_date lib ep with
              | Raise e => Raise e
              | Ok date =>
                  match home_about soup ≫= about_img_src, script with
                  | Some img_src, Some m4a =>
                      Ok (mkEpisode None ep_title (Py.strip p_text) date
                                    ep_url (Py.strip img_src) (Py.strip m4a))
                  | _, _ => Raise AttributeError
                  end
              end
          end
      end
  end.

End MinisodeFacts.

Module VideoFacts.
Import FanCultContent VideoContent.

(** The key [_create_video] computes before it searches; an article
    without a heading is passed over. *)
Definition video_key (article : Article)
  : result (option (string * string)) :=
  match art_h1_text article with
  | None => Ok None
  | Some h1 =>
      match art_a_href article with
      | None => Raise TypeError
      | Some href => Ok (Some (Py.strip h1, base_url +:+ Py.strip href))
      end
  end.

(** What [_create_video] does once the search found nothing. *)
Definition video_build (lib : Lib) (site : Site) (article : Article)
    (video_title video_url : string) : result Video :=
  match art_h6_text article with
  | None => Raise AttributeError
  | Some h6 =>
      match Py.split (Py.drop_last (Py.strip h6)) " - " with
      | [date_str; video_type] =>
          match art_data_vimeo article with
          | None => Raise TypeError
          | Some vimeo_url =>
              match _get_video_metadata site vimeo_url with
              | Raise e => Raise e
              | Ok md =>
                  match dateutil_parse lib date_str with
                  | Raise e => Raise e
                  | Ok date =>
                      match thumbnail_url md,
                            thumbnail_url_with_play_button md with
                      | Some image, Some video_image =>
                          Ok (mkVideo None video_title video_type date
                                video_url image vimeo_url video_image)
                      | _, _ => Raise KeyError
                      end
                  end
              end
          end
      | _ => Raise ValueError
      end
  end.

End VideoFacts.

(** What [tabulate] prints under a header: the cell of every row at the
    position the header has among the headers. *)
Fixpoint index_of (h : string) (fields : list string) : option nat :=
  match fields with
  | [] => None
  | f :: rest => if String.eqb f h then Some 0%nat
                 else S <$> index_of h rest
  end.

Definition cells_under (header : string) (t : Text) : list (option Cell) :=
  match t with
  | Tabulate table_data fields _ =>
      match index_of header fields with
      | Some i => map (fun row => row !! i) table_data
      | None => []
      end
  | _ => []
  end.

(** The channel of a feed: the generator with its entries left out. *)
Definition channel (fg : FeedGenerator) : FeedGenerator :=
  mkFeedGenerator (fg_title fg) (fg_subtitle fg) (fg_author fg)
    (fg_copyright fg) (fg_logo fg) (fg_link fg) (fg_language fg)
    (fg_extensions fg) (fg_itunes_author fg) (fg_itunes_owner fg)
    (fg_itunes_image fg) [].

(** Where a feed command has put the document: on the console when
    printing, in the file otherwise. *)
Definition emitted (print_ : bool) (file_path : string) (fg : FeedGenerator)
    (w w' : World) : Prop :=
  if print_
  then console w' = console w ++ [Echo (Rss fg)] /\ files w' = files w
  else files w' = <[file_path := Rss fg]> (files w).

(** ** content.py: the account commands *)

(** What the commands use of the manager, whose code is not part of these
    sources. *)
Record Manager := mkManager {
  encode : string -> string;     (* [manager.encode] *)
  user_path : string             (* [manager.user_path] *)
}.

Module AccountCommands.
Import FanCultContent.

(** [db.query(model).filter_by(username=username).first()]. The column is
    an [EmailType] of [sqlalchemy_utils]: its comparator lowers the value
    compared with, so the statement is [username = lower(?)], and what is
    stored is compared as it is. *)
Definition find_account (name : string) (accounts : list Account)
  : option Account :=
  List.find (fun a => String.eqb (username a) (Py.str_lower name)) accounts.

(** An attribute set on the object a query returned, then committed: the
    first row of that username changes. *)
Fixpoint update_account (name : string) (f : Account -> Account)
    (accounts : list Account) : list Account :=
  match accounts with
  | [] => []
  | a :: rest =>
      if String.eqb (username a) name then f a :: rest
      else a :: update_account name f rest
  end.

(** [login]: the function under the decorators. The state is the account
    table as committed: every change is committed by the next statement.
    The request carries the user name as typed; the row stores it in lower
    case, which is what [EmailType] binds. *)
Definition login (mgr : Manager) (site : Site) (name pw : string)
  : M (list Account * World) unit :=
  accounts <-- gets fst ;;
  match find_account name accounts with
  | None =>
      success <-- on_world (_make_login_request site name pw) ;;
      if success
      then
        modify (fun '(accounts, w) =>
                  (accounts ++ [mkAccount (Py.str_lower name)
                                          (encode mgr pw)
                                          (Some (user_path mgr))], w)) ;;;
        on_world (out (Success "Successfully logged in!"))
      else ret tt
  | Some account =>
      success <-- on_world (_make_login_request site name pw) ;;
      if success
      then
        ok <-- on_world (confirm "Confirm password change for account") ;;
        if ok
        then
          modify (fun '(accounts, w) =>
                    (update_account (username account)
                       (fun a => mkAccount (username a) (encode mgr pw)
                                           (download_dir a))
                       accounts, w)) ;;;
          on_world (out (Success "Successfully updated password!"))
        else ret tt
      else ret tt
  end.

(** [update]: the function under the decorators; [account] is what the
    login decorator passes in, [help] what [get_help()] gives. *)
Definition update (help : string) (dir : option string) (account : Account)
  : M (list Account * World) unit :=
  match given dir with
  | None => on_world (out (Echo (Plain help)))
  | Some d =>
      modify (fun '(accounts, w) =>
                (update_account (username account)
                   (fun a => mkAccount (username a) (password a) (Some d))
                   accounts, w)) ;;;
      on_world (out (Success ("Download path set to: " +:+ d)))
  end.

End AccountCommands.

(** ** Sample data *)

Module Sample.
Import FanCultContent.

Definition lib : Lib :=
  mkLib (fun s => Ok (Z.of_nat (String.length s)))
        (fun d => pretty d) (fun s => s) (fun s => s).

Definition tag1 : EpisodeTag :=
  mkEpisodeTag (Some " /episodes/one ") (Some " One ")
               (Some "12") (Some "May 2021").

Definition tag2 : EpisodeTag :=
  mkEpisodeTag (Some "/episodes/two") (Some "Two")
               (Some "3") (Some "June 2021").

Definition page : EpisodePage :=
  mkEpisodePage (Some (mkAbout (Some "About it") (Some "https://img/e.png")))
                [None; Some "https://cdn/e.m4a"].

Definition article1 : Article :=
  mkArticle (Some "First") (Some "/news/first")
            (Some "12 May 2021 - Live.") (Some "https://vimeo.com/1").

Definition article2 : Article :=
  mkArticle None (Some "/news/none") None None.

Definition metadata : VimeoMetadata :=
  mkVimeoMetadata (Some "https://i/t.png") (Some "https://i/p.png")
                  (Some "https://player.vimeo.com/video/1?h=2").

Definition stream : VimeoStream := mkVimeoStream "First" "First.mp4" "data".

Definition site : Site :=
  mkSite (Ok (Some [tag1; tag2; tag1]))
         (fun _ => Ok page)
         (fun _ => Ok (Some [article1; article2; article1]))
         (fun _ => Ok metadata)
         (fun _ => Ok (Some "audio/mp4", Some "6"))
         (fun _ => Ok ["abc"; "def"])
         (fun _ _ => Ok stream)
         (Ok (Some "/login"))
         (fun _ _ _ => Ok (mkLoginResponse None (Some true))).

Definition episode (id date : Z) (title : string)
  : MinisodeContent.Episode :=
  MinisodeContent.mkEpisode (Some id) title "About it" date
    (base_url +:+ "/episodes/" +:+ title) "https://img/e.png"
    ("https://cdn/" +:+ title +:+ ".m4a").

Definition video (id date : Z) (title : string) : VideoContent.Video :=
  VideoContent.mkVideo (Some id) title "Live" date
    (base_url +:+ "/news/" +:+ title) "https://i/t.png"
    "https://vimeo.com/1" "https://i/p.png".

(** What a first update of an empty table adds, and the table after. *)
Definition episodes_added : list MinisodeContent.Episode :=
  [ MinisodeContent.mkEpisode None "One" "About it" 11
      "https://myfavoritemurder.com/episodes/one"
      "https://img/e.png" "https://cdn/e.m4a";
    MinisodeContent.mkEpisode None "Two" "About it" 11
      "https://myfavoritemurder.com/episodes/two"
      "https://img/e.png" "https://cdn/e.m4a" ].

Definition episodes_after : list MinisodeContent.Episode :=
  assign_ids 1 episodes_added.

Definition account1 : Account := mkAccount "a@example.com" "x" (Some "/data").
Definition account2 : Account := mkAccount "b@example.com" "y" (Some "/data").

(** Eleven episodes, one a day. *)
Definition eleven : list MinisodeContent.Episode :=
  map (fun i : nat => episode (Z.of_nat i) (Z.of_nat i) (pretty i))
      (seq 1 11).

(** A disk where the first sample episode has been downloaded already. *)
Definition world_with_file : World :=
  mkWorld {["/data/Minisodes/One.m4a" := Plain "old"]}
          {["/data"; "/data/Minisodes"]} [] [] 2021.

(** A disk with the directory [/data] and nothing else. *)
Definition world (lines : list string) : World :=
  mkWorld ∅ {["/data"]} [] lines 2021.

(** A site whose listings hold, after a good candidate, one without a
    link. *)
Definition tag_without_link : EpisodeTag :=
  mkEpisodeTag None (Some "Three") (Some "4") (Some "July 2021").

Definition article_without_link : Article :=
  mkArticle (Some "Second") None (Some "13 May 2021 - Live.")
            (Some "https://vimeo.com/2").

Definition broken_site : Site :=
  mkSite (Ok (Some [tag1; tag_without_link; tag2]))
         (fun _ => Ok page)
         (fun _ => Ok (Some [article1; article_without_link]))
         (fun _ => Ok metadata)
         (fun _ => Ok (Some "audio/mp4", Some "6"))
         (fun _ => Ok ["abc"; "def"])
         (fun _ _ => Ok stream)
         (Ok (Some "/login"))
         (fun _ _ _ => Ok (mkLoginResponse None (Some true))).

End Sample.

(** * Properties *)

(** ** The monad *)

Lemma bind_ok {S A B} (m : M S A) (k : A -> M S B) s a s' :
  m s = (Ok a, s') -> bind m k s = k a s'.
Proof. intros E. unfold bind. by rewrite E. Qed.

Lemma bind_raise {S A B} (m : M S A) (k : A -> M S B) s e s' :
  m s = (Raise e, s') -> bind m k s = (Raise e, s').
Proof. intros E. unfold bind. by rewrite E. Qed.

Lemma bind_inv_ok {S A B} (m : M S A) (k : A -> M S B) s b s' :
  bind m k s = (Ok b, s') ->
  exists a s1, m s = (Ok a, s1) /\ k a s1 = (Ok b, s').
Proof.
  unfold bind. destruct (m s) as [[a|e] s1]; intros E; [eauto | discriminate].
Qed.

(** ** The two creators have the common shape *)

Ltac run_cases :=
  unfold bind, lift, ret, access;
  repeat (first [ reflexivity | discriminate
                | progress simplify_eq/= | case_match ]).

Lemma _create_episode_shape lib site ep s :
  MinisodeContent._create_episode lib site ep s
  = create_with MinisodeFacts.episode_key
      (MinisodeFacts.episode_build lib site) ep s.
Proof.
  unfold MinisodeContent._create_episode, create_with,
    MinisodeFacts.episode_key, MinisodeFacts.episode_build,
    MinisodeContent._find_episode.
  run_cases.
Qed.

Lemma _create_video_shape lib site article s :
  VideoContent._create_video lib site article s
  = create_with VideoFacts.video_key (VideoFacts.video_build lib site)
      article s.
Proof.
  unfold VideoContent._create_video, create_with, VideoFacts.video_key,
    VideoFacts.video_build, VideoContent._find_video.
  run_cases.
Qed.

#[global] Instance episode_laws : ModelLaws MinisodeContent.Episode.
Proof. by split. Qed.

#[global] Instance video_laws : ModelLaws VideoContent.Video.
Proof. by split. Qed.

(** ** The session *)

Section SessionFacts.
Context {R : Type} `{ModelLaws R}.
Implicit Types (s : Session R) (rows added : list R) (r e : R).

Lemma has_key_with_id t u n r : has_key t u (with_id n r) = has_key t u r.
Proof. unfold has_key. by rewrite title_with_id, url_with_id. Qed.

Lemma has_key_key_of t u r : has_key t u r = true <-> key_of r = (t, u).
Proof.
  unfold has_key, key_of. rewrite andb_true_iff, !String.eqb_eq.
  split; [intros [-> ->]; done | intros [= -> ->]; done].
Qed.

Lemma key_of_with_id n r : key_of (with_id n r) = key_of r.
Proof. unfold key_of. by rewrite title_with_id, url_with_id. Qed.

Lemma keys_assign_ids n rows :
  map key_of (assign_ids n rows) = map key_of rows.
Proof.
  revert n. induction rows as [|r rows IH]; intros n; simpl; [done|].
  by rewrite key_of_with_id, IH.
Qed.

Lemma length_assign_ids n rows : length (assign_ids n rows) = length rows.
Proof. revert n. induction rows; intros; simpl; auto. Qed.

Lemma assign_ids_app n l1 l2 :
  assign_ids n (l1 ++ l2)
  = assign_ids n l1 ++ assign_ids (n + Z.of_nat (length l1)) l2.
Proof.
  revert n. induction l1 as [|x l1 IH]; intros n; simpl.
  - by rewrite Z.add_0_r.
  - rewrite IH. do 3 f_equal. lia.
Qed.

Lemma max_id_nonneg rows : 0 <= max_id rows.
Proof. induction rows; simpl; lia. Qed.

Lemma max_id_app l1 l2 : max_id (l1 ++ l2) = Z.max (max_id l1) (max_id l2).
Proof.
  induction l1 as [|x l1 IH]; simpl.
  - pose proof (max_id_nonneg l2). lia.
  - rewrite IH. lia.
Qed.

Lemma max_id_assign_ids n rows :
  0 < n ->
  max_id (assign_ids n rows)
  = match rows with [] => 0 | _ => n + Z.of_nat (length rows) - 1 end.
Proof.
  revert n. induction rows as [|r rows IH]; intros n Hn; [done|].
  simpl assign_ids. cbn [max_id foldr]. rewrite id_with_id.
  fold (max_id (assign_ids (n + 1) rows)). rewrite IH by lia.
  destruct rows; simpl length; simpl default; lia.
Qed.

(** Rows flushed one after the other get the ids that flushing them
    together would have given. *)
Lemma next_id_after_assign c l :
  max_id (c ++ assign_ids (max_id c + 1) l) + 1
  = max_id c + 1 + Z.of_nat (length l).
Proof.
  pose proof (max_id_nonneg c).
  rewrite max_id_app, max_id_assign_ids by lia.
  destruct l; simpl length; lia.
Qed.

Lemma committed_flush s : committed (flush s) = committed s.
Proof. done. Qed.

Lemma query_all_eq s :
  query_all s = (Ok (visible (if autoflush s then flush s else s)),
                 if autoflush s then flush s else s).
Proof. done. Qed.

Lemma committed_query_all s : committed (snd (query_all s)) = committed s.
Proof. rewrite query_all_eq. simpl. by destruct (autoflush s). Qed.

Lemma flush_fresh rows af :
  flush (fresh_session rows af) = fresh_session rows af.
Proof. reflexivity. Qed.

Lemma query_all_fresh rows af :
  query_all (fresh_session rows af) = (Ok rows, fresh_session rows af).
Proof.
  rewrite query_all_eq. simpl autoflush.
  assert (visible (fresh_session rows af) = rows) as Hv
    by (unfold visible; simpl; apply app_nil_r).
  destruct af; rewrite ?flush_fresh, Hv; done.
Qed.

End SessionFacts.

(** ** Scanning candidates *)

Section Scan.
Context {R C : Type} `{ModelLaws R}.
Variable pre : C -> result (option (string * string)).
Variable build : C -> string -> string -> result R.
Hypothesis build_key :
  forall c t u e, build c t u = Ok e -> key_of e = (t, u).

Abbreviation create := (create_with pre build).

(** What one call of the creator does, case by case. *)
Lemma create_with_cases c (s : Session R) :
  match pre c with
  | Raise x => create c s = (Raise x, s)
  | Ok None => create c s = (Ok None, s)
  | Ok (Some (t, u)) =>
      let s1 := snd (query_all s) in
      match filter (has_key t u) (visible s1) with
      | [] => create c s
              = (match build c t u with
                 | Ok e => Ok (Some e)
                 | Raise x => Raise x
                 end, s1)
      | [_] => create c s = (Ok None, s1)
      | _ => create c s = (Raise MultipleResultsFound, s1)
      end
  end.
Proof.
  unfold create_with, find_by_title_and_url, one_or_none, query_all.
  unfold bind, lift, ret, access.
  destruct (pre c) as [[[t u]|]|x]; simpl; try reflexivity.
  destruct (filter _ _) as [|r [|r' l]]; simpl; try reflexivity.
  destruct (build c t u); reflexivity.
Qed.

Lemma scan_cons c cs added (s : Session R) :
  scan create (c :: cs) added s
  = match create c s with
    | (Ok (Some e), s1) => scan create cs (added ++ [e]) (snd (add e s1))
    | (Ok None, s1) => scan create cs added s1
    | (Raise x, s1) => (Raise x, s1)
    end.
Proof.
  simpl scan. unfold bind at 1.
  destruct (create c s) as [[[e|]|x] s1]; reflexivity.
Qed.

(** The creator never commits. *)
Lemma create_committed c (s : Session R) :
  committed (snd (create c s)) = committed s.
Proof.
  pose proof (create_with_cases c s) as Hc.
  destruct (pre c) as [[[t u]|]|x]; [|by rewrite Hc..].
  simpl in Hc.
  destruct (filter _ _) as [|r [|r' l]]; rewrite Hc; simpl;
    apply committed_query_all.
Qed.

(** Nothing becomes durable during the scan, however it ends. *)
Lemma scan_committed cs added (s : Session R) :
  committed (snd (scan create cs added s)) = committed s.
Proof.
  revert added s. induction cs as [|c cs IH]; intros added s; [done|].
  rewrite scan_cons. pose proof (create_committed c s) as Hc.
  destruct (create c s) as [[[e|]|x] s1]; simpl in Hc.
  - rewrite IH. simpl. done.
  - by rewrite IH.
  - done.
Qed.

(** An invariant of the loop that holds when the scan returns. *)
Lemma scan_invariant (I : list C -> Session R -> list R -> Prop) :
  (forall done c s added,
      I done s added ->
      match create c s with
      | (Ok (Some e), s1) => I (done ++ [c]) (snd (add e s1)) (added ++ [e])
      | (Ok None, s1) => I (done ++ [c]) s1 added
      | (Raise _, _) => True
      end) ->
  forall cs done s added res s',
    I done s added ->
    scan create cs added s = (Ok res, s') ->
    I (done ++ cs) s' res.
Proof.
  intros Hstep cs. induction cs as [|c cs IH]; intros done s added res s' HI.
  - simpl. intros [= <- <-]. by rewrite app_nil_r.
  - rewrite scan_cons. specialize (Hstep done c s added HI).
    replace (done ++ c :: cs) with ((done ++ [c]) ++ cs)
      by (by rewrite <- app_assoc).
    destruct (create c s) as [[[e|]|x] s1]; [eauto | eauto | discriminate].
Qed.

(** *** The ids of the staged rows *)

Lemma staged_as_flush c0 s added :
  staged_as c0 s added -> staged_as c0 (flush s) added.
Proof.
  intros [Hc (k & Hk & Hf & Hp)]. split; [done|].
  exists (length added). split; [done|]. rewrite firstn_all, drop_all.
  split; [|done]. unfold flush; simpl. unfold visible.
  rewrite Hc, Hf, Hp, next_id_after_assign.
  by rewrite <- assign_ids_app, take_drop.
Qed.

Lemma staged_as_query c0 s added :
  staged_as c0 s added -> staged_as c0 (snd (query_all s)) added.
Proof.
  intros Hs. rewrite query_all_eq. simpl.
  destruct (autoflush s); auto using staged_as_flush.
Qed.

Lemma staged_as_add c0 s added e :
  staged_as c0 s added -> staged_as c0 (snd (add e s)) (added ++ [e]).
Proof.
  intros [Hc (k & Hk & Hf & Hp)]. split; [done|].
  exists k. simpl. rewrite length_app. split; [lia|].
  rewrite take_app_le, drop_app_le by done. by rewrite Hf, Hp.
Qed.

Lemma staged_as_create c0 c s added :
  staged_as c0 s added -> staged_as c0 (snd (create c s)) added.
Proof.
  intros Hs. pose proof (create_with_cases c s) as Hc.
  destruct (pre c) as [[[t u]|]|x]; [|by rewrite Hc..].
  simpl in Hc.
  destruct (filter _ _) as [|r [|r' l]]; rewrite Hc; simpl;
    by apply staged_as_query.
Qed.

Lemma scan_staged_as c0 cs s added res s' :
  staged_as c0 s added ->
  scan create cs added s = (Ok res, s') ->
  staged_as c0 s' res.
Proof.
  intros Hs Hscan.
  apply (scan_invariant (fun _ s added => staged_as c0 s added))
    with (cs := cs) (done := []) (s := s) (added := added); [|done..].
  intros _ c s2 added2 Hs2.
  pose proof (staged_as_create c0 c s2 added2 Hs2) as Hc.
  destruct (create c s2) as [[[e|]|x] s1]; simpl in Hc;
    auto using staged_as_add.
Qed.

Lemma staged_as_fresh rows af : staged_as rows (fresh_session rows af) [].
Proof. split; [done|]. exists 0%nat. done. Qed.

Lemma staged_as_everything c0 s added :
  staged_as c0 s added ->
  map key_of (everything s) = map key_of (c0 ++ added).
Proof.
  intros [Hc (k & Hk & Hf & Hp)]. unfold everything.
  rewrite Hc, Hf, Hp, !map_app, keys_assign_ids, <- map_app.
  by rewrite take_drop.
Qed.

Lemma staged_as_commit c0 s added :
  staged_as c0 s added ->
  snd (commit s)
  = fresh_session (c0 ++ assign_ids (max_id c0 + 1) added) (autoflush s).
Proof.
  intros Hs. destruct (staged_as_flush _ _ _ Hs) as [Hc (k & Hk & Hf & Hp)].
  unfold commit, modify, fresh_session; simpl. f_equal.
  change (visible (flush s) = c0 ++ assign_ids (max_id c0 + 1) added).
  unfold visible. rewrite Hc. f_equal.
  assert (length (flushed (flush s)) = length added) as Hlen.
  { unfold flush; simpl. destruct Hs as [_ (k' & ? & Hf' & Hp')].
    rewrite length_app, length_assign_ids, Hf', Hp', length_assign_ids.
    rewrite length_take, length_drop. lia. }
  rewrite Hf, length_assign_ids, length_take in Hlen.
  rewrite Hf. f_equal. apply take_ge. lia.
Qed.

End Scan.

Lemma scan_ext {R C} `{Model R} (f g : C -> M (Session R) (option R)) :
  (forall c s, f c s = g c s) ->
  forall cs added s, scan f cs added s = scan g cs added s.
Proof.
  intros Hfg cs. induction cs as [|c cs IH]; intros added s; [done|].
  simpl. unfold bind at 1 3. rewrite Hfg.
  destruct (g c s) as [[[e|]|x] s1]; [|auto|done].
  unfold bind. destruct (add e s1) as [[[]|] s2]; auto.
Qed.

Lemma _update_episodes_shape lib site s :
  MinisodeContent._update_episodes lib site s
  = update_with MinisodeFacts.episode_key
      (MinisodeFacts.episode_build lib site) (get_episodes site) s.
Proof.
  unfold MinisodeContent._update_episodes, update_with, bind, lift, access.
  destruct (get_episodes site) as [[cs|]|x]; try done.
  by rewrite (scan_ext _ _ (_create_episode_shape lib site)).
Qed.

Lemma _update_videos_shape lib site limit s :
  VideoContent._update_videos lib site limit s
  = update_with VideoFacts.video_key
      (VideoFacts.video_build lib site) (post_news site limit) s.
Proof.
  unfold VideoContent._update_videos, update_with, bind, lift, access.
  destruct (post_news site limit) as [[cs|]|x]; try done.
  by rewrite (scan_ext _ _ (_create_video_shape lib site)).
Qed.

Lemma episode_build_key lib site ep t u e :
  MinisodeFacts.episode_build lib site ep t u = Ok e -> key_of e = (t, u).
Proof.
  unfold MinisodeFacts.episode_build. intros Hb.
  repeat case_match; simplify_eq. reflexivity.
Qed.

Lemma video_build_key lib site article t u v :
  VideoFacts.video_build lib site article t u = Ok v -> key_of v = (t, u).
Proof.
  unfold VideoFacts.video_build. intros Hb.
  repeat case_match; simplify_eq. reflexivity.
Qed.

(** ** A whole update *)

Section Update.
Context {R C : Type} `{ModelLaws R}.
Variable pre : C -> result (option (string * string)).
Variable build : C -> string -> string -> result R.
Hypothesis build_key :
  forall c t u e, build c t u = Ok e -> key_of e = (t, u).

Abbreviation create' := (create_with pre build).
Abbreviation update' := (update_with pre build).

Lemma update_with_eq listing (s : Session R) :
  update' listing s
  = match listing with
    | Raise x => (Raise x, s)
    | Ok None => (Raise AttributeError, s)
    | Ok (Some cs) =>
        match scan create' cs [] s with
        | (Raise x, s1) => (Raise x, s1)
        | (Ok [], s1) => (Ok [], s1)
        | (Ok added, s1) => (Ok added, snd (commit s1))
        end
    end.
Proof.
  unfold update_with, bind, lift, access, ret.
  destruct listing as [[cs|]|x]; try done.
  destruct (scan _ cs [] s) as [[[|e added]|x] s1]; done.
Qed.

(** Either the update raises and the table is as it was, or it returns and
    the table has gained exactly the rows it reports, with their ids. *)
Lemma update_with_durable listing rows af :
  match update' listing (fresh_session rows af) with
  | (Ok added, s') =>
      committed s' = rows ++ assign_ids (max_id rows + 1) added
      /\ flushed s' = [] /\ pending s' = []
  | (Raise _, s') => committed s' = rows
  end.
Proof.
  rewrite update_with_eq. destruct listing as [[cs|]|x]; try done.
  pose proof (scan_committed pre build cs [] (fresh_session rows af)) as Hc.
  destruct (scan _ cs [] _) as [[added|x] s1] eqn:Hscan; [|done].
  pose proof (scan_staged_as pre build rows cs _ _ _ _
                (staged_as_fresh rows af) Hscan) as Hs.
  destruct added as [|e added].
  - destruct Hs as [Hc0 (k & _ & Hf & Hp)].
    rewrite take_nil in Hf. rewrite drop_nil in Hp.
    by rewrite app_nil_r.
  - by rewrite (staged_as_commit rows s1 _ Hs).
Qed.

(** *** With an autoflushing session *)

Lemma length_filter_assign_ids t u n (rows : list R) :
  length (filter (has_key t u) (assign_ids n rows))
  = length (filter (has_key t u) rows).
Proof.
  revert n. induction rows as [|r rows IH]; intros n; [done|].
  simpl assign_ids. rewrite !filter_cons, has_key_with_id.
  destruct (decide (has_key t u r)); simpl; by rewrite IH.
Qed.

Lemma length_filter_keys t u (l1 l2 : list R) :
  map key_of l1 = map key_of l2 ->
  length (filter (has_key t u) l1) = length (filter (has_key t u) l2).
Proof.
  revert l2. induction l1 as [|a l1 IH]; intros [|b l2]; try done.
  simpl map. intros Heq.
  assert (key_of a = key_of b) as Hk by congruence.
  assert (map key_of l1 = map key_of l2) as Hrest by congruence.
  rewrite !filter_cons.
  assert (has_key t u a = has_key t u b) as ->.
  { apply eq_true_iff_eq. by rewrite !has_key_key_of, Hk. }
  destruct (decide (has_key t u b)); simpl; by rewrite (IH l2).
Qed.

Lemma keys_everything_flush (s : Session R) :
  map key_of (everything (flush s)) = map key_of (everything s).
Proof.
  unfold everything, flush; simpl.
  by rewrite app_nil_r, !map_app, keys_assign_ids.
Qed.

Lemma everything_flush (s : Session R) :
  everything (flush s) = visible (flush s).
Proof. unfold everything, visible; simpl. by rewrite app_nil_r. Qed.

Lemma everything_add e (s : Session R) :
  pending s = [] -> everything (snd (add e s)) = visible s ++ [e].
Proof.
  intros Hp. unfold everything, visible; simpl. by rewrite Hp, app_assoc.
Qed.

Lemma known_step done c (s : Session R) :
  known pre done s ->
  match create' c s with
  | (Ok (Some e), s1) => known pre (done ++ [c]) (snd (add e s1))
  | (Ok None, s1) => known pre (done ++ [c]) s1
  | (Raise _, _) => True
  end.
Proof.
  intros [Haf Hk]. pose proof (create_with_cases pre build c s) as Hc.
  destruct (pre c) as [[[t u]|]|x] eqn:Hpre; [| |by rewrite Hc].
  - rewrite query_all_eq, Haf in Hc. simpl in Hc.
    assert (forall c', c' ∈ done ->
              match pre c' with
              | Raise _ => False
              | Ok None => True
              | Ok (Some (t', u')) =>
                  length (filter (has_key t' u') (visible (flush s)))
                  = 1%nat
              end) as Hk'.
    { intros c' Hin. specialize (Hk c' Hin).
      destruct (pre c') as [[[t' u']|]|]; try done.
      rewrite <- everything_flush.
      by rewrite (length_filter_keys t' u' _ _ (keys_everything_flush s)). }
    destruct (filter (has_key t u) (visible (flush s)))
      as [|r [|r' l]] eqn:Hf; rewrite Hc; [| |done].
    + destruct (build c t u) as [e|x] eqn:Hb; [|done].
      split; [done|]. intros c' [Hin| ->%list_elem_of_singleton]%elem_of_app.
      * specialize (Hk' c' Hin).
        destruct (pre c') as [[[t' u']|]|] eqn:Hpre'; try done.
        rewrite everything_add by done.
        rewrite filter_app, length_app, Hk', filter_cons, filter_nil.
        destruct (decide (has_key t' u' e)) as [He|He]; [|done].
        apply Is_true_true, has_key_key_of in He.
        rewrite (build_key _ _ _ _ Hb) in He. simplify_eq.
        by rewrite Hf in Hk'.
      * rewrite Hpre, everything_add by done.
        rewrite filter_app, Hf, filter_cons, filter_nil.
        rewrite decide_True; [done|].
        apply Is_true_true, has_key_key_of. eauto.
    + split; [done|]. intros c' [Hin| ->%list_elem_of_singleton]%elem_of_app.
      * specialize (Hk' c' Hin). rewrite everything_flush.
        by destruct (pre c') as [[[t' u']|]|].
      * by rewrite Hpre, everything_flush, Hf.
  - rewrite Hc. split; [done|].
    intros c' [Hin| ->%list_elem_of_singleton]%elem_of_app;
      [by apply Hk|].
    by rewrite Hpre.
Qed.

Lemma scan_known cs (s : Session R) added res s' :
  autoflush s = true ->
  scan create' cs added s = (Ok res, s') ->
  known pre cs s'.
Proof.
  intros Haf Hscan.
  apply (scan_invariant pre build (fun done s _ => known pre done s))
    with (cs := cs) (done := []) (s := s) (added := added) (res := res);
    [| |done].
  - intros done c s2 _ Hk. apply (known_step done c s2 Hk).
  - split; [done|]. intros c Hin. by apply elem_of_nil in Hin.
Qed.

End Update.

Section UpdateAutoflush.
Context {R C : Type} `{ModelLaws R}.
Variable pre : C -> result (option (string * string)).
Variable build : C -> string -> string -> result R.
Hypothesis build_key :
  forall c t u e, build c t u = Ok e -> key_of e = (t, u).

Abbreviation create'' := (create_with pre build).
Abbreviation update'' := (update_with pre build).

Lemma scan_all_skipped cs (s : Session R) :
  (forall c, c ∈ cs -> create'' c s = (Ok None, s)) ->
  scan create'' cs [] s = (Ok [], s).
Proof.
  induction cs as [|c cs IH]; intros Hall; [done|].
  rewrite scan_cons, Hall by apply list_elem_of_here.
  apply IH. intros c' Hin. apply Hall. by apply list_elem_of_further.
Qed.

(** A candidate whose key is in the table once is passed over. *)
Lemma create_skips_known c t u rows af :
  pre c = Ok (Some (t, u)) ->
  length (filter (has_key t u) rows) = 1%nat ->
  create'' c (fresh_session rows af) = (Ok None, fresh_session rows af).
Proof.
  intros Hpre Hlen.
  pose proof (create_with_cases pre build c (fresh_session rows af)) as Hc.
  rewrite Hpre, query_all_fresh in Hc. simpl in Hc.
  assert (visible (fresh_session rows af) = rows) as Hv
    by (unfold visible; simpl; apply app_nil_r).
  rewrite Hv in Hc.
  destruct (filter (has_key t u) rows) as [|r [|r' l]]; done.
Qed.

(** Running the update again on what the first run left adds nothing. *)
Lemma update_with_idempotent listing rows added (s1 : Session R) :
  update'' listing (fresh_session rows true) = (Ok added, s1) ->
  update'' listing (fresh_session (committed s1) true)
  = (Ok [], fresh_session (committed s1) true).
Proof.
  intros Hrun. pose proof (update_with_durable pre build listing rows true)
    as Hd. rewrite Hrun in Hd. destruct Hd as (Hc1 & _ & _).
  rewrite update_with_eq in Hrun. rewrite update_with_eq.
  destruct listing as [[cs|]|x]; try done.
  destruct (scan _ cs [] (fresh_session rows true))
    as [[res|x] s_end] eqn:Hscan; [|done].
  assert (res = added) as -> by (destruct res; congruence). clear Hrun.
  pose proof (scan_known pre build build_key cs (fresh_session rows true)
                [] added s_end eq_refl Hscan) as [_ Hk].
  pose proof (scan_staged_as pre build rows cs _ _ _ _
                (staged_as_fresh rows true) Hscan) as Hs.
  apply staged_as_everything in Hs.
  assert (map key_of (everything s_end) = map key_of (committed s1)) as Hkeys.
  { rewrite Hs, Hc1, !map_app. by rewrite keys_assign_ids. }
  rewrite scan_all_skipped; [done|].
  intros c Hin. specialize (Hk c Hin).
  pose proof (create_with_cases pre build c
                (fresh_session (committed s1) true)) as Hc.
  destruct (pre c) as [[[t u]|]|] eqn:Hpre; [|done..].
  apply (create_skips_known c t u); [done|].
  by rewrite <- (length_filter_keys t u _ _ Hkeys).
Qed.

Lemma filter_has_key_nil t u (rows : list R) :
  filter (has_key t u) rows = [] -> (t, u) ∉ map key_of rows.
Proof.
  induction rows as [|r rows IH]; simpl; [intros _; apply not_elem_of_nil|].
  rewrite filter_cons.
  destruct (decide (has_key t u r)) as [Hr|Hr]; [done|].
  intros Hf. apply not_elem_of_cons. split; [|auto].
  intros Heq. apply Hr, Is_true_true, has_key_key_of. done.
Qed.

Lemma distinct_step c (s : Session R) :
  distinct s ->
  match create'' c s with
  | (Ok (Some e), s1) => distinct (snd (add e s1))
  | (Ok None, s1) => distinct s1
  | (Raise _, _) => True
  end.
Proof.
  intros [Haf Hnd]. pose proof (create_with_cases pre build c s) as Hc.
  destruct (pre c) as [[[t u]|]|x] eqn:Hpre; [| |by rewrite Hc].
  - rewrite query_all_eq, Haf in Hc. simpl in Hc.
    rewrite <- keys_everything_flush, everything_flush in Hnd.
    destruct (filter (has_key t u) (visible (flush s)))
      as [|r [|r' l]] eqn:Hf; rewrite Hc; [| |done].
    + destruct (build c t u) as [e|x] eqn:Hb; [|done].
      split; [done|]. rewrite everything_add by done.
      rewrite map_app. simpl. apply NoDup_app. split; [done|].
      split; [|apply NoDup_singleton].
      intros k Hin ->%list_elem_of_singleton.
      rewrite (build_key _ _ _ _ Hb) in Hin.
      by apply (filter_has_key_nil t u _ Hf).
    + split; [done|]. by rewrite everything_flush.
  - by rewrite Hc.
Qed.

Lemma scan_distinct cs (s : Session R) added res s' :
  distinct s ->
  scan create'' cs added s = (Ok res, s') ->
  distinct s'.
Proof.
  intros Hd Hscan.
  apply (scan_invariant pre build (fun _ s _ => distinct s))
    with (cs := cs) (done := []) (s := s) (added := added) (res := res);
    [|done..].
  intros _ c s2 _ Hd2. apply (distinct_step c s2 Hd2).
Qed.

(** An update keeps the keys of the table distinct, however it ends. *)
Lemma update_with_distinct listing rows :
  NoDup (map key_of rows) ->
  NoDup (map key_of
           (committed (snd (update'' listing (fresh_session rows true))))).
Proof.
  intros Hnd.
  pose proof (update_with_durable pre build listing rows true) as Hd.
  destruct (update'' listing (fresh_session rows true))
    as [[added|x] s1] eqn:Hrun; simpl; [|by rewrite Hd].
  destruct Hd as (Hc1 & _ & _). rewrite update_with_eq in Hrun.
  destruct listing as [[cs|]|x]; try done.
  destruct (scan _ cs [] (fresh_session rows true))
    as [[res|x] s_end] eqn:Hscan; [|done].
  assert (res = added) as -> by (destruct res; congruence). clear Hrun.
  assert (distinct (fresh_session rows true)) as Hd0.
  { split; [done|]. unfold everything; simpl. by rewrite app_nil_r. }
  pose proof (scan_distinct cs _ _ _ _ Hd0 Hscan) as [_ Hnd'].
  pose proof (scan_staged_as pre build rows cs _ _ _ _
                (staged_as_fresh rows true) Hscan) as Hs.
  apply staged_as_everything in Hs.
  rewrite Hc1, map_app, keys_assign_ids, <- map_app, <- Hs. done.
Qed.

End UpdateAutoflush.

(** *** With candidates of distinct keys *)

Section UpdateDistinctCandidates.
Context {R C : Type} `{ModelLaws R}.
Variable pre : C -> result (option (string * string)).
Variable build : C -> string -> string -> result R.
Hypothesis build_key :
  forall c t u e, build c t u = Ok e -> key_of e = (t, u).

Abbreviation create3 := (create_with pre build).
Abbreviation update3 := (update_with pre build).

(** An invariant of the loop that may use what is still to come. *)
Lemma scan_invariant_prefix (total : list C)
    (I : list C -> Session R -> list R -> Prop) :
  (forall done c rest s added,
      total = done ++ c :: rest ->
      I done s added ->
      match create3 c s with
      | (Ok (Some e), s1) => I (done ++ [c]) (snd (add e s1)) (added ++ [e])
      | (Ok None, s1) => I (done ++ [c]) s1 added
      | (Raise _, _) => True
      end) ->
  forall cs done s added res s',
    total = done ++ cs ->
    I done s added ->
    scan create3 cs added s = (Ok res, s') ->
    I total s' res.
Proof.
  intros Hstep cs.
  induction cs as [|c cs IH]; intros done s added res s' Htot HI.
  - simpl. intros [= <- <-]. by rewrite Htot, app_nil_r.
  - rewrite scan_cons. specialize (Hstep done c cs s added Htot HI).
    assert (total = (done ++ [c]) ++ cs) as Htot'
      by (by rewrite <- app_assoc).
    destruct (create3 c s) as [[[e|]|x] s1]; [eauto | eauto | discriminate].
Qed.

Lemma candidate_keys_app (l1 l2 : list C) :
  candidate_keys pre (l1 ++ l2)
  = candidate_keys pre l1 ++ candidate_keys pre l2.
Proof. apply omap_app. Qed.

Lemma candidate_keys_snoc_key (done : list C) c t u :
  pre c = Ok (Some (t, u)) ->
  candidate_keys pre (done ++ [c]) = candidate_keys pre done ++ [(t, u)].
Proof.
  intros Hpre. rewrite candidate_keys_app. f_equal.
  unfold candidate_keys. simpl. by rewrite Hpre.
Qed.

Lemma elem_of_candidate_keys (done : list C) c t u :
  c ∈ done -> pre c = Ok (Some (t, u)) -> (t, u) ∈ candidate_keys pre done.
Proof.
  intros Hin Hpre. unfold candidate_keys. apply list_elem_of_omap.
  exists c. by rewrite Hpre.
Qed.

Lemma candidate_keys_mono (done : list C) c k :
  k ∈ candidate_keys pre done -> k ∈ candidate_keys pre (done ++ [c]).
Proof. rewrite candidate_keys_app. set_solver. Qed.

Lemma filter_has_key_absent t u (rows : list R) :
  (t, u) ∉ map key_of rows -> filter (has_key t u) rows = [].
Proof.
  induction rows as [|r rows IH]; [done|]. simpl map.
  intros [Hr Hrows]%not_elem_of_cons. rewrite filter_cons.
  rewrite decide_False; [auto|].
  intros Hk%Is_true_true%has_key_key_of. congruence.
Qed.

Lemma tracked_step rows total done c rest (s : Session R) added :
  NoDup (candidate_keys pre total) ->
  total = done ++ c :: rest ->
  tracked pre rows done s added ->
  match create3 c s with
  | (Ok (Some e), s1) =>
      tracked pre rows (done ++ [c]) (snd (add e s1)) (added ++ [e])
  | (Ok None, s1) => tracked pre rows (done ++ [c]) s1 added
  | (Raise _, _) => True
  end.
Proof.
  intros Hnd -> (-> & Hadded & Hrows & Hk).
  pose proof (create_with_cases pre build c (mkSession rows [] added false))
    as Hc.
  destruct (pre c) as [[[t u]|]|x] eqn:Hpre; [| |by rewrite Hc].
  - assert ((t, u) ∉ candidate_keys pre done) as Hfresh.
    { rewrite candidate_keys_app in Hnd.
      apply NoDup_app in Hnd as (_ & Hdisj & _). intros Hin.
      apply (Hdisj _ Hin). unfold candidate_keys. simpl. rewrite Hpre.
      apply list_elem_of_here. }
    assert (filter (has_key t u) added = []) as Hnone.
    { apply filter_has_key_absent. intros (e & He & Hin)%list_elem_of_fmap.
      apply Hfresh. rewrite He. by apply Hadded. }
    assert (forall c', c' ∈ done ->
              forall t' u', pre c' = Ok (Some (t', u')) -> (t', u') <> (t, u))
      as Hother.
    { intros c' Hin t' u' Hpre' [= -> ->]. apply Hfresh.
      by apply (elem_of_candidate_keys done c'). }
    rewrite query_all_eq in Hc. simpl in Hc. unfold visible in Hc.
    simpl in Hc. rewrite app_nil_r in Hc.
    destruct (filter (has_key t u) rows) as [|r [|r' l]] eqn:Hf;
      rewrite Hc; [| |done].
    + destruct (build c t u) as [e|x] eqn:Hb; [|done].
      pose proof (build_key _ _ _ _ Hb) as Hke.
      split; [done|]. split; [|split].
      * intros e' [Hin| ->%list_elem_of_singleton]%elem_of_app.
        -- by apply candidate_keys_mono, Hadded.
        -- rewrite Hke, (candidate_keys_snoc_key done c t u Hpre).
           set_solver.
      * intros Hr. specialize (Hrows Hr).
        rewrite app_assoc, map_app. simpl. apply NoDup_app.
        split; [done|]. split; [|apply NoDup_singleton].
        intros k Hin ->%list_elem_of_singleton. rewrite Hke in Hin.
        rewrite map_app in Hin. apply elem_of_app in Hin as [Hin|Hin].
        -- by apply (filter_has_key_nil t u rows Hf).
        -- apply list_elem_of_fmap in Hin as (e' & He' & Hin').
           apply Hfresh. rewrite He'. by apply Hadded.
      * intros c' [Hin| ->%list_elem_of_singleton]%elem_of_app.
        -- specialize (Hk c' Hin). specialize (Hother c' Hin).
           destruct (pre c') as [[[t' u']|]|] eqn:Hpre'; try done.
           rewrite app_assoc, filter_app, length_app, Hk.
           rewrite filter_cons, filter_nil, decide_False; [done|].
           intros He%Is_true_true%has_key_key_of.
           apply (Hother t' u' eq_refl). congruence.
        -- rewrite Hpre, !filter_app, Hf, Hnone, filter_cons, filter_nil.
           rewrite decide_True; [done|].
           by apply Is_true_true, has_key_key_of.
    + split; [done|]. split; [|split; [done|]].
      * intros e' Hin. by apply candidate_keys_mono, Hadded.
      * intros c' [Hin| ->%list_elem_of_singleton]%elem_of_app.
        -- by apply Hk.
        -- by rewrite Hpre, filter_app, Hf, Hnone.
  - rewrite Hc. split; [done|]. split; [|split; [done|]].
    + intros e' Hin. by apply candidate_keys_mono, Hadded.
    + intros c' [Hin| ->%list_elem_of_singleton]%elem_of_app;
        [by apply Hk|]. by rewrite Hpre.
Qed.

Lemma scan_tracked rows cs res (s' : Session R) :
  NoDup (candidate_keys pre cs) ->
  scan create3 cs [] (fresh_session rows false) = (Ok res, s') ->
  tracked pre rows cs s' res.
Proof.
  intros Hnd Hscan.
  apply (scan_invariant_prefix cs (tracked pre rows))
    with (cs := cs) (done := []) (s := fresh_session rows false)
         (added := []); [|done| |done].
  - intros done c rest s added Htot Ht.
    by apply (tracked_step rows cs done c rest).
  - split; [done|]. split; [|split].
    + intros e Hin. by apply elem_of_nil in Hin.
    + by rewrite app_nil_r.
    + intros c Hin. by apply elem_of_nil in Hin.
Qed.

(** Idempotence and distinct keys, when the session does not autoflush
    but the candidates have distinct keys. *)
Lemma update_with_idempotent_distinct cs rows added (s1 : Session R) :
  NoDup (candidate_keys pre cs) ->
  update3 (Ok (Some cs)) (fresh_session rows false) = (Ok added, s1) ->
  update3 (Ok (Some cs)) (fresh_session (committed s1) false)
  = (Ok [], fresh_session (committed s1) false).
Proof.
  intros Hnd Hrun.
  pose proof (update_with_durable pre build (Ok (Some cs)) rows false) as Hd.
  rewrite Hrun in Hd. destruct Hd as (Hc1 & _ & _).
  rewrite update_with_eq in Hrun. rewrite update_with_eq.
  destruct (scan _ cs [] (fresh_session rows false))
    as [[res|x] s_end] eqn:Hscan; [|done].
  assert (res = added) as -> by (destruct res; congruence). clear Hrun.
  pose proof (scan_tracked rows cs added s_end Hnd Hscan)
    as (_ & _ & _ & Hk).
  assert (map key_of (rows ++ added) = map key_of (committed s1)) as Hkeys.
  { rewrite Hc1, !map_app. by rewrite keys_assign_ids. }
  rewrite (scan_all_skipped pre build); [done|].
  intros c Hin. specialize (Hk c Hin).
  pose proof (create_with_cases pre build c
                (fresh_session (committed s1) false)) as Hc.
  destruct (pre c) as [[[t u]|]|] eqn:Hpre; [|done..].
  apply (create_skips_known pre build c t u); [done|].
  by rewrite <- (length_filter_keys t u _ _ Hkeys).
Qed.

Lemma update_with_distinct_distinct cs rows :
  NoDup (candidate_keys pre cs) ->
  NoDup (map key_of rows) ->
  NoDup (map key_of
           (committed (snd (update3 (Ok (Some cs))
                              (fresh_session rows false))))).
Proof.
  intros Hnd Hrows.
  pose proof (update_with_durable pre build (Ok (Some cs)) rows false) as Hd.
  destruct (update3 (Ok (Some cs)) (fresh_session rows false))
    as [[added|x] s1] eqn:Hrun; simpl; [|by rewrite Hd].
  destruct Hd as (Hc1 & _ & _). rewrite update_with_eq in Hrun.
  destruct (scan _ cs [] (fresh_session rows false))
    as [[res|x] s_end] eqn:Hscan; [|done].
  assert (res = added) as -> by (destruct res; congruence). clear Hrun.
  pose proof (scan_tracked rows cs added s_end Hnd Hscan)
    as (_ & _ & Hnd' & _).
  rewrite Hc1, map_app, keys_assign_ids, <- map_app. auto.
Qed.

End UpdateDistinctCandidates.

(** *** Either way *)

Section UpdateEither.
Context {R C : Type} `{ModelLaws R}.
Variable pre : C -> result (option (string * string)).
Variable build : C -> string -> string -> result R.
Hypothesis build_key :
  forall c t u e, build c t u = Ok e -> key_of e = (t, u).

Lemma update_with_idempotent_either listing af rows added (s1 : Session R) :
  (af = true
   \/ forall cs, listing = Ok (Some cs) -> NoDup (candidate_keys pre cs)) ->
  update_with pre build listing (fresh_session rows af) = (Ok added, s1) ->
  update_with pre build listing (fresh_session (committed s1) af)
  = (Ok [], fresh_session (committed s1) af).
Proof.
  intros Hcase Hrun. destruct af.
  - by apply (update_with_idempotent pre build build_key listing rows added).
  - destruct Hcase as [|Hnd]; [done|].
    destruct listing as [[cs|]|x];
      [|by rewrite update_with_eq in Hrun..].
    by apply (update_with_idempotent_distinct pre build build_key cs rows
                added); [apply Hnd|].
Qed.

Lemma update_with_distinct_either listing af (rows : list R) :
  (af = true
   \/ forall cs, listing = Ok (Some cs) -> NoDup (candidate_keys pre cs)) ->
  NoDup (map key_of rows) ->
  NoDup (map key_of
           (committed (snd (update_with pre build listing
                              (fresh_session rows af))))).
Proof.
  intros Hcase Hrows. destruct af.
  - by apply update_with_distinct.
  - destruct Hcase as [|Hnd]; [done|].
    destruct listing as [[cs|]|x];
      [|by rewrite update_with_eq..].
    by apply update_with_distinct_distinct; [|apply Hnd|].
Qed.

End UpdateEither.

(** * Main results *)

(** ** Ingestion: one batch, made durable in one step *)

(** C2. For either content kind, an update run from a fresh session either
    raises, and then the table is exactly as it was last committed, or
    returns the added items, and then the table has gained all of them, in
    order and with consecutive ids, with nothing left in the transaction.
    During the scan, whatever the candidates and however it ends, nothing
    is made durable: stopping it at any point leaves the committed table
    untouched. *)
Theorem update_is_one_atomic_batch lib site :
  (forall rows af,
      match MinisodeContent._update_episodes lib site (fresh_session rows af)
      with
      | (Ok added, s') =>
          committed s' = rows ++ assign_ids (max_id rows + 1) added
          /\ flushed s' = [] /\ pending s' = []
      | (Raise _, s') => committed s' = rows
      end)
  /\ (forall limit rows af,
      match VideoContent._update_videos lib site limit (fresh_session rows af)
      with
      | (Ok added, s') =>
          committed s' = rows ++ assign_ids (max_id rows + 1) added
          /\ flushed s' = [] /\ pending s' = []
      | (Raise _, s') => committed s' = rows
      end)
  /\ (forall eps added s,
      committed (snd (scan (MinisodeContent._create_episode lib site)
                           eps added s)) = committed s)
  /\ (forall articles added s,
      committed (snd (scan (VideoContent._create_video lib site)
                           articles added s)) = committed s).
Proof.
  repeat split.
  - intros rows af. rewrite _update_episodes_shape.
    apply update_with_durable.
  - intros limit rows af. rewrite _update_videos_shape.
    apply update_with_durable.
  - intros eps added s.
    rewrite (scan_ext _ _ (_create_episode_shape lib site)).
    apply scan_committed.
  - intros articles added s.
    rewrite (scan_ext _ _ (_create_video_shape lib site)).
    apply scan_committed.
Qed.

(** ** Ingestion is idempotent *)

(** C6. When an update run has returned, a second run against the same
    listing and the table the first run left returns no item and leaves the
    table as it is. This holds when the session autoflushes (what
    SQLAlchemy creates unless told otherwise) and, for a session that does
    not, when no two candidates of the listing have the same key. A
    candidate whose key the search finds is passed over: the creator
    returns nothing and stages nothing. *)
Theorem update_twice_adds_nothing lib site :
  (forall af rows added s1,
      (af = true
       \/ forall eps, get_episodes site = Ok (Some eps) ->
                      NoDup (candidate_keys MinisodeFacts.episode_key eps)) ->
      MinisodeContent._update_episodes lib site (fresh_session rows af)
      = (Ok added, s1) ->
      MinisodeContent._update_episodes lib site
        (fresh_session (committed s1) af)
      = (Ok [], fresh_session (committed s1) af))
  /\ (forall limit af rows added s1,
      (af = true
       \/ forall articles, post_news site limit = Ok (Some articles) ->
                           NoDup (candidate_keys VideoFacts.video_key
                                    articles)) ->
      VideoContent._update_videos lib site limit (fresh_session rows af)
      = (Ok added, s1) ->
      VideoContent._update_videos lib site limit
        (fresh_session (committed s1) af)
      = (Ok [], fresh_session (committed s1) af))
  /\ (forall ep t u s row s',
      MinisodeFacts.episode_key ep = Ok (Some (t, u)) ->
      MinisodeContent._find_episode t u s = (Ok (Some row), s') ->
      MinisodeContent._create_episode lib site ep s = (Ok None, s'))
  /\ (forall article t u s row s',
      VideoFacts.video_key article = Ok (Some (t, u)) ->
      VideoContent._find_video t u s = (Ok (Some row), s') ->
      VideoContent._create_video lib site article s = (Ok None, s')).
Proof.
  repeat split.
  - intros af rows added s1 Hcase. rewrite !_update_episodes_shape.
    by apply update_with_idempotent_either; [apply episode_build_key|].
  - intros limit af rows added s1 Hcase. rewrite !_update_videos_shape.
    by apply update_with_idempotent_either; [apply video_build_key|].
  - intros ep t u s row s' Hk Hf. rewrite _create_episode_shape.
    unfold create_with, bind, lift, ret.
    unfold MinisodeContent._find_episode in Hf. by rewrite Hk, Hf.
  - intros article t u s row s' Hk Hf. rewrite _create_video_shape.
    unfold create_with, bind, lift, ret.
    unfold VideoContent._find_video in Hf. by rewrite Hk, Hf.
Qed.

Lemma update_twice_adds_nothing_witness :
  MinisodeContent._update_episodes Sample.lib Sample.site
    (fresh_session Sample.episodes_after true)
  = (Ok [], fresh_session Sample.episodes_after true).
Proof.
  apply (proj1 (update_twice_adds_nothing Sample.lib Sample.site) true []
           Sample.episodes_added
           (fresh_session Sample.episodes_after true)).
  - left. reflexivity.
  - vm_compute. reflexivity.
Defined.

(** ** The de-duplication key *)

(** C1, as stated, fails: neither table declares (title, url) unique, and
    both accept two rows that share the pair. *)
Lemma title_url_not_declared_unique :
  ~ In ["title"; "url"] (unique_keys MinisodeContent.table)
  /\ ~ In ["title"; "url"] (unique_keys VideoContent.table)
  /\ table_accepts MinisodeContent.table
       [Sample.episode 1 10 "One"; Sample.episode 2 10 "One"]
  /\ key_of (Sample.episode 1 10 "One") = key_of (Sample.episode 2 10 "One")
  /\ table_accepts VideoContent.table
       [Sample.video 1 10 "First"; Sample.video 2 10 "First"]
  /\ key_of (Sample.video 1 10 "First") = key_of (Sample.video 2 10 "First").
Proof.
  split; [|split; [|split; [|split; [|split]]]].
  - vm_compute. intros [H|[]]. discriminate H.
  - vm_compute. intros [H|[]]. discriminate H.
  - repeat constructor; vm_compute.
    intros [H|[]]%list_elem_of_In. discriminate H.
    intros []%list_elem_of_In.
  - reflexivity.
  - repeat constructor; vm_compute.
    intros [H|[]]%list_elem_of_In. discriminate H.
    intros []%list_elem_of_In.
  - reflexivity.
Qed.

(** Why the session matters: the sample listing names its first candidate
    twice; a session that does not autoflush does not see the pending row
    when the candidate comes again, and stores it twice. *)
Example no_autoflush_stores_a_repeated_candidate_twice :
  map key_of
      (committed (snd (MinisodeContent._update_episodes Sample.lib Sample.site
                         (fresh_session [] false))))
  = [ ("One", "https://myfavoritemurder.com/episodes/one");
      ("Two", "https://myfavoritemurder.com/episodes/two");
      ("One", "https://myfavoritemurder.com/episodes/one") ]
  /\ map key_of
        (committed (snd (MinisodeContent._update_episodes Sample.lib
                           Sample.site (fresh_session [] true))))
     = [ ("One", "https://myfavoritemurder.com/episodes/one");
         ("Two", "https://myfavoritemurder.com/episodes/two") ].
Proof. split; vm_compute; reflexivity. Qed.

(** C1, amended. The only uniqueness either table declares is that of its
    primary key. The pair (title, url) is kept unique by the search that
    precedes every insertion: an update run on a table whose rows have
    distinct pairs leaves a table whose rows have distinct pairs, however
    the run ends. With an autoflushing session this holds whatever the
    candidates, two with the same pair included; with a session that does
    not autoflush it holds when no two candidates have the same pair. *)
Theorem title_url_unique_by_lookup lib site :
  unique_keys MinisodeContent.table = [["minisode_id"]]
  /\ unique_keys VideoContent.table = [["video_id"]]
  /\ (forall af rows,
      (af = true
       \/ forall eps, get_episodes site = Ok (Some eps) ->
                      NoDup (candidate_keys MinisodeFacts.episode_key eps)) ->
      NoDup (map key_of rows) ->
      NoDup (map key_of
               (committed (snd (MinisodeContent._update_episodes lib site
                                  (fresh_session rows af))))))
  /\ (forall limit af rows,
      (af = true
       \/ forall articles, post_news site limit = Ok (Some articles) ->
                           NoDup (candidate_keys VideoFacts.video_key
                                    articles)) ->
      NoDup (map key_of rows) ->
      NoDup (map key_of
               (committed (snd (VideoContent._update_videos lib site limit
                                  (fresh_session rows af)))))).
Proof.
  split; [reflexivity|]. split; [reflexivity|]. split.
  - intros af rows Hcase Hnd. rewrite _update_episodes_shape.
    by apply update_with_distinct_either; [apply episode_build_key| |].
  - intros limit af rows Hcase Hnd. rewrite _update_videos_shape.
    by apply update_with_distinct_either; [apply video_build_key| |].
Qed.

Lemma title_url_unique_by_lookup_witness :
  NoDup (map key_of
           (committed (snd (MinisodeContent._update_episodes Sample.lib
                              Sample.site (fresh_session [] true))))).
Proof.
  apply (proj1 (proj2 (proj2 (title_url_unique_by_lookup Sample.lib
                                Sample.site))) true []).
  - left. reflexivity.
  - simpl. constructor.
Defined.

(** ** Ordering and limits *)

Section Ordering.
Context {R : Type} `{Model R}.

#[local] Instance date_asc_total : Total (date_asc (R:=R)).
Proof. intros a b. unfold date_asc. lia. Qed.

#[local] Instance date_asc_trans : Transitive (date_asc (R:=R)).
Proof. intros a b c. unfold date_asc. lia. Qed.

#[local] Instance date_desc_total : Total (date_desc (R:=R)).
Proof. intros a b. unfold date_desc. lia. Qed.

#[local] Instance date_desc_trans : Transitive (date_desc (R:=R)).
Proof. intros a b c. unfold date_desc. lia. Qed.

Lemma order_by_date_asc_sorted (rows : list R) :
  StronglySorted date_asc (order_by_date_asc rows).
Proof. apply StronglySorted_merge_sort; apply _. Qed.

Lemma order_by_date_desc_sorted (rows : list R) :
  StronglySorted date_desc (order_by_date_desc rows).
Proof. apply StronglySorted_merge_sort; apply _. Qed.

Lemma order_by_date_asc_perm (rows : list R) : order_by_date_asc rows ≡ₚ rows.
Proof. apply merge_sort_Permutation. Qed.

Lemma order_by_date_desc_perm (rows : list R) :
  order_by_date_desc rows ≡ₚ rows.
Proof. apply merge_sort_Permutation. Qed.

Lemma StronglySorted_take {A} (Q : relation A) n (l : list A) :
  StronglySorted Q l -> StronglySorted Q (take n l).
Proof.
  intros Hl. rewrite <- (take_drop n l) in Hl.
  by apply StronglySorted_app_1_l in Hl.
Qed.

Lemma StronglySorted_rev {A} (Q : relation A) (l : list A) :
  StronglySorted Q l -> StronglySorted (flip Q) (rev l).
Proof.
  induction 1 as [|a l Hl IH Ha]; simpl; [constructor|].
  apply StronglySorted_app_2; [|done|repeat constructor].
  intros x1 x2 Hx1 ->%list_elem_of_singleton. unfold flip.
  rewrite Forall_forall in Ha. apply Ha.
  by apply list_elem_of_In, in_rev, list_elem_of_In.
Qed.

Lemma limit_sorted (Q : relation R) n (rows : list R) :
  StronglySorted Q rows -> StronglySorted Q (limit n rows).
Proof.
  intros Hs. unfold limit. destruct (n <? 0); [done|].
  by apply StronglySorted_take.
Qed.

Lemma limit_within n (rows : list R) :
  0 <= n <= Z.of_nat (length rows) ->
  Z.of_nat (length (limit n rows)) = n.
Proof.
  intros Hn. unfold limit. destruct (Z.ltb_spec n 0); [lia|].
  rewrite length_take. lia.
Qed.

End Ordering.

(** ** The table of episodes *)

(** C10. In the table that [format_episode_list] hands to [tabulate], every
    row is [id, date, title, shortened description, shortened url] and the
    headers are [ID, Title, Description, Date, URL]: what stands under
    Title is the date, under Description the title, and under Date the
    description. *)
Theorem episode_list_columns lib episodes fmt :
  let t := MinisodeContent.format_episode_list lib episodes fmt in
  t = Tabulate
        (map (fun e =>
                [ CInt (MinisodeContent.minisode_id e);
                  CStr (strftime lib (MinisodeContent.date e));
                  CStr (MinisodeContent.title e);
                  CStr (shorten lib (MinisodeContent.description e));
                  CStr (shorten lib (MinisodeContent.url e)) ]) episodes)
        ["ID"; "Title"; "Description"; "Date"; "URL"] fmt
  /\ cells_under "ID" t
     = map (fun e => Some (CInt (MinisodeContent.minisode_id e))) episodes
  /\ cells_under "Title" t
     = map (fun e => Some (CStr (strftime lib (MinisodeContent.date e))))
           episodes
  /\ cells_under "Description" t
     = map (fun e => Some (CStr (MinisodeContent.title e))) episodes
  /\ cells_under "Date" t
     = map (fun e => Some (CStr (shorten lib (MinisodeContent.description e))))
           episodes
  /\ cells_under "URL" t
     = map (fun e => Some (CStr (shorten lib (MinisodeContent.url e))))
           episodes.
Proof.
  unfold MinisodeContent.format_episode_list. cbv zeta.
  split; [reflexivity|].
  repeat split; cbn [cells_under index_of String.eqb Ascii.eqb Bool.eqb fmap
                     option_fmap option_map];
    rewrite map_map; apply map_ext; reflexivity.
Qed.

(** ** Listings *)

(** C7, as stated, fails: with no number given, a listing of eleven
    episodes shows ten of them. *)
Lemma list_without_number_shows_ten :
  length (order_by_date_desc
            (MinisodeContent.list_filter None Sample.eleven)) = 11%nat
  /\ length (MinisodeContent.list_query (click_option 10 None) None
               Sample.eleven) = 10%nat
  /\ exists table_data,
      console (snd (snd (MinisodeContent.list_command Sample.lib Sample.site
                           None false None None
                           (fresh_session Sample.eleven true,
                            Sample.world []))))
      = [Echo (Tabulate table_data
                 ["ID"; "Title"; "Description"; "Date"; "URL"] "psql")]
      /\ length table_data = 10%nat.
Proof.
  split; [by vm_compute|]. split; [by vm_compute|].
  eexists. split; [vm_compute; reflexivity|reflexivity].
Qed.

(** C7, amended. For either kind, with [matching] the rows that pass the
    filters, newest first: a number between 1 and the number of matching
    rows gives exactly that many, the first ones of [matching]; a number
    that is zero or negative gives all of [matching]; and when no number is
    given the command uses 10, so at most the first ten are listed. *)
Theorem list_limit number rows :
  (forall search,
      let matching :=
        order_by_date_desc (MinisodeContent.list_filter search rows) in
      (0 < number <= Z.of_nat (length matching) ->
       MinisodeContent.list_query number search rows
       = take (Z.to_nat number) matching
       /\ Z.of_nat (length (MinisodeContent.list_query number search rows))
          = number)
      /\ (number <= 0 ->
          MinisodeContent.list_query number search rows = matching)
      /\ MinisodeContent.list_query (click_option 10 None) search rows
         = take 10 matching)
  /\ (forall vrows type_ search,
      let matching :=
        order_by_date_desc (VideoContent.list_filter type_ search vrows) in
      (0 < number <= Z.of_nat (length matching) ->
       VideoContent.list_query number type_ search vrows
       = take (Z.to_nat number) matching
       /\ Z.of_nat (length (VideoContent.list_query number type_ search vrows))
          = number)
      /\ (number <= 0 ->
          VideoContent.list_query number type_ search vrows = matching)
      /\ VideoContent.list_query (click_option 10 None) type_ search vrows
         = take 10 matching).
Proof.
  split.
  - intros search matching. repeat split.
    + unfold MinisodeContent.list_query, limit. fold matching.
      destruct (Z.ltb_spec 0 number); [|lia].
      by destruct (Z.ltb_spec number 0); [lia|].
    + unfold MinisodeContent.list_query, limit. fold matching.
      destruct (Z.ltb_spec 0 number); [|lia].
      destruct (Z.ltb_spec number 0); [lia|]. rewrite length_take. lia.
    + intros Hn. unfold MinisodeContent.list_query. fold matching.
      by destruct (Z.ltb_spec 0 number); [lia|].
  - intros vrows type_ search matching. repeat split.
    + unfold VideoContent.list_query, limit. fold matching.
      destruct (Z.ltb_spec 0 number); [|lia].
      by destruct (Z.ltb_spec number 0); [lia|].
    + unfold VideoContent.list_query, limit. fold matching.
      destruct (Z.ltb_spec 0 number); [|lia].
      destruct (Z.ltb_spec number 0); [lia|]. rewrite length_take. lia.
    + intros Hn. unfold VideoContent.list_query. fold matching.
      by destruct (Z.ltb_spec 0 number); [lia|].
Qed.

Lemma list_limit_witness :
  MinisodeContent.list_query 3 None Sample.eleven
  = take 3 (order_by_date_desc
              (MinisodeContent.list_filter None Sample.eleven))
  /\ Z.of_nat (length (MinisodeContent.list_query 3 None Sample.eleven)) = 3.
Proof.
  apply (proj1 (proj1 (list_limit 3 Sample.eleven) None)).
  vm_compute. split; [reflexivity | discriminate].
Defined.

(** ** Commands: the session and the world *)

Lemma in_world_run {R A} (m : W A) (s : Session R) w :
  in_world m (s, w) = (fst (m w), (s, snd (m w))).
Proof. unfold in_world. by destruct (m w). Qed.

Lemma in_db_query_fresh {R} `{Model R} (rows : list R) af w :
  in_db query_all (fresh_session rows af, w)
  = (Ok rows, (fresh_session rows af, w)).
Proof.
  unfold in_db, query_all. simpl.
  assert (visible (fresh_session rows af) = rows) as Hv
    by (unfold visible; simpl; apply app_nil_r).
  destruct af; simpl; [change (flush (fresh_session rows true))
                         with (fresh_session rows true)|]; by rewrite Hv.
Qed.

(** What [_get_download_dir] may do: raise and change nothing, return and
    change nothing because the directory is there, or create it. *)
Lemma _get_download_dir_run model_name dest account with_model w :
  match FanCultContent._get_download_dir model_name dest account with_model w
  with
  | (Raise _, w') => w' = w
  | (Ok d, w') =>
      (bool_decide (d ∈ dirs w) = true /\ w' = w)
      \/ (bool_decide (d ∈ dirs w) = false
          /\ w' = mkWorld (files w)
                    (dirs w ∪ list_to_set (Py.ancestors d))
                    (console w) (stdin w) (year w))
  end.
Proof.
  unfold FanCultContent._get_download_dir.
  match goal with
  | |- context [access TypeError ?o] => destruct o as [d|]
  end; [|done].
  unfold bind at 1. unfold lift at 1. unfold access at 1.
  cbv beta iota zeta.
  match goal with
  | |- context [isdir ?p] => set (path := p)
  end.
  unfold bind, lift, access, isdir, gets, makedirs, ret.
  destruct (bool_decide (path ∈ dirs w)) eqn:Hd; simpl; [by left|].
  rewrite ?Hd. simpl.
  destruct (existsb _ (Py.ancestors path)); simpl; [done|]. by right.
Qed.






(** ** Feeds *)

Lemma _get_rss_feed_generator_run model_name podcast w :
  exists fg,
    FanCultContent._get_rss_feed_generator model_name podcast w = (Ok fg, w)
    /\ fg_entries fg = [].
Proof.
  unfold FanCultContent._get_rss_feed_generator, bind, gets, ret.
  destruct podcast; eexists; split; reflexivity.
Qed.

(** The entries the loop over the episodes leaves in the generator: one for
    every episode, the later ones in front. *)
Lemma episode_entries_spec site eps fg fg' :
  MinisodeContent.episode_entries site eps fg = Ok fg' ->
  exists entries,
    fg_entries fg' = rev entries ++ fg_entries fg
    /\ Forall2 (fun e fe =>
                  exists ty len,
                    head_headers site (MinisodeContent.audio e) = Ok (ty, len)
                    /\ fe = MinisodeContent.episode_entry e ty len)
               eps entries.
Proof.
  revert fg. induction eps as [|e eps IH]; simpl; intros fg.
  - intros [= <-]. by exists [].
  - destruct (head_headers site _) as [[ty len]|x] eqn:Hh; [|done].
    intros (entries & He & Hf)%IH.
    exists (MinisodeContent.episode_entry e ty len :: entries). split.
    + simpl. rewrite He. simpl. by rewrite <- app_assoc.
    + constructor; eauto.
Qed.


Lemma episode_entries_published eps entries site :
  Forall2 (fun e fe =>
             exists ty len,
               head_headers site (MinisodeContent.audio e) = Ok (ty, len)
               /\ fe = MinisodeContent.episode_entry e ty len)
          eps entries ->
  map fe_published entries = map MinisodeContent.date eps.
Proof.
  induction 1 as [|e fe eps entries (ty & len & _ & ->) _ IH]; [done|].
  simpl. by rewrite IH.
Qed.

Lemma video_entries_spec vs fg :
  fg_entries (VideoContent.video_entries vs fg)
  = rev (map VideoContent.video_entry vs) ++ fg_entries fg.
Proof.
  unfold VideoContent.video_entries. revert fg.
  induction vs as [|v vs IH]; intros fg; [done|].
  simpl. rewrite IH. simpl. by rewrite <- app_assoc.
Qed.

(** What a run of [_create_episode_feed] that returns has done. *)
Lemma _create_episode_feed_run site rows file_dir print_ w w' :
  MinisodeContent._create_episode_feed site rows file_dir print_ w
  = (Ok tt, w') ->
  exists fg entries,
    fg_entries fg = rev entries
    /\ Forall2 (fun e fe =>
                  exists ty len,
                    head_headers site (MinisodeContent.audio e) = Ok (ty, len)
                    /\ fe = MinisodeContent.episode_entry e ty len)
               (order_by_date_asc rows) entries
    /\ if print_
       then w' = snd (out (Echo (Rss fg)) w)
       else files w'
            = <[Py.path_join file_dir "minisodes.xml" := Rss fg]> (files w)
            /\ dirs w' = dirs w
            /\ console w'
               = console w
                 ++ [Success ("RSS file created: "
                              +:+ Py.path_join file_dir "minisodes.xml")].
Proof.
  unfold MinisodeContent._create_episode_feed.
  destruct (_get_rss_feed_generator_run MinisodeContent.model_name true w)
    as (fg0 & Hg & He0).
  unfold bind at 1. rewrite Hg. unfold bind at 1. unfold lift at 1.
  destruct (MinisodeContent.episode_entries site _ fg0) as [fg|x] eqn:Hent;
    [|done].
  apply episode_entries_spec in Hent as (entries & He & Hf).
  rewrite He0, app_nil_r in He. intros Hrun.
  exists fg, entries. split; [done|]. split; [done|].
  destruct print_.
  - unfold out, modify in *. by simplify_eq.
  - unfold bind, write_file, out, modify in Hrun.
    change (MinisodeContent.model_name +:+ ".xml") with "minisodes.xml" in Hrun.
    destruct (_ || _)%bool; [done|]. by simplify_eq.
Qed.

(** What a run of [_create_video_feed] that returns has done. *)
Lemma _create_video_feed_run rows file_dir print_ limit_ w w' :
  VideoContent._create_video_feed rows file_dir print_ limit_ w
  = (Ok tt, w') ->
  exists fg,
    fg_entries fg
    = rev (map VideoContent.video_entry
               (limit limit_ (order_by_date_desc rows)))
    /\ if print_
       then w' = snd (out (Echo (Rss fg)) w)
       else files w'
            = <[Py.path_join file_dir "videos.xml" := Rss fg]> (files w)
            /\ dirs w' = dirs w
            /\ console w'
               = console w
                 ++ [Success ("RSS file created: "
                              +:+ Py.path_join file_dir "videos.xml")].
Proof.
  unfold VideoContent._create_video_feed.
  destruct (_get_rss_feed_generator_run VideoContent.model_name false w)
    as (fg0 & Hg & He0).
  unfold bind at 1. rewrite Hg. unfold bind at 1, lift at 1.
  destruct (sqlite_bind limit_) as [n|x]; [|done]. intros Hrun.
  exists (VideoContent.video_entries (limit limit_ (order_by_date_desc rows))
            (load_extension "media" fg0)).
  split.
  - rewrite video_entries_spec. simpl. rewrite He0. apply app_nil_r.
  - destruct print_.
    + unfold out, modify in *. by simplify_eq.
    + unfold bind, write_file, out, modify in Hrun.
      change (VideoContent.model_name +:+ ".xml") with "videos.xml" in Hrun.
      destruct (_ || _)%bool; [done|]. by simplify_eq.
Qed.

Lemma StronglySorted_map {A B} (f : A -> B) (Q1 : relation A)
    (Q2 : relation B) (l : list A) :
  (forall x y, Q1 x y -> Q2 (f x) (f y)) ->
  StronglySorted Q1 l -> StronglySorted Q2 (map f l).
Proof.
  intros Hf. induction 1 as [|a l Hl IH Ha]; simpl; constructor; [done|].
  rewrite List.Forall_forall in *. intros y (x & <- & Hx)%in_map_iff. auto.
Qed.

Lemma StronglySorted_impl {A} (Q1 Q2 : relation A) (l : list A) :
  (forall x y, Q1 x y -> Q2 x y) ->
  StronglySorted Q1 l -> StronglySorted Q2 l.
Proof.
  intros Hq Hl. rewrite <- (map_id l). by apply (StronglySorted_map id Q1).
Qed.

Lemma dates_asc {R} `{Model R} (rows : list R) :
  StronglySorted Z.le (map model_date (order_by_date_asc rows)).
Proof.
  apply (StronglySorted_map _ date_asc); [done|].
  apply order_by_date_asc_sorted.
Qed.

Lemma dates_desc {R} `{Model R} n (rows : list R) :
  StronglySorted Z.ge (map model_date (limit n (order_by_date_desc rows))).
Proof.
  apply (StronglySorted_map _ date_desc).
  - unfold date_desc. intros x y. lia.
  - apply limit_sorted, order_by_date_desc_sorted.
Qed.

(** C3, as stated, fails: of two stored episodes the feed lists the newer
    one first, and of two stored videos the older one first. *)
Lemma feed_entries_in_reverse :
  (exists fg,
      MinisodeContent._create_episode_feed Sample.site
        [Sample.episode 1 10 "One"; Sample.episode 2 20 "Two"]
        "/data" true (Sample.world [])
      = (Ok tt, snd (out (Echo (Rss fg)) (Sample.world [])))
      /\ map fe_published (fg_entries fg) = [20; 10])
  /\ (exists fg,
      VideoContent._create_video_feed
        [Sample.video 1 10 "First"; Sample.video 2 20 "Second"]
        "/data" true 10 (Sample.world [])
      = (Ok tt, snd (out (Echo (Rss fg)) (Sample.world [])))
      /\ map fe_published (fg_entries fg) = [10; 20]).
Proof.
  split; eexists; (split; [vm_compute; reflexivity|reflexivity]).
Qed.

(** C3, amended. Feed synthesis takes the episodes oldest first and the
    videos newest first (as many as the limit allows), and every entry is
    put in front of those made before it: in the document, printed or
    written, the episode entries stand newest first and the video entries
    oldest first. Listings of both kinds are newest first. *)
Theorem feed_and_listing_order site :
  (forall rows file_dir print_ w w',
      MinisodeContent._create_episode_feed site rows file_dir print_ w
      = (Ok tt, w') ->
      exists fg,
        (if print_ then console w' = console w ++ [Echo (Rss fg)]
         else files w' !! Py.path_join file_dir "minisodes.xml"
              = Some (Rss fg))
        /\ StronglySorted Z.le
             (map MinisodeContent.date (order_by_date_asc rows))
        /\ map fe_published (fg_entries fg)
           = rev (map MinisodeContent.date (order_by_date_asc rows))
        /\ StronglySorted Z.ge (map fe_published (fg_entries fg)))
  /\ (forall rows file_dir print_ limit_ w w',
      VideoContent._create_video_feed rows file_dir print_ limit_ w
      = (Ok tt, w') ->
      exists fg,
        (if print_ then console w' = console w ++ [Echo (Rss fg)]
         else files w' !! Py.path_join file_dir "videos.xml"
              = Some (Rss fg))
        /\ StronglySorted Z.ge
             (map VideoContent.date (limit limit_ (order_by_date_desc rows)))
        /\ map fe_published (fg_entries fg)
           = rev (map VideoContent.date
                      (limit limit_ (order_by_date_desc rows)))
        /\ StronglySorted Z.le (map fe_published (fg_entries fg)))
  /\ (forall number search rows,
      StronglySorted date_desc
        (MinisodeContent.list_query number search rows))
  /\ (forall number type_ search rows,
      StronglySorted date_desc
        (VideoContent.list_query number type_ search rows)).
Proof.
  split; [|split; [|split]].
  - intros rows file_dir print_ w w' Hrun.
    apply _create_episode_feed_run in Hrun as (fg & entries & He & Hf & Hw).
    apply episode_entries_published in Hf.
    pose proof (dates_asc rows) as Hs. simpl in Hs.
    exists fg. split; [|split; [done|]].
    + destruct print_; [by subst w'|].
      destruct Hw as (-> & _). apply lookup_insert_eq.
    + rewrite He, map_rev, Hf. split; [done|].
      apply StronglySorted_rev in Hs.
      eapply StronglySorted_impl; [|exact Hs]. unfold flip. lia.
  - intros rows file_dir print_ limit_ w w' Hrun.
    apply _create_video_feed_run in Hrun as (fg & He & Hw).
    pose proof (dates_desc limit_ rows) as Hs. simpl in Hs.
    exists fg. split; [|split; [done|]].
    + destruct print_; [by subst w'|].
      destruct Hw as (-> & _). apply lookup_insert_eq.
    + rewrite He, map_rev, map_map. simpl. split; [done|].
      apply StronglySorted_rev in Hs.
      eapply StronglySorted_impl; [|exact Hs]. unfold flip. lia.
  - intros number search rows. unfold MinisodeContent.list_query.
    destruct (0 <? number);
      [apply limit_sorted|]; apply order_by_date_desc_sorted.
  - intros number type_ search rows. unfold VideoContent.list_query.
    destruct (0 <? number);
      [apply limit_sorted|]; apply order_by_date_desc_sorted.
Qed.

Lemma feed_and_listing_order_witness :
  exists fg,
    console (snd (MinisodeContent._create_episode_feed Sample.site
                    [Sample.episode 1 10 "One"; Sample.episode 2 20 "Two"]
                    "/data" true (Sample.world [])))
    = console (Sample.world []) ++ [Echo (Rss fg)]
    /\ StronglySorted Z.le
         (map MinisodeContent.date
              (order_by_date_asc
                 [Sample.episode 1 10 "One"; Sample.episode 2 20 "Two"]))
    /\ map fe_published (fg_entries fg)
       = rev (map MinisodeContent.date
                  (order_by_date_asc
                     [Sample.episode 1 10 "One"; Sample.episode 2 20 "Two"]))
    /\ StronglySorted Z.ge (map fe_published (fg_entries fg)).
Proof.
  apply (proj1 (feed_and_listing_order Sample.site)
           [Sample.episode 1 10 "One"; Sample.episode 2 20 "Two"]
           "/data" true (Sample.world [])).
  vm_compute. reflexivity.
Defined.





(** ** Accounts *)

Lemma out_only_prints o : only_prints (out o).
Proof. intros w. by exists [o]. Qed.

Lemma for_each_only_prints {A} (f : A -> W unit) (l : list A) :
  (forall x, only_prints (f x)) -> only_prints (for_each f l).
Proof.
  intros Hf. induction l as [|x l IH]; intros w; simpl.
  - exists []. unfold ret. by rewrite app_nil_r; destruct w.
  - destruct (Hf x w) as [os1 H1]. unfold bind. rewrite H1.
    destruct (IH (mkWorld (files w) (dirs w) (console w ++ os1) (stdin w)
                          (year w))) as [os2 H2].
    rewrite H2. simpl. exists (os1 ++ os2). by rewrite app_assoc.
Qed.

(** C8, as stated, fails: with two accounts stored and nothing but Enter
    typed at the prompt, the first account is taken and the login goes
    through. *)
Lemma two_accounts_default_to_first :
  fst (FanCultContent.login_user Sample.lib Sample.site
         [Sample.account1; Sample.account2] (Sample.world [""]))
  = Ok (Some Sample.account1).
Proof. vm_compute. reflexivity. Qed.

(** The loop that lists the accounts prints one line for each. *)
Lemma for_each_listing (l : list (nat * FanCultContent.Account)) w :
  for_each (fun '(idx, acct) =>
              out (Echo (Plain (" [" +:+ pretty idx +:+ "] "
                                +:+ FanCultContent.username acct)))) l w
  = (Ok tt,
     mkWorld (files w) (dirs w)
       (console w
        ++ map (fun '(idx, acct) =>
                  Echo (Plain (" [" +:+ pretty idx +:+ "] "
                               +:+ FanCultContent.username acct))) l)
       (stdin w) (year w)).
Proof.
  revert w. induction l as [|[idx acct] l IH]; intros w.
  - simpl. unfold ret. rewrite app_nil_r. by destruct w.
  - cbn [for_each map]. unfold bind at 1. unfold out at 1, modify at 1.
    rewrite IH. cbn [files dirs console stdin year].
    by rewrite <- app_assoc.
Qed.

(** What the prompt gives: the default or one of the choices; it fails
    only with [Abort], having read all the input, none of it an empty
    line. *)
Lemma read_choice_ok n d lines i rest :
  read_choice n d lines = (Ok i, rest) -> i = d \/ (i < n)%nat.
Proof.
  induction lines as [|l lines IH]; simpl; [done|].
  destruct (String.eqb l ""); [intros [= <- _]; by left|].
  destruct (List.find _ (seq 0 n)) as [j|] eqn:Hfind; [|done].
  intros [= <- _]. right. apply find_some in Hfind as [Hin _].
  apply in_seq in Hin. lia.
Qed.

Lemma read_choice_raise n d lines x rest :
  read_choice n d lines = (Raise x, rest) ->
  x = Abort /\ rest = [] /\ "" ∉ lines.
Proof.
  induction lines as [|l lines IH]; simpl.
  - intros [= <- <-]. split; [done|]. split; [done|]. apply not_elem_of_nil.
  - destruct (String.eqb_spec l "") as [|Hne]; [done|].
    destruct (List.find _ (seq 0 n)); [done|].
    intros (-> & -> & Hnot)%IH. split; [done|]. split; [done|].
    apply not_elem_of_cons. split; [congruence|done].
Qed.

(** [_get_account] on a table of several accounts: the listing, the
    prompt, and the account at the index read. *)
Lemma _get_account_several a0 a1 more w :
  let accounts := a0 :: a1 :: more in
  let shown :=
    Echo (Plain "Multiple accounts found:")
    :: imap (fun (idx : nat) acct =>
               Echo (Plain (" [" +:+ pretty idx +:+ "] "
                            +:+ FanCultContent.username acct))) accounts
    ++ [Ask "
Enter account number"] in
  FanCultContent._get_account accounts w
  = let '(r, rest) := read_choice (length accounts) 0 (stdin w) in
    let w1 := mkWorld (files w) (dirs w) (console w ++ shown) rest (year w) in
    match r with
    | Ok i =>
        match accounts !! i with
        | Some a => (Ok (Some a), w1)
        | None => (Raise IndexError, w1)
        end
    | Raise x => (Raise x, w1)
    end.
Proof.
  cbv zeta. unfold FanCultContent._get_account.
  unfold bind at 1. unfold out at 1, modify at 1.
  unfold bind at 1. rewrite for_each_listing.
  unfold bind at 1. unfold prompt_choice. unfold bind at 1.
  unfold out at 1, modify at 1. cbn [files dirs console stdin year].
  change (map (fun '(idx, acct) =>
                 Echo (Plain (" [" +:+ pretty idx +:+ "] "
                              +:+ FanCultContent.username acct)))
            (imap (fun (idx : nat) acct => (idx, acct)) (a0 :: a1 :: more)))
    with ((fun '(idx, acct) =>
             Echo (Plain (" [" +:+ pretty idx +:+ "] "
                          +:+ FanCultContent.username acct)))
            <$> imap (fun (idx : nat) (acct : FanCultContent.Account) =>
                        (idx, acct)) (a0 :: a1 :: more)).
  rewrite fmap_imap.
  replace ((console w ++ [Echo (Plain "Multiple accounts found:")])
           ++ imap (fun (n : nat) =>
                      (fun '(idx, acct) =>
                         Echo (Plain (" [" +:+ pretty idx +:+ "] "
                                      +:+ FanCultContent.username acct)))
                      ∘ (fun acct : FanCultContent.Account => (n, acct)))
                   (a0 :: a1 :: more))
    with (console w
          ++ Echo (Plain "Multiple accounts found:")
             :: imap (fun (idx : nat) acct =>
                        Echo (Plain (" [" +:+ pretty idx +:+ "] "
                                     +:+ FanCultContent.username acct)))
                     (a0 :: a1 :: more))
    by (by rewrite <- app_assoc).
  rewrite <- app_assoc. cbn [app].
  destruct (read_choice _ 0 (stdin w)) as [[i|x] rest]; [|done].
  unfold bind at 1, lift at 1.
  destruct ((a0 :: a1 :: more) !! i) as [a|]; reflexivity.
Qed.

(** C8, amended. With more than one account stored, [_get_account] lists
    the accounts (a heading, then one line for each with its index and user
    name) and asks for an index, with 0 as the default; it touches no file
    and no directory. Nothing is raised for the ambiguity: either an
    account of the table is returned, or the prompt has failed, and that
    happens only when the input ends without an answer (no empty line was
    there to take the default, and all of the input has been read), with
    the [Abort] of the prompt. When the line typed is empty the first
    account is taken and the login is attempted with that account, whose
    outcome is the outcome of [login_user]. With nothing to read, both
    raise [Abort]. *)
Theorem several_accounts_default_to_first lib site a0 a1 more w :
  let accounts := a0 :: a1 :: more in
  let shown :=
    Echo (Plain "Multiple accounts found:")
    :: imap (fun (idx : nat) acct =>
               Echo (Plain (" [" +:+ pretty idx +:+ "] "
                            +:+ FanCultContent.username acct))) accounts
    ++ [Ask "
Enter account number"] in
  (let '(r, w1) := FanCultContent._get_account accounts w in
   console w1 = console w ++ shown
   /\ files w1 = files w /\ dirs w1 = dirs w
   /\ match r with
      | Ok (Some a) => a ∈ accounts
      | Ok None => False
      | Raise x => x = Abort /\ ("" ∉ stdin w) /\ stdin w1 = []
      end)
  /\ (forall rest,
      stdin w = "" :: rest ->
      exists w1,
        FanCultContent._get_account accounts w = (Ok (Some a0), w1)
        /\ console w1 = console w ++ shown
        /\ stdin w1 = rest /\ files w1 = files w /\ dirs w1 = dirs w
        /\ FanCultContent.login_user lib site accounts w
           = match FanCultContent._make_login_request site
                     (FanCultContent.username a0)
                     (decode lib (FanCultContent.password a0)) w1 with
             | (Ok true, w2) => (Ok (Some a0), w2)
             | (Ok false, w2) => (Ok None, w2)
             | (Raise x, w2) => (Raise x, w2)
             end)
  /\ (stdin w = [] ->
      fst (FanCultContent._get_account accounts w) = Raise Abort
      /\ fst (FanCultContent.login_user lib site accounts w)
         = Raise Abort).
Proof.
  intros accounts shown.
  pose proof (_get_account_several a0 a1 more w) as Hacc.
  cbv zeta in Hacc. fold accounts in Hacc. fold shown in Hacc.
  split; [|split].
  - rewrite Hacc.
    destruct (read_choice (length accounts) 0 (stdin w)) as [[i|x] rest]
      eqn:Hread.
    + apply read_choice_ok in Hread.
      assert (i < length accounts)%nat as Hi
        by (destruct Hread as [->|]; [simpl; lia|done]).
      apply lookup_lt_is_Some_2 in Hi as [a Ha]. rewrite Ha.
      cbn [console files dirs]. repeat split.
      by apply (list_elem_of_lookup_2 _ i).
    + apply read_choice_raise in Hread as (-> & -> & Hnot).
      cbn [console files dirs stdin]. done.
  - intros rest Hin.
    assert (FanCultContent._get_account accounts w
            = (Ok (Some a0),
               mkWorld (files w) (dirs w) (console w ++ shown) rest (year w)))
      as Hw1.
    { rewrite Hacc, Hin. simpl. reflexivity. }
    eexists. split; [exact Hw1|]. cbn [console files dirs stdin].
    repeat (split; [done|]).
    unfold FanCultContent.login_user. unfold bind at 1. rewrite Hw1.
    unfold bind.
    destruct (FanCultContent._make_login_request _ _ _ _) as [[[]|x] w2];
      reflexivity.
  - intros Hin.
    assert (fst (FanCultContent._get_account accounts w) = Raise Abort)
      as Hab.
    { rewrite Hacc, Hin. reflexivity. }
    split; [done|].
    unfold FanCultContent.login_user. unfold bind at 1.
    destruct (FanCultContent._get_account _ w) as [[a|x] w1]; simpl in *;
      congruence.
Qed.

Lemma several_accounts_default_to_first_witness :
  exists w1,
    FanCultContent._get_account [Sample.account1; Sample.account2]
      (Sample.world [""])
    = (Ok (Some Sample.account1), w1)
    /\ console w1
       = console (Sample.world [""])
         ++ [Echo (Plain "Multiple accounts found:");
             Echo (Plain " [0] a@example.com");
             Echo (Plain " [1] b@example.com");
             Ask "
Enter account number"]
    /\ stdin w1 = [] /\ files w1 = files (Sample.world [""])
    /\ dirs w1 = dirs (Sample.world [""])
    /\ FanCultContent.login_user Sample.lib Sample.site
         [Sample.account1; Sample.account2] (Sample.world [""])
       = match FanCultContent._make_login_request Sample.site
                 (FanCultContent.username Sample.account1)
                 (decode Sample.lib (FanCultContent.password Sample.account1))
                 w1 with
         | (Ok true, w2) => (Ok (Some Sample.account1), w2)
         | (Ok false, w2) => (Ok None, w2)
         | (Raise x, w2) => (Raise x, w2)
         end.
Proof.
  apply (proj1 (proj2 (several_accounts_default_to_first Sample.lib
                         Sample.site Sample.account1 Sample.account2 []
                         (Sample.world [""])))
           []).
  reflexivity.
Defined.

(** ** Downloads *)

Lemma _get_download_path_occupied base_path file_name yes w :
  is_Some (files w !! Py.path_join base_path file_name) ->
  FanCultContent._get_download_path base_path file_name yes w
  = (Ok None,
     mkWorld (files w) (dirs w)
       (console w
        ++ [Warning ("File " +:+ dquote +:+ Py.path_join base_path file_name
                     +:+ dquote +:+ " already exists")])
       (stdin w) (year w)).
Proof.
  intros Hf. unfold FanCultContent._get_download_path, bind, isfile, gets.
  by rewrite bool_decide_eq_true_2.
Qed.

Lemma _download_episode_occupied site episode episode_path yes w :
  is_Some (files w !! Py.path_join episode_path
                        (Py.basename (MinisodeContent.audio episode))) ->
  MinisodeContent._download_episode site episode episode_path yes w
  = (Ok tt,
     mkWorld (files w) (dirs w)
       (console w
        ++ [Warning ("File " +:+ dquote
                     +:+ Py.path_join episode_path
                           (Py.basename (MinisodeContent.audio episode))
                     +:+ dquote +:+ " already exists")])
       (stdin w) (year w)).
Proof.
  intros Hf. unfold MinisodeContent._download_episode, bind.
  by rewrite (_get_download_path_occupied _ _ yes w Hf).
Qed.

Lemma _download_video_occupied site video_ video_path yes w md src stream :
  VideoContent._get_video_metadata site (VideoContent.video video_) = Ok md ->
  iframe_src md = Some src ->
  vimeo_best_stream site (List.hd "" (Py.split (Py.strip src) "?"))
    (VideoContent.url video_) = Ok stream ->
  is_Some (files w !! Py.path_join video_path
                        (if negb (Py.endswith (stream_title stream) ".mp4")
                         then stream_title stream +:+ ".mp4"
                         else stream_title stream)) ->
  VideoContent._download_video site video_ video_path yes w
  = (Ok tt,
     mkWorld (files w) (dirs w)
       (console w
        ++ [Warning ("File " +:+ dquote
                     +:+ Py.path_join video_path
                           (if negb (Py.endswith (stream_title stream) ".mp4")
                            then stream_title stream +:+ ".mp4"
                            else stream_title stream)
                     +:+ dquote +:+ " already exists")])
       (stdin w) (year w)).
Proof.
  intros Hmd Hsrc Hst Hf. unfold VideoContent._download_video.
  unfold bind at 1. unfold lift at 1. rewrite Hmd.
  unfold bind at 1. unfold lift at 1, access at 1. rewrite Hsrc.
  unfold bind at 1. unfold lift at 1. rewrite Hst.
  unfold bind.
  by rewrite (_get_download_path_occupied _ _ yes w Hf).
Qed.

(** C4. For either kind, when a file of the resolved name is already at
    the destination, the download returns after one warning that names the
    file: files, directories and the lines waiting at the terminal are as
    they were, whether or not the download was confirmed in advance. This
    holds of the download functions and of the commands that call them for a
    stored item once the download directory is resolved. *)
Theorem download_never_overwrites site :
  (forall episode episode_path yes w,
      let file_path :=
        Py.path_join episode_path
          (Py.basename (MinisodeContent.audio episode)) in
      is_Some (files w !! file_path) ->
      MinisodeContent._download_episode site episode episode_path yes w
      = (Ok tt,
         mkWorld (files w) (dirs w)
           (console w ++ [Warning ("File " +:+ dquote +:+ file_path
                                   +:+ dquote +:+ " already exists")])
           (stdin w) (year w)))
  /\ (forall video_ video_path yes w md src stream,
      VideoContent._get_video_metadata site (VideoContent.video video_)
      = Ok md ->
      iframe_src md = Some src ->
      vimeo_best_stream site (List.hd "" (Py.split (Py.strip src) "?"))
        (VideoContent.url video_) = Ok stream ->
      let file_name :=
        if negb (Py.endswith (stream_title stream) ".mp4")
        then stream_title stream +:+ ".mp4" else stream_title stream in
      let file_path := Py.path_join video_path file_name in
      is_Some (files w !! file_path) ->
      VideoContent._download_video site video_ video_path yes w
      = (Ok tt,
         mkWorld (files w) (dirs w)
           (console w ++ [Warning ("File " +:+ dquote +:+ file_path
                                   +:+ dquote +:+ " already exists")])
           (stdin w) (year w)))
  /\ (forall rows af minisode_id yes dest account w episode episode_path,
      get_by_id minisode_id rows = Some episode ->
      FanCultContent._get_download_dir MinisodeContent.model_name dest
        account true w = (Ok episode_path, w) ->
      let file_path :=
        Py.path_join episode_path
          (Py.basename (MinisodeContent.audio episode)) in
      is_Some (files w !! file_path) ->
      MinisodeContent.download site minisode_id yes dest account
        (fresh_session rows af, w)
      = (Ok tt,
         (fresh_session rows af,
          mkWorld (files w) (dirs w)
            (console w ++ [Warning ("File " +:+ dquote +:+ file_path
                                    +:+ dquote +:+ " already exists")])
            (stdin w) (year w))))
  /\ (forall rows af video_id yes dest account w video_ video_path md src
             stream,
      get_by_id video_id rows = Some video_ ->
      FanCultContent._get_download_dir VideoContent.model_name dest
        account true w = (Ok video_path, w) ->
      VideoContent._get_video_metadata site (VideoContent.video video_)
      = Ok md ->
      iframe_src md = Some src ->
      vimeo_best_stream site (List.hd "" (Py.split (Py.strip src) "?"))
        (VideoContent.url video_) = Ok stream ->
      let file_name :=
        if negb (Py.endswith (stream_title stream) ".mp4")
        then stream_title stream +:+ ".mp4" else stream_title stream in
      let file_path := Py.path_join video_path file_name in
      is_Some (files w !! file_path) ->
      VideoContent.download site video_id yes dest account
        (fresh_session rows af, w)
      = (Ok tt,
         (fresh_session rows af,
          mkWorld (files w) (dirs w)
            (console w ++ [Warning ("File " +:+ dquote +:+ file_path
                                    +:+ dquote +:+ " already exists")])
            (stdin w) (year w)))).
Proof.
  split; [|split; [|split]].
  - intros episode episode_path yes w file_path Hf.
    by apply _download_episode_occupied.
  - intros video_ video_path yes w md src stream Hmd Hsrc Hst
      file_name file_path Hf.
    by apply (_download_video_occupied site video_ video_path yes w md src).
  - intros rows af minisode_id yes dest account w episode episode_path
      Hid Hdir file_path Hf.
    unfold MinisodeContent.download. unfold bind at 1.
    rewrite in_world_run, Hdir. simpl. unfold bind at 1.
    rewrite (in_db_query_fresh (R:=MinisodeContent.Episode)).
    unfold bind at 1. rewrite in_world_run.
    unfold MinisodeContent.get_episode. rewrite Hid. simpl.
    by rewrite (_download_episode_occupied site episode episode_path yes w Hf).
  - intros rows af video_id yes dest account w video_ video_path md src
      stream Hid Hdir Hmd Hsrc Hst file_name file_path Hf.
    unfold VideoContent.download. unfold bind at 1.
    rewrite in_world_run, Hdir. simpl. unfold bind at 1.
    rewrite (in_db_query_fresh (R:=VideoContent.Video)).
    unfold bind at 1. rewrite in_world_run.
    unfold VideoContent.get_video. rewrite Hid. simpl.
    by rewrite (_download_video_occupied site video_ video_path yes w md src
                  stream Hmd Hsrc Hst Hf).
Qed.

Lemma download_never_overwrites_witness :
  MinisodeContent._download_episode Sample.site (Sample.episode 1 10 "One")
    "/data/Minisodes" true Sample.world_with_file
  = (Ok tt,
     mkWorld (files Sample.world_with_file) (dirs Sample.world_with_file)
       (console Sample.world_with_file
        ++ [Warning ("File " +:+ dquote +:+ "/data/Minisodes/One.m4a"
                     +:+ dquote +:+ " already exists")])
       (stdin Sample.world_with_file) (year Sample.world_with_file)).
Proof.
  apply (proj1 (download_never_overwrites Sample.site)
           (Sample.episode 1 10 "One") "/data/Minisodes" true
           Sample.world_with_file).
  exists (Plain "old"). vm_compute. reflexivity.
Defined.

(** C5, as stated, fails: a first download, asked for an id that is not
    stored, reports the error after it has created the directory of the
    kind under the download directory. *)
Lemma download_unknown_id_creates_directory :
  get_by_id 7 ([] : list MinisodeContent.Episode) = None
  /\ MinisodeContent.download Sample.site 7 false None Sample.account1
       (fresh_session [] true, Sample.world [])
     = (Ok tt,
        (fresh_session [] true,
         mkWorld ∅ (list_to_set ["/data"; "/data/Minisodes"])
                 [Error "No minisode found for ID: 7"] [] 2021))
  /\ ("/data/Minisodes" ∉ dirs (Sample.world []))
  /\ ("/data/Minisodes"
      ∈ dirs (snd (snd (MinisodeContent.download Sample.site 7 false None
                          Sample.account1
                          (fresh_session [] true, Sample.world []))))).
Proof.
  split; [reflexivity|]. split; [vm_compute; reflexivity|].
  split; apply (bool_decide_unpack _); vm_compute; exact I.
Qed.

(** C5, amended. For either kind, a download asked for an id that is not
    stored first resolves the download directory; when that raises, nothing
    has changed; otherwise the not-found error is reported, no file is
    created or changed, nothing is read from the terminal and the table is
    untouched; the one change there can be on disk is the directory of the
    kind, created with the directories leading to it when it was not there
    yet. *)
Theorem download_unknown_id site id yes dest account af w :
  (forall rows : list MinisodeContent.Episode,
      get_by_id id rows = None ->
      match FanCultContent._get_download_dir MinisodeContent.model_name dest
              account true w with
      | (Raise x, _) =>
          MinisodeContent.download site id yes dest account
            (fresh_session rows af, w)
          = (Raise x, (fresh_session rows af, w))
      | (Ok d, w1) =>
          MinisodeContent.download site id yes dest account
            (fresh_session rows af, w)
          = (Ok tt,
             (fresh_session rows af,
              mkWorld (files w) (dirs w1)
                (console w
                 ++ [Error ("No minisode found for ID: " +:+ Py.str id)])
                (stdin w) (year w)))
          /\ (dirs w1 = dirs w
              \/ ((d ∉ dirs w)
                  /\ dirs w1 = dirs w ∪ list_to_set (Py.ancestors d)))
      end)
  /\ (forall rows : list VideoContent.Video,
      get_by_id id rows = None ->
      match FanCultContent._get_download_dir VideoContent.model_name dest
              account true w with
      | (Raise x, _) =>
          VideoContent.download site id yes dest account
            (fresh_session rows af, w)
          = (Raise x, (fresh_session rows af, w))
      | (Ok d, w1) =>
          VideoContent.download site id yes dest account
            (fresh_session rows af, w)
          = (Ok tt,
             (fresh_session rows af,
              mkWorld (files w) (dirs w1)
                (console w
                 ++ [Error ("No video found for ID: " +:+ Py.str id)])
                (stdin w) (year w)))
          /\ (dirs w1 = dirs w
              \/ ((d ∉ dirs w)
                  /\ dirs w1 = dirs w ∪ list_to_set (Py.ancestors d)))
      end).
Proof.
  split.
  - intros rows Hid.
    pose proof (_get_download_dir_run MinisodeContent.model_name dest account
                  true w) as Hdir.
    destruct (FanCultContent._get_download_dir _ _ _ _ w) as [[d|x] w1]
      eqn:Hrun.
    + assert (files w1 = files w /\ console w1 = console w
              /\ stdin w1 = stdin w /\ year w1 = year w) as (Hf & Hc & Hi & Hy)
        by (destruct Hdir as [[_ ->]|[_ ->]]; done).
      split.
      * unfold MinisodeContent.download. unfold bind at 1.
        rewrite in_world_run, Hrun. simpl. unfold bind at 1.
        rewrite (in_db_query_fresh (R:=MinisodeContent.Episode)).
        unfold bind at 1. rewrite in_world_run.
        unfold MinisodeContent.get_episode. rewrite Hid. simpl.
        by rewrite Hf, Hc, Hi, Hy.
      * destruct Hdir as [[Hd ->]|[Hd ->]]; [by left|]. right.
        split; [|done]. by apply (bool_decide_eq_false_1 _).
    + unfold MinisodeContent.download. unfold bind at 1.
      rewrite in_world_run, Hrun. simpl. by subst w1.
  - intros rows Hid.
    pose proof (_get_download_dir_run VideoContent.model_name dest account
                  true w) as Hdir.
    destruct (FanCultContent._get_download_dir _ _ _ _ w) as [[d|x] w1]
      eqn:Hrun.
    + assert (files w1 = files w /\ console w1 = console w
              /\ stdin w1 = stdin w /\ year w1 = year w) as (Hf & Hc & Hi & Hy)
        by (destruct Hdir as [[_ ->]|[_ ->]]; done).
      split.
      * unfold VideoContent.download. unfold bind at 1.
        rewrite in_world_run, Hrun. simpl. unfold bind at 1.
        rewrite (in_db_query_fresh (R:=VideoContent.Video)).
        unfold bind at 1. rewrite in_world_run.
        unfold VideoContent.get_video. rewrite Hid. simpl.
        by rewrite Hf, Hc, Hi, Hy.
      * destruct Hdir as [[Hd ->]|[Hd ->]]; [by left|]. right.
        split; [|done]. by apply (bool_decide_eq_false_1 _).
    + unfold VideoContent.download. unfold bind at 1.
      rewrite in_world_run, Hrun. simpl. by subst w1.
Qed.

Lemma download_unknown_id_witness :
  match FanCultContent._get_download_dir MinisodeContent.model_name None
          Sample.account1 true Sample.world_with_file with
  | (Raise x, _) =>
      MinisodeContent.download Sample.site 7 true None Sample.account1
        (fresh_session [Sample.episode 1 10 "One"] true,
         Sample.world_with_file)
      = (Raise x,
         (fresh_session [Sample.episode 1 10 "One"] true,
          Sample.world_with_file))
  | (Ok d, w1) =>
      MinisodeContent.download Sample.site 7 true None Sample.account1
        (fresh_session [Sample.episode 1 10 "One"] true,
         Sample.world_with_file)
      = (Ok tt,
         (fresh_session [Sample.episode 1 10 "One"] true,
          mkWorld (files Sample.world_with_file) (dirs w1)
            (console Sample.world_with_file
             ++ [Error ("No minisode found for ID: " +:+ Py.str 7)])
            (stdin Sample.world_with_file) (year Sample.world_with_file)))
      /\ (dirs w1 = dirs Sample.world_with_file
          \/ ((d ∉ dirs Sample.world_with_file)
              /\ dirs w1 = dirs Sample.world_with_file
                           ∪ list_to_set (Py.ancestors d)))
  end.
Proof.
  apply (proj1 (download_unknown_id Sample.site 7 true None Sample.account1
                  true Sample.world_with_file)
           [Sample.episode 1 10 "One"]).
  reflexivity.
Defined.

(** * More properties of the code *)

(** ** Downloads: confirmation, transfer, repetition *)

Lemma _get_download_path_free base_path file_name w :
  files w !! Py.path_join base_path file_name = None ->
  FanCultContent._get_download_path base_path file_name true w
  = (Ok (Some (Py.path_join base_path file_name)),
     mkWorld (files w) (dirs w)
       (console w ++ [Echo (Plain ("Downloading file to "
                                   +:+ Py.path_join base_path file_name))])
       (stdin w) (year w)).
Proof.
  intros Hf. unfold FanCultContent._get_download_path, bind, isfile, gets.
  rewrite bool_decide_eq_false_2; [done|].
  rewrite Hf. by intros [? ?].
Qed.

Lemma _get_download_path_asked base_path file_name w :
  files w !! Py.path_join base_path file_name = None ->
  FanCultContent._get_download_path base_path file_name false w
  = (match fst (read_confirm (stdin w)) with
     | Ok true => Ok (Some (Py.path_join base_path file_name))
     | Ok false => Ok None
     | Raise x => Raise x
     end,
     mkWorld (files w) (dirs w)
       (console w ++ [Ask ("Download file to "
                           +:+ Py.path_join base_path file_name +:+ "?")])
       (snd (read_confirm (stdin w))) (year w)).
Proof.
  intros Hf. unfold FanCultContent._get_download_path.
  unfold bind at 1. unfold isfile, gets.
  rewrite bool_decide_eq_false_2; [|rewrite Hf; by intros [? ?]].
  unfold bind, confirm, out, modify, ret.
  cbn -[String.append Py.path_join read_confirm].
  destruct (read_confirm (stdin w)) as [[[]|x] rest]; reflexivity.
Qed.

(** X1. A download that is not confirmed in advance asks first, and when
    the answer is no (or only Enter) it stops there: the media is not
    fetched, no file or directory changes, and only the lines read by the
    prompt are gone from the terminal. For videos this is after the lookups
    that resolve the file name. *)
Theorem declined_download_writes_nothing site :
  (forall episode episode_path w,
      let file_path :=
        Py.path_join episode_path
          (Py.basename (MinisodeContent.audio episode)) in
      files w !! file_path = None ->
      fst (read_confirm (stdin w)) = Ok false ->
      MinisodeContent._download_episode site episode episode_path false w
      = (Ok tt,
         mkWorld (files w) (dirs w)
           (console w ++ [Ask ("Download file to " +:+ file_path +:+ "?")])
           (snd (read_confirm (stdin w))) (year w)))
  /\ (forall video_ video_path w md src stream,
      VideoContent._get_video_metadata site (VideoContent.video video_)
      = Ok md ->
      iframe_src md = Some src ->
      vimeo_best_stream site (List.hd "" (Py.split (Py.strip src) "?"))
        (VideoContent.url video_) = Ok stream ->
      let file_name :=
        if negb (Py.endswith (stream_title stream) ".mp4")
        then stream_title stream +:+ ".mp4" else stream_title stream in
      let file_path := Py.path_join video_path file_name in
      files w !! file_path = None ->
      fst (read_confirm (stdin w)) = Ok false ->
      VideoContent._download_video site video_ video_path false w
      = (Ok tt,
         mkWorld (files w) (dirs w)
           (console w ++ [Ask ("Download file to " +:+ file_path +:+ "?")])
           (snd (read_confirm (stdin w))) (year w))).
Proof.
  split.
  - intros episode episode_path w file_path Hf Hno. subst file_path.
    unfold MinisodeContent._download_episode, bind.
    by rewrite (_get_download_path_asked _ _ w Hf), Hno.
  - intros video_ video_path w md src stream Hmd Hsrc Hst
      file_name file_path Hf Hno. subst file_path file_name.
    unfold VideoContent._download_video.
    unfold bind at 1. unfold lift at 1. rewrite Hmd.
    unfold bind at 1. unfold lift at 1, access at 1. rewrite Hsrc.
    unfold bind at 1. unfold lift at 1. rewrite Hst.
    unfold bind.
    by rewrite (_get_download_path_asked _ _ w Hf), Hno.
Qed.

Lemma declined_download_writes_nothing_witness :
  MinisodeContent._download_episode Sample.site (Sample.episode 1 10 "One")
    "/data" false (Sample.world ["maybe"; "N"; "y"])
  = (Ok tt,
     mkWorld (files (Sample.world ["maybe"; "N"; "y"]))
       (dirs (Sample.world ["maybe"; "N"; "y"]))
       (console (Sample.world ["maybe"; "N"; "y"])
        ++ [Ask ("Download file to " +:+ "/data/One.m4a" +:+ "?")])
       (snd (read_confirm (stdin (Sample.world ["maybe"; "N"; "y"]))))
       (year (Sample.world ["maybe"; "N"; "y"]))).
Proof.
  apply (proj1 (declined_download_writes_nothing Sample.site)
           (Sample.episode 1 10 "One") "/data"
           (Sample.world ["maybe"; "N"; "y"])).
  - vm_compute. reflexivity.
  - vm_compute. reflexivity.
Defined.

(** A confirmed download of an episode to a free path in a directory that
    is there. *)
Lemma _download_episode_fresh site episode episode_path w chunks :
  files w !! Py.path_join episode_path
               (Py.basename (MinisodeContent.audio episode)) = None ->
  Py.path_join episode_path (Py.basename (MinisodeContent.audio episode))
  ∉ dirs w ->
  dirname (Py.path_join episode_path
             (Py.basename (MinisodeContent.audio episode))) ∈ dirs w ->
  Py.path_join episode_path (Py.basename (MinisodeContent.audio episode))
  <> "" ->
  Py.names_directory
    (Py.path_join episode_path (Py.basename (MinisodeContent.audio episode)))
  = false ->
  get_stream site (MinisodeContent.audio episode) = Ok chunks ->
  MinisodeContent._download_episode site episode episode_path true w
  = (Ok tt,
     mkWorld
       (<[Py.path_join episode_path
            (Py.basename (MinisodeContent.audio episode))
          := Plain (foldr (fun chunk data => chunk +:+ data) "" chunks)]>
          (files w))
       (dirs w)
       (console w
        ++ [Echo (Plain ("Downloading file to "
                         +:+ Py.path_join episode_path
                               (Py.basename (MinisodeContent.audio episode))))])
       (stdin w) (year w)).
Proof.
  intros Hf Hnd Hdir Hne Hnm Hst.
  unfold MinisodeContent._download_episode. unfold bind at 1.
  rewrite (_get_download_path_free _ _ w Hf).
  set (fp := Py.path_join episode_path
               (Py.basename (MinisodeContent.audio episode))) in *.
  assert (Py.truthy fp = true) as -> by (by destruct fp).
  cbn [negb]. unfold bind at 1. unfold lift at 1. rewrite Hst.
  unfold bind at 1. unfold write_file. cbn [files dirs console stdin year].
  rewrite (bool_decide_eq_false_2 _ Hnd), (bool_decide_eq_true_2 _ Hdir), Hnm.
  cbn [negb orb]. unfold bind, isfile, gets. cbn [files].
  rewrite bool_decide_eq_true_2; [done|]. rewrite lookup_insert_eq. eauto.
Qed.

(** The transfer once the path is settled. *)
Lemma _download_episode_transfer site episode episode_path yes w w1 chunks :
  FanCultContent._get_download_path episode_path
    (Py.basename (MinisodeContent.audio episode)) yes w
  = (Ok (Some (Py.path_join episode_path
                 (Py.basename (MinisodeContent.audio episode)))), w1) ->
  Py.path_join episode_path (Py.basename (MinisodeContent.audio episode))
  ∉ dirs w1 ->
  dirname (Py.path_join episode_path
             (Py.basename (MinisodeContent.audio episode))) ∈ dirs w1 ->
  Py.path_join episode_path (Py.basename (MinisodeContent.audio episode))
  <> "" ->
  Py.names_directory
    (Py.path_join episode_path (Py.basename (MinisodeContent.audio episode)))
  = false ->
  get_stream site (MinisodeContent.audio episode) = Ok chunks ->
  MinisodeContent._download_episode site episode episode_path yes w
  = (Ok tt,
     mkWorld
       (<[Py.path_join episode_path
            (Py.basename (MinisodeContent.audio episode))
          := Plain (foldr (fun chunk data => chunk +:+ data) "" chunks)]>
          (files w1))
       (dirs w1) (console w1) (stdin w1) (year w1)).
Proof.
  intros Hpath Hnd Hdir Hne Hnm Hst.
  unfold MinisodeContent._download_episode. unfold bind at 1.
  rewrite Hpath.
  set (fp := Py.path_join episode_path
               (Py.basename (MinisodeContent.audio episode))) in *.
  assert (Py.truthy fp = true) as -> by (by destruct fp).
  cbn [negb]. unfold bind at 1. unfold lift at 1. rewrite Hst.
  unfold bind at 1. unfold write_file.
  rewrite (bool_decide_eq_false_2 _ Hnd), (bool_decide_eq_true_2 _ Hdir), Hnm.
  cbn [negb orb]. unfold bind, isfile, gets. cbn [files].
  rewrite bool_decide_eq_true_2; [done|]. rewrite lookup_insert_eq. eauto.
Qed.

(** X2. A download of an episode to a free path, in a directory that is
    there, stores the chunks of the stream, joined in the order received,
    under the base name of the audio URL, and reports no problem; nothing
    else on disk changes. The path has to name a file: an audio URL that
    ends in a slash, in [.] or in [..] gives a path that [open] refuses.
    This is so when the download was confirmed in advance, and when it was
    not and the answer at the prompt is yes. *)
Theorem confirmed_download_stores_the_stream site episode episode_path w
    chunks :
  let file_path :=
    Py.path_join episode_path
      (Py.basename (MinisodeContent.audio episode)) in
  let data := Plain (foldr (fun chunk data => chunk +:+ data) "" chunks) in
  files w !! file_path = None ->
  file_path ∉ dirs w ->
  dirname file_path ∈ dirs w ->
  file_path <> "" ->
  Py.names_directory file_path = false ->
  get_stream site (MinisodeContent.audio episode) = Ok chunks ->
  MinisodeContent._download_episode site episode episode_path true w
  = (Ok tt,
     mkWorld (<[file_path := data]> (files w)) (dirs w)
       (console w ++ [Echo (Plain ("Downloading file to " +:+ file_path))])
       (stdin w) (year w))
  /\ (fst (read_confirm (stdin w)) = Ok true ->
      MinisodeContent._download_episode site episode episode_path false w
      = (Ok tt,
         mkWorld (<[file_path := data]> (files w)) (dirs w)
           (console w ++ [Ask ("Download file to " +:+ file_path +:+ "?")])
           (snd (read_confirm (stdin w))) (year w))).
Proof.
  intros file_path data Hf Hnd Hdir Hne Hnm Hst. subst file_path data.
  split.
  - by apply _download_episode_fresh.
  - intros Hyes.
    apply (_download_episode_transfer site episode episode_path false w
             (mkWorld (files w) (dirs w)
                (console w
                 ++ [Ask ("Download file to "
                          +:+ Py.path_join episode_path
                                (Py.basename (MinisodeContent.audio episode))
                          +:+ "?")])
                (snd (read_confirm (stdin w))) (year w)) chunks);
      [|done..].
    by rewrite (_get_download_path_asked _ _ w Hf), Hyes.
Qed.

Lemma confirmed_download_stores_the_stream_witness :
  MinisodeContent._download_episode Sample.site (Sample.episode 1 10 "One")
    "/data" true (Sample.world [])
  = (Ok tt,
     mkWorld (<["/data/One.m4a" := Plain "abcdef"]> (files (Sample.world [])))
       (dirs (Sample.world []))
       (console (Sample.world [])
        ++ [Echo (Plain ("Downloading file to " +:+ "/data/One.m4a"))])
       (stdin (Sample.world [])) (year (Sample.world []))).
Proof.
  apply (proj1 (confirmed_download_stores_the_stream Sample.site
                  (Sample.episode 1 10 "One") "/data" (Sample.world [])
                  ["abc"; "def"]
                  eq_refl
                  ltac:(apply (bool_decide_unpack _); vm_compute; exact I)
                  ltac:(apply (bool_decide_unpack _); vm_compute; exact I)
                  ltac:(vm_compute; discriminate)
                  eq_refl eq_refl)).
Defined.

(** X3. Downloading the same episode a second time changes nothing: after
    a download that stored the file (so the path names a file: it does not
    end in a slash, in [.] or in [..]), a further download of that episode
    to the same directory, confirmed in advance or not, warns that the file
    exists and leaves the stored bytes, the directories and the terminal
    input as the first download left them. *)
Theorem second_download_keeps_the_first site episode episode_path w chunks
    yes :
  let file_path :=
    Py.path_join episode_path
      (Py.basename (MinisodeContent.audio episode)) in
  files w !! file_path = None ->
  file_path ∉ dirs w ->
  dirname file_path ∈ dirs w ->
  file_path <> "" ->
  Py.names_directory file_path = false ->
  get_stream site (MinisodeContent.audio episode) = Ok chunks ->
  let w1 :=
    snd (MinisodeContent._download_episode site episode episode_path true w)
  in
  files w1 !! file_path
  = Some (Plain (foldr (fun chunk data => chunk +:+ data) "" chunks))
  /\ MinisodeContent._download_episode site episode episode_path yes w1
     = (Ok tt,
        mkWorld (files w1) (dirs w1)
          (console w1 ++ [Warning ("File " +:+ dquote +:+ file_path
                                   +:+ dquote +:+ " already exists")])
          (stdin w1) (year w1)).
Proof.
  intros file_path Hf Hnd Hdir Hne Hnm Hst w1. subst file_path.
  assert (files w1 !! Py.path_join episode_path
                        (Py.basename (MinisodeContent.audio episode))
          = Some (Plain (foldr (fun chunk data => chunk +:+ data) ""
                           chunks))) as Hw1.
  { subst w1. rewrite (_download_episode_fresh site episode episode_path w
                         chunks) by done.
    simpl. apply lookup_insert_eq. }
  split; [done|].
  apply _download_episode_occupied. rewrite Hw1. eauto.
Qed.

Lemma second_download_keeps_the_first_witness :
  files (snd (MinisodeContent._download_episode Sample.site
                (Sample.episode 1 10 "One") "/data" true (Sample.world [])))
    !! "/data/One.m4a"
  = Some (Plain (foldr (fun chunk data => chunk +:+ data) "" ["abc"; "def"]))
  /\ MinisodeContent._download_episode Sample.site
       (Sample.episode 1 10 "One") "/data" false
       (snd (MinisodeContent._download_episode Sample.site
               (Sample.episode 1 10 "One") "/data" true (Sample.world [])))
     = (Ok tt,
        mkWorld
          (files (snd (MinisodeContent._download_episode Sample.site
                         (Sample.episode 1 10 "One") "/data" true
                         (Sample.world []))))
          (dirs (snd (MinisodeContent._download_episode Sample.site
                        (Sample.episode 1 10 "One") "/data" true
                        (Sample.world []))))
          (console (snd (MinisodeContent._download_episode Sample.site
                           (Sample.episode 1 10 "One") "/data" true
                           (Sample.world [])))
           ++ [Warning ("File " +:+ dquote +:+ "/data/One.m4a"
                        +:+ dquote +:+ " already exists")])
          (stdin (snd (MinisodeContent._download_episode Sample.site
                         (Sample.episode 1 10 "One") "/data" true
                         (Sample.world []))))
          (year (snd (MinisodeContent._download_episode Sample.site
                        (Sample.episode 1 10 "One") "/data" true
                        (Sample.world []))))).
Proof.
  apply (second_download_keeps_the_first Sample.site
           (Sample.episode 1 10 "One") "/data" (Sample.world [])
           ["abc"; "def"] false
           eq_refl
           ltac:(apply (bool_decide_unpack _); vm_compute; exact I)
           ltac:(apply (bool_decide_unpack _); vm_compute; exact I)
           ltac:(vm_compute; discriminate)
           eq_refl eq_refl).
Defined.

(** ** The download directory *)

Lemma string_app_nil_r (s : string) : s +:+ "" = s.
Proof.
  induction s as [|c s IH]; [done|].
  change (String c (s +:+ "") = String c s). by rewrite IH.
Qed.

Lemma string_app_snoc (s t : string) c :
  (s +:+ String c "") +:+ t = s +:+ String c t.
Proof.
  induction s as [|d s IH]; [done|].
  change (String d ((s +:+ String c "") +:+ t)
          = String d (s +:+ String c t)).
  by rewrite IH.
Qed.

Lemma string_app_snoc_ne (s : string) c : s +:+ String c "" <> "".
Proof. by destruct s. Qed.

(** [os.makedirs p] reaches [p] itself. *)
Lemma ancestors_go_last cur s :
  cur +:+ s <> "" -> cur +:+ s ∈ Py.ancestors_go cur s.
Proof.
  revert cur. induction s as [|c s IH]; intros cur Hne.
  - rewrite string_app_nil_r in *. simpl.
    destruct cur; [done|]. apply list_elem_of_here.
  - assert (cur +:+ String c s
            ∈ Py.ancestors_go (cur +:+ String c "") s) as Hin.
    { rewrite <- string_app_snoc. apply IH. rewrite string_app_snoc.
      by destruct cur. }
    simpl. destruct (Ascii.eqb_spec c "/") as [->|Hc]; simpl.
    + destruct (Py.truthy cur); simpl; [by apply list_elem_of_further|done].
    + done.
Qed.

Lemma ancestors_self p : p <> "" -> p ∈ Py.ancestors p.
Proof. intros Hp. by apply (ancestors_go_last "" p). Qed.

Lemma _get_download_dir_eq model_name dest account with_model w :
  FanCultContent._get_download_dir model_name dest account with_model w
  = match match dest with
          | Some d => if Py.truthy d then Some d
                      else FanCultContent.download_dir account
          | None => FanCultContent.download_dir account
          end with
    | None => (Raise TypeError, w)
    | Some d0 =>
        let path :=
          if with_model then Py.path_join d0 (Py.capitalize model_name)
          else d0 in
        if bool_decide (path ∈ dirs w) then (Ok path, w)
        else if existsb (fun d => bool_decide (is_Some (files w !! d)))
                        (Py.ancestors path)
        then (Raise OSError, w)
        else (Ok path,
              mkWorld (files w) (dirs w ∪ list_to_set (Py.ancestors path))
                      (console w) (stdin w) (year w))
    end.
Proof.
  unfold FanCultContent._get_download_dir.
  match goal with
  | |- context [access TypeError ?o] => destruct o as [d0|]
  end; [|done].
  unfold bind at 1. unfold lift at 1. unfold access at 1.
  cbv beta iota zeta.
  set (path := if with_model then _ else _).
  unfold bind, lift, access, isdir, gets, makedirs, ret.
  destruct (bool_decide (path ∈ dirs w)) eqn:Hd; simpl; [done|].
  rewrite ?Hd. simpl.
  by destruct (existsb _ (Py.ancestors path)).
Qed.

(** X4. Resolving the download directory is idempotent: when
    [_get_download_dir] has returned a directory, that directory is there,
    no file was touched, and resolving it again returns the same directory
    and changes nothing. *)
Theorem download_dir_is_resolved_once model_name dest account with_model w d
    w1 :
  FanCultContent._get_download_dir model_name dest account with_model w
  = (Ok d, w1) ->
  d <> "" ->
  d ∈ dirs w1
  /\ files w1 = files w
  /\ FanCultContent._get_download_dir model_name dest account with_model w1
     = (Ok d, w1).
Proof.
  rewrite !_get_download_dir_eq.
  destruct (match dest with Some _ => _ | None => _ end) as [d0|]; [|done].
  cbv zeta. set (path := if with_model then _ else _).
  intros Hrun Hd.
  assert (path = d /\ path ∈ dirs w1 /\ files w1 = files w)
    as (-> & Hin & Hfiles).
  { destruct (bool_decide (path ∈ dirs w)) eqn:Hthere.
    - injection Hrun as -> ->. split; [done|]. split; [|done].
      by apply bool_decide_eq_true_1 in Hthere.
    - destruct (existsb _ _); [done|]. injection Hrun as -> <-.
      split; [done|]. split; [|done]. simpl.
      apply elem_of_union_r, elem_of_list_to_set. by apply ancestors_self. }
  split; [done|]. split; [done|].
  by rewrite (bool_decide_eq_true_2 _ Hin).
Qed.

Lemma download_dir_is_resolved_once_witness :
  "/data/Minisodes"
  ∈ dirs (snd (FanCultContent._get_download_dir MinisodeContent.model_name
                 None Sample.account1 true (Sample.world [])))
  /\ files (snd (FanCultContent._get_download_dir MinisodeContent.model_name
                   None Sample.account1 true (Sample.world [])))
     = files (Sample.world [])
  /\ FanCultContent._get_download_dir MinisodeContent.model_name None
       Sample.account1 true
       (snd (FanCultContent._get_download_dir MinisodeContent.model_name
               None Sample.account1 true (Sample.world [])))
     = (Ok "/data/Minisodes",
        snd (FanCultContent._get_download_dir MinisodeContent.model_name
               None Sample.account1 true (Sample.world []))).
Proof.
  apply (download_dir_is_resolved_once MinisodeContent.model_name None
           Sample.account1 true (Sample.world []) "/data/Minisodes").
  - vm_compute. reflexivity.
  - discriminate.
Defined.

(** ** Logging in *)

Lemma _make_login_request_eq site name pw w :
  FanCultContent._make_login_request site name pw w
  = match login_form_action site with
    | Raise x => (Raise x, w)
    | Ok None => (Raise AttributeError, w)
    | Ok (Some action) =>
        match post_login site (FanCultContent.base_url +:+ action) name pw
        with
        | Raise x => (Raise x, w)
        | Ok res =>
            match http_error res, login_status res with
            | Some ex, _ =>
                (Ok false,
                 mkWorld (files w) (dirs w)
                   (console w ++ [Error ("Unable to login: " +:+ ex)])
                   (stdin w) (year w))
            | None, None => (Raise KeyError, w)
            | None, Some true => (Ok true, w)
            | None, Some false =>
                (Ok false,
                 mkWorld (files w) (dirs w)
                   (console w
                    ++ [Error "Unable to login: invalid credentials"])
                   (stdin w) (year w))
            end
        end
    end.
Proof.
  unfold FanCultContent._make_login_request, bind, lift, access, out, modify,
    ret.
  destruct (login_form_action site) as [[action|]|x]; try reflexivity.
  destruct (post_login site _ name pw) as [res|x]; try reflexivity.
  destruct (http_error res); [reflexivity|].
  destruct (login_status res) as [[]|]; reflexivity.
Qed.

(** X5. A login request succeeds only when the site answered the posted
    credentials without an HTTP error and with a true login status, and then
    it prints nothing; a refused login returns false after exactly one error
    message; whatever the outcome, files, directories and the terminal input
    are left alone. *)
Theorem login_request_outcomes site name pw w :
  match FanCultContent._make_login_request site name pw w with
  | (Ok true, w') =>
      w' = w
      /\ exists action res,
          login_form_action site = Ok (Some action)
          /\ post_login site (FanCultContent.base_url +:+ action) name pw
             = Ok res
          /\ http_error res = None /\ login_status res = Some true
  | (Ok false, w') =>
      exists reason,
        w' = mkWorld (files w) (dirs w)
               (console w ++ [Error ("Unable to login: " +:+ reason)])
               (stdin w) (year w)
  | (Raise _, w') => w' = w
  end.
Proof.
  rewrite _make_login_request_eq.
  destruct (login_form_action site) as [[action|]|x]; try done.
  destruct (post_login site _ name pw) as [res|x] eqn:Hpost; try done.
  destruct (http_error res) as [ex|] eqn:Herr; [by exists ex|].
  destruct (login_status res) as [[]|] eqn:Hst; [| |done].
  - split; [done|]. by exists action, res.
  - by exists "invalid credentials".
Qed.

Lemma _get_account_stored accounts w a w1 :
  FanCultContent._get_account accounts w = (Ok (Some a), w1) ->
  a ∈ accounts.
Proof.
  destruct accounts as [|a0 [|a1 more]].
  - discriminate.
  - intros [= -> _]. apply list_elem_of_here.
  - unfold FanCultContent._get_account.
    unfold bind at 1. unfold out at 1, modify.
    unfold bind at 1.
    match goal with
    | |- context [for_each ?f ?l ?w0] =>
        destruct (for_each_only_prints f l) with (w := w0) as [os ->]
    end.
    { intros [idx acct]. apply out_only_prints. }
    unfold bind at 1.
    destruct (prompt_choice _ _ _ _) as [[i|x] w2]; [|done].
    unfold bind, lift, access, ret.
    destruct ((a0 :: a1 :: more) !! i) as [a'|] eqn:Hi; [|done].
    intros [= -> _]. by eapply list_elem_of_lookup_2.
Qed.

(** X6. [login_user] never returns an account of its own making: the
    account it returns is a row of the account table, and the site has
    accepted that row's user name with its decoded password. *)
Theorem login_user_returns_a_stored_accepted_account lib site accounts w a
    w' :
  FanCultContent.login_user lib site accounts w = (Ok (Some a), w') ->
  a ∈ accounts
  /\ exists action res,
      login_form_action site = Ok (Some action)
      /\ post_login site (FanCultContent.base_url +:+ action)
           (FanCultContent.username a)
           (decode lib (FanCultContent.password a)) = Ok res
      /\ http_error res = None /\ login_status res = Some true.
Proof.
  unfold FanCultContent.login_user. unfold bind at 1.
  destruct (FanCultContent._get_account accounts w) as [[[a0|]|x] w1]
    eqn:Hacc; [|done..].
  unfold bind at 1. rewrite _make_login_request_eq.
  destruct (login_form_action site) as [[action|]|x]; try done.
  destruct (post_login site _ _ _) as [res|x] eqn:Hpost; try done.
  destruct (http_error res) as [ex|] eqn:Herr; [done|].
  destruct (login_status res) as [[]|] eqn:Hst; try done.
  simpl. intros [= -> _]. split.
  - by eapply _get_account_stored.
  - by exists action, res.
Qed.

Lemma login_user_returns_a_stored_accepted_account_witness :
  Sample.account1 ∈ [Sample.account1; Sample.account2]
  /\ exists action res,
      login_form_action Sample.site = Ok (Some action)
      /\ post_login Sample.site (FanCultContent.base_url +:+ action)
           (FanCultContent.username Sample.account1)
           (decode Sample.lib (FanCultContent.password Sample.account1))
         = Ok res
      /\ http_error res = None /\ login_status res = Some true.
Proof.
  apply (login_user_returns_a_stored_accepted_account Sample.lib Sample.site
           [Sample.account1; Sample.account2] (Sample.world [""])
           Sample.account1
           (snd (FanCultContent.login_user Sample.lib Sample.site
                   [Sample.account1; Sample.account2] (Sample.world [""])))).
  vm_compute. reflexivity.
Defined.

(** ** The account commands *)

Lemma on_world_run {S A} (m : W A) (s : S) w :
  on_world m (s, w) = (fst (m w), (s, snd (m w))).
Proof. unfold on_world. by destruct (m w). Qed.

Lemma lower_lower c : Py.lower (Py.lower c) = Py.lower c.
Proof. by destruct c as [[] [] [] [] [] [] [] []]. Qed.

Lemma str_lower_idemp s : Py.str_lower (Py.str_lower s) = Py.str_lower s.
Proof.
  unfold Py.str_lower. induction s as [|c s IH]; simpl; [done|].
  by rewrite lower_lower, IH.
Qed.

Lemma find_account_none name accounts :
  AccountCommands.find_account name accounts = None ->
  Py.str_lower name ∉ map FanCultContent.username accounts.
Proof.
  unfold AccountCommands.find_account.
  induction accounts as [|a accounts IH]; simpl; [intros _; set_solver|].
  destruct (String.eqb_spec (FanCultContent.username a) (Py.str_lower name))
    as [|Hne]; [done|].
  intros Hf. apply not_elem_of_cons. split; [done|auto].
Qed.

Lemma find_account_some name accounts a :
  AccountCommands.find_account name accounts = Some a ->
  FanCultContent.username a = Py.str_lower name /\ a ∈ accounts.
Proof.
  unfold AccountCommands.find_account. intros Hf.
  apply find_some in Hf as [Hin Heq]. apply String.eqb_eq in Heq.
  split; [done|]. by apply list_elem_of_In.
Qed.

Lemma usernames_update_account name f accounts :
  (forall a, FanCultContent.username (f a) = FanCultContent.username a) ->
  map FanCultContent.username (AccountCommands.update_account name f accounts)
  = map FanCultContent.username accounts.
Proof.
  intros Hf. induction accounts as [|a accounts IH]; simpl; [done|].
  destruct (String.eqb _ name); simpl; [by rewrite Hf|by rewrite IH].
Qed.

Lemma update_account_others name f accounts a :
  a ∈ accounts -> FanCultContent.username a <> name ->
  a ∈ AccountCommands.update_account name f accounts.
Proof.
  induction accounts as [|b accounts IH]; simpl; [done|].
  intros [->|Hin]%elem_of_cons Hne.
  - destruct (String.eqb_spec (FanCultContent.username b) name); [done|].
    apply list_elem_of_here.
  - destruct (String.eqb _ name); apply list_elem_of_further; auto.
Qed.

Lemma update_account_elem f accounts a :
  NoDup (map FanCultContent.username accounts) ->
  a ∈ accounts ->
  f a ∈ AccountCommands.update_account (FanCultContent.username a) f accounts.
Proof.
  induction accounts as [|b accounts IH]; simpl; [by intros _ ?%elem_of_nil|].
  intros [Hb Hnd]%NoDup_cons [->|Hin]%elem_of_cons.
  - rewrite String.eqb_refl. apply list_elem_of_here.
  - destruct (String.eqb_spec (FanCultContent.username b)
                (FanCultContent.username a)) as [Heq|Hne].
    + destruct Hb. rewrite Heq. by apply (list_elem_of_fmap_2 _ accounts a).
    + apply list_elem_of_further. by apply IH.
Qed.

Lemma update_account_from name f accounts a' :
  a' ∈ AccountCommands.update_account name f accounts ->
  a' ∈ accounts
  \/ exists a, a ∈ accounts /\ FanCultContent.username a = name /\ a' = f a.
Proof.
  induction accounts as [|b accounts IH]; simpl; [by intros ?%elem_of_nil|].
  destruct (String.eqb_spec (FanCultContent.username b) name) as [Heq|Hne].
  - intros [->|Hin]%elem_of_cons.
    + right. exists b. split; [apply list_elem_of_here|done].
    + left. by apply list_elem_of_further.
  - intros [->|Hin]%elem_of_cons; [left; apply list_elem_of_here|].
    destruct (IH Hin) as [Hold|(a & Ha & Hn & ->)].
    + left. by apply list_elem_of_further.
    + right. exists a. split; [by apply list_elem_of_further|done].
Qed.


(** What [login] does, by the outcome of the request and of the
    confirmation. *)
Lemma login_eq mgr site name pw accounts w :
  AccountCommands.login mgr site name pw (accounts, w)
  = let '(r, w1) := FanCultContent._make_login_request site name pw w in
    match r with
    | Raise x => (Raise x, (accounts, w1))
    | Ok false => (Ok tt, (accounts, w1))
    | Ok true =>
        match AccountCommands.find_account name accounts with
        | None =>
            (Ok tt,
             (accounts ++ [FanCultContent.mkAccount (Py.str_lower name)
                             (encode mgr pw) (Some (user_path mgr))],
              snd (out (Success "Successfully logged in!") w1)))
        | Some account =>
            let '(c, w2) :=
              confirm "Confirm password change for account" w1 in
            match c with
            | Raise x => (Raise x, (accounts, w2))
            | Ok false => (Ok tt, (accounts, w2))
            | Ok true =>
                (Ok tt,
                 (AccountCommands.update_account
                    (FanCultContent.username account)
                    (fun a => FanCultContent.mkAccount
                                (FanCultContent.username a) (encode mgr pw)
                                (FanCultContent.download_dir a))
                    accounts,
                  snd (out (Success "Successfully updated password!") w2)))
            end
        end
    end.
Proof.
  unfold AccountCommands.login. unfold bind at 1. unfold gets at 1.
  cbn [fst].
  destruct (AccountCommands.find_account name accounts) as [account|].
  - unfold bind at 1. rewrite on_world_run.
    destruct (FanCultContent._make_login_request site name pw w)
      as [[[]|x] w1]; simpl; try reflexivity.
    unfold bind at 1. rewrite on_world_run.
    destruct (confirm _ w1) as [[[]|x] w2]; reflexivity.
  - unfold bind at 1. rewrite on_world_run.
    destruct (FanCultContent._make_login_request site name pw w)
      as [[[]|x] w1]; reflexivity.
Qed.

(** X7. [login] keeps the user name a key of the account table and changes
    the table only after the site has accepted the credentials. The user
    name typed is looked up and stored in lower case, as the [EmailType]
    column does. If no two stored accounts share a user name, none do
    afterwards; every account whose user name is not the name typed, in
    lower case, is still stored; unless the login request returned true the
    table is exactly as it was; and if the stored user names were all in
    lower case, they still are. *)
Theorem login_keeps_one_account_per_username mgr site name pw accounts w :
  NoDup (map FanCultContent.username accounts) ->
  let accounts' :=
    fst (snd (AccountCommands.login mgr site name pw (accounts, w))) in
  NoDup (map FanCultContent.username accounts')
  /\ (forall a, a ∈ accounts ->
                FanCultContent.username a <> Py.str_lower name ->
                a ∈ accounts')
  /\ (fst (FanCultContent._make_login_request site name pw w) <> Ok true ->
      accounts' = accounts)
  /\ (Forall (fun a => Py.str_lower (FanCultContent.username a)
                       = FanCultContent.username a) accounts ->
      Forall (fun a => Py.str_lower (FanCultContent.username a)
                       = FanCultContent.username a) accounts').
Proof.
  intros Hnd accounts'. subst accounts'. rewrite login_eq.
  destruct (FanCultContent._make_login_request site name pw w)
    as [[[]|x] w1]; simpl; [|done..].
  destruct (AccountCommands.find_account name accounts) as [account|] eqn:Hf.
  - destruct (confirm _ w1) as [[[]|x] w2]; simpl; [|done..].
    split; [|split; [|split; [done|]]].
    + by rewrite usernames_update_account.
    + intros a Hin Hne. apply update_account_others; [done|].
      apply find_account_some in Hf as [-> _]. done.
    + rewrite !Forall_forall. intros Hlow a' Ha'.
      apply update_account_from in Ha' as [Hold|(a & Ha & _ & ->)];
        [by apply Hlow|]. simpl. by apply Hlow.
  - simpl. split; [|split; [|split; [done|]]].
    + rewrite map_app. simpl. apply NoDup_app. split; [done|].
      split; [|apply NoDup_singleton].
      intros n Hin ->%list_elem_of_singleton.
      by apply (find_account_none name accounts).
    + intros a Hin _. apply elem_of_app. by left.
    + intros Hlow. apply Forall_app. split; [done|].
      apply Forall_singleton. simpl. apply str_lower_idemp.
Qed.

Lemma login_keeps_one_account_per_username_witness :
  let accounts' :=
    fst (snd (AccountCommands.login
                (mkManager (fun s => s) "/data") Sample.site
                "C@Example.com" "z"
                ([Sample.account1; Sample.account2], Sample.world []))) in
  NoDup (map FanCultContent.username accounts')
  /\ (forall a, a ∈ [Sample.account1; Sample.account2] ->
                FanCultContent.username a <> Py.str_lower "C@Example.com" ->
                a ∈ accounts')
  /\ (fst (FanCultContent._make_login_request Sample.site "C@Example.com" "z"
             (Sample.world [])) <> Ok true ->
      accounts' = [Sample.account1; Sample.account2])
  /\ (Forall (fun a => Py.str_lower (FanCultContent.username a)
                       = FanCultContent.username a)
             [Sample.account1; Sample.account2] ->
      Forall (fun a => Py.str_lower (FanCultContent.username a)
                       = FanCultContent.username a) accounts').
Proof.
  apply (login_keeps_one_account_per_username
           (mkManager (fun s => s) "/data") Sample.site "C@Example.com" "z"
           [Sample.account1; Sample.account2] (Sample.world [])).
  apply (bool_decide_unpack _). vm_compute. exact I.
Defined.



(** X9. The account [update] command sets the download path of the account
    it is given, a row of the table with its user name in lower case as the
    column stores it, and of no other: the table keeps its user names, that
    account keeps its user name and password and gets the new path, every
    other row is as it was, and the new path is reported.
    What is resolved afterwards without [--dest] comes from the new path:
    the path itself for a feed, the kind's folder under it for a download,
    and when that directory is there nothing changes. Without a path (or
    with an empty one) the command prints the help and changes nothing. *)
Theorem account_update_sets_the_download_path help d account accounts w :
  d <> "" ->
  account ∈ accounts ->
  Py.str_lower (FanCultContent.username account)
  = FanCultContent.username account ->
  NoDup (map FanCultContent.username accounts) ->
  let account' :=
    FanCultContent.mkAccount (FanCultContent.username account)
      (FanCultContent.password account) (Some d) in
  (exists accounts',
      AccountCommands.update help (Some d) account (accounts, w)
      = (Ok tt,
         (accounts',
          mkWorld (files w) (dirs w)
            (console w ++ [Success ("Download path set to: " +:+ d)])
            (stdin w) (year w)))
      /\ map FanCultContent.username accounts'
         = map FanCultContent.username accounts
      /\ account' ∈ accounts'
      /\ (forall a, a ∈ accounts ->
                    FanCultContent.username a
                    <> FanCultContent.username account ->
                    a ∈ accounts')
      /\ (forall a, a ∈ accounts' -> a = account' \/ a ∈ accounts))
  /\ (forall model_name with_model w0 dir w1,
         FanCultContent._get_download_dir model_name None account'
           with_model w0 = (Ok dir, w1) ->
         dir = if with_model
               then Py.path_join d (Py.capitalize model_name)
               else d)
  /\ (forall model_name (with_model : bool) w0,
         let dir := if with_model
                    then Py.path_join d (Py.capitalize model_name)
                    else d in
         dir ∈ dirs w0 ->
         FanCultContent._get_download_dir model_name None account'
           with_model w0 = (Ok dir, w0))
  /\ (forall dir,
         dir = None \/ dir = Some "" ->
         AccountCommands.update help dir account (accounts, w)
         = (Ok tt,
            (accounts,
             mkWorld (files w) (dirs w) (console w ++ [Echo (Plain help)])
                     (stdin w) (year w)))).
Proof.
  intros Hd Hin _ Hnd account'. split; [|split; [|split]].
  - eexists. split; [|split; [|split; [|split]]].
    + unfold AccountCommands.update, given.
      assert (Py.truthy d = true) as -> by (by destruct d).
      reflexivity.
    + by apply usernames_update_account.
    + by apply (update_account_elem
                  (fun a => FanCultContent.mkAccount
                              (FanCultContent.username a)
                              (FanCultContent.password a) (Some d))
                  accounts account).
    + intros a Ha Hne. by apply update_account_others.
    + intros a Ha.
      apply update_account_from in Ha as [Hold|(a1 & Ha1 & Hn & ->)];
        [by right|]. left.
      assert (a1 = account) as ->; [|done].
      apply list_elem_of_lookup in Ha1 as [i Hi].
      apply list_elem_of_lookup in Hin as [j Hj].
      assert (i = j) as ->; [|congruence].
      apply (NoDup_lookup (map FanCultContent.username accounts) i j
               (FanCultContent.username account) Hnd).
      * change (map FanCultContent.username accounts)
          with (FanCultContent.username <$> accounts).
        rewrite list_lookup_fmap, Hi. simpl. by rewrite Hn.
      * change (map FanCultContent.username accounts)
          with (FanCultContent.username <$> accounts).
        by rewrite list_lookup_fmap, Hj.
  - intros model_name with_model w0 dir w1. rewrite _get_download_dir_eq.
    subst account'. cbn [FanCultContent.download_dir]. cbv zeta.
    destruct (bool_decide _); [congruence|].
    destruct (existsb _ _); congruence.
  - intros model_name with_model w0 dir Hdir. rewrite _get_download_dir_eq.
    subst account'. cbn [FanCultContent.download_dir]. cbv zeta.
    fold dir. by rewrite (bool_decide_eq_true_2 _ Hdir).
  - by intros dir [->| ->].
Qed.

Lemma account_update_sets_the_download_path_witness :
  let account' :=
    FanCultContent.mkAccount (FanCultContent.username Sample.account2)
      (FanCultContent.password Sample.account2) (Some "/music") in
  (exists accounts',
      AccountCommands.update "usage" (Some "/music") Sample.account2
        ([Sample.account1; Sample.account2], Sample.world [])
      = (Ok tt,
         (accounts',
          mkWorld (files (Sample.world [])) (dirs (Sample.world []))
            (console (Sample.world [])
             ++ [Success ("Download path set to: " +:+ "/music")])
            (stdin (Sample.world [])) (year (Sample.world []))))
      /\ map FanCultContent.username accounts'
         = map FanCultContent.username [Sample.account1; Sample.account2]
      /\ account' ∈ accounts'
      /\ (forall a, a ∈ [Sample.account1; Sample.account2] ->
                    FanCultContent.username a
                    <> FanCultContent.username Sample.account2 ->
                    a ∈ accounts')
      /\ (forall a, a ∈ accounts' ->
                    a = account' \/ a ∈ [Sample.account1; Sample.account2]))
  /\ (forall model_name with_model w0 dir w1,
         FanCultContent._get_download_dir model_name None account'
           with_model w0 = (Ok dir, w1) ->
         dir = if with_model
               then Py.path_join "/music" (Py.capitalize model_name)
               else "/music")
  /\ (forall model_name (with_model : bool) w0,
         let dir := if with_model
                    then Py.path_join "/music" (Py.capitalize model_name)
                    else "/music" in
         dir ∈ dirs w0 ->
         FanCultContent._get_download_dir model_name None account'
           with_model w0 = (Ok dir, w0))
  /\ (forall dir,
         dir = None \/ dir = Some "" ->
         AccountCommands.update "usage" dir Sample.account2
           ([Sample.account1; Sample.account2], Sample.world [])
         = (Ok tt,
            ([Sample.account1; Sample.account2],
             mkWorld (files (Sample.world [])) (dirs (Sample.world []))
                     (console (Sample.world []) ++ [Echo (Plain "usage")])
                     (stdin (Sample.world [])) (year (Sample.world []))))).
Proof.
  apply (account_update_sets_the_download_path "usage" "/music"
           Sample.account2 [Sample.account1; Sample.account2]
           (Sample.world [])).
  - discriminate.
  - apply list_elem_of_further, list_elem_of_here.
  - reflexivity.
  - apply (bool_decide_unpack _). vm_compute. exact I.
Defined.

(** ** The table of videos *)

(** X10. In the table that [format_video_list] hands to [tabulate] every
    header stands over its own field: ID over the id, Date over the date,
    Title over the shortened title, Type over the type and URL over the
    shortened url, one row for every video, in the order given. *)
Theorem video_list_columns lib videos fmt :
  let t := VideoContent.format_video_list lib videos fmt in
  cells_under "ID" t
  = map (fun v => Some (CInt (VideoContent.video_id v))) videos
  /\ cells_under "Date" t
     = map (fun v => Some (CStr (strftime lib (VideoContent.date v)))) videos
  /\ cells_under "Title" t
     = map (fun v => Some (CStr (shorten lib (VideoContent.title v)))) videos
  /\ cells_under "Type" t
     = map (fun v => Some (CStr (VideoContent.type v))) videos
  /\ cells_under "URL" t
     = map (fun v => Some (CStr (shorten lib (VideoContent.url v)))) videos
  /\ cells_under "Description" t = [].
Proof.
  unfold VideoContent.format_video_list. cbv zeta.
  repeat split; cbn [cells_under index_of String.eqb Ascii.eqb Bool.eqb fmap
                     option_fmap option_map];
    try reflexivity; rewrite map_map; apply map_ext; reflexivity.
Qed.

(** ** Ids *)

Section Ids.
Context {R : Type} `{ModelLaws R}.

Lemma model_id_le_max (rows : list R) r i :
  r ∈ rows -> model_id r = Some i -> i <= max_id rows.
Proof.
  induction rows as [|a rows IH]; [by intros ?%elem_of_nil|].
  intros [->|Hin]%elem_of_cons Hi; simpl.
  - rewrite Hi. simpl. lia.
  - specialize (IH Hin Hi). lia.
Qed.

Lemma ids_assign_ids n (l : list R) x :
  x ∈ map model_id (assign_ids n l) -> exists i, x = Some i /\ n <= i.
Proof.
  revert n. induction l as [|a l IH]; intros n; simpl.
  - by intros ?%elem_of_nil.
  - rewrite id_with_id. intros [->|Hin]%elem_of_cons.
    + exists n. split; [done|lia].
    + destruct (IH _ Hin) as (i & -> & Hi). exists i. split; [done|lia].
Qed.

Lemma NoDup_ids_assign_ids n (l : list R) :
  NoDup (map model_id (assign_ids n l)).
Proof.
  revert n. induction l as [|a l IH]; intros n; simpl; [constructor|].
  rewrite id_with_id. constructor; [|apply IH].
  intros (i & [= <-] & Hi)%ids_assign_ids. lia.
Qed.

(** New rows get ids no stored row has. *)
Lemma NoDup_ids_after (rows added : list R) :
  NoDup (map model_id rows) ->
  NoDup (map model_id (rows ++ assign_ids (max_id rows + 1) added)).
Proof.
  intros Hnd. rewrite map_app. apply NoDup_app. split; [done|].
  split; [|apply NoDup_ids_assign_ids].
  intros x Hx (i & -> & Hi)%ids_assign_ids.
  apply list_elem_of_fmap in Hx as (r & Hr & Hin).
  pose proof (model_id_le_max rows r i Hin (eq_sym Hr)). lia.
Qed.

Lemma get_by_id_app_l (rows more : list R) id r :
  get_by_id id rows = Some r -> get_by_id id (rows ++ more) = Some r.
Proof.
  unfold get_by_id. induction rows as [|a rows IH]; simpl; [done|].
  by destruct (bool_decide (model_id a = Some id)).
Qed.

Lemma get_by_id_above (rows : list R) id :
  max_id rows < id -> get_by_id id rows = None.
Proof.
  unfold get_by_id. induction rows as [|a rows IH]; simpl; [done|].
  intros Hid. rewrite bool_decide_eq_false_2; [apply IH; lia|].
  intros Ha. rewrite Ha in Hid. simpl in Hid. lia.
Qed.

Lemma get_by_id_app_r (rows more : list R) id :
  max_id rows < id -> get_by_id id (rows ++ more) = get_by_id id more.
Proof.
  unfold get_by_id. induction rows as [|a rows IH]; simpl; [done|].
  intros Hid. rewrite bool_decide_eq_false_2; [apply IH; lia|].
  intros Ha. rewrite Ha in Hid. simpl in Hid. lia.
Qed.

Lemma get_by_id_assign_ids n (l : list R) (i : nat) e :
  l !! i = Some e ->
  get_by_id (n + Z.of_nat i) (assign_ids n l)
  = Some (with_id (n + Z.of_nat i) e).
Proof.
  revert n i. induction l as [|a l IH]; intros n i; [done|].
  destruct i as [|i]; simpl.
  - intros [= ->]. unfold get_by_id. simpl.
    rewrite id_with_id, Z.add_0_r. by rewrite bool_decide_eq_true_2.
  - intros Hi.
    replace (n + Z.of_nat (S i)) with ((n + 1) + Z.of_nat i) by lia.
    rewrite <- (IH (n + 1) i Hi). unfold get_by_id.
    cbn [List.find]. rewrite id_with_id.
    by rewrite bool_decide_eq_false_2 by (intros [= ?]; lia).
Qed.

End Ids.

(** ** What an update does to the ids and to the order *)

Lemma in_db_run {R A} (m : M (Session R) A) (s : Session R) w :
  in_db m (s, w) = (fst (m s), (snd (m s), w)).
Proof. unfold in_db. by destruct (m s). Qed.

Lemma key_of_assign_ids {R} `{ModelLaws R} n (l : list R) :
  map key_of (assign_ids n l) = map key_of l.
Proof.
  revert n. induction l as [|a l IH]; intros n; simpl; [done|].
  rewrite IH. unfold key_of. by rewrite title_with_id, url_with_id.
Qed.

Section UpdateIds.
Context {R C : Type} `{ModelLaws R}.
Variable pre : C -> result (option (string * string)).
Variable build : C -> string -> string -> result R.
Hypothesis build_key :
  forall c t u e, build c t u = Ok e -> key_of e = (t, u).

Lemma update_with_keeps_ids listing rows af :
  NoDup (map model_id rows) ->
  NoDup (map model_id
           (committed (snd (update_with pre build listing
                              (fresh_session rows af))))).
Proof.
  intros Hnd. pose proof (update_with_durable pre build listing rows af) as Hd.
  destruct (update_with _ _ _ _) as [[added|x] s']; simpl.
  - destruct Hd as (-> & _). by apply NoDup_ids_after.
  - by rewrite Hd.
Qed.

Lemma update_with_lookup listing rows af :
  let run := update_with pre build listing (fresh_session rows af) in
  (forall id r, get_by_id id rows = Some r ->
                get_by_id id (committed (snd run)) = Some r)
  /\ forall added (i : nat) e,
       fst run = Ok added -> added !! i = Some e ->
       let id := max_id rows + 1 + Z.of_nat i in
       get_by_id id (committed (snd run)) = Some (with_id id e).
Proof.
  cbv zeta.
  pose proof (update_with_durable pre build listing rows af) as Hd.
  destruct (update_with _ _ _ _) as [[added|x] s']; simpl.
  - destruct Hd as (-> & _). split.
    + intros id r. apply get_by_id_app_l.
    + intros ? i e [= <-] Hi. rewrite get_by_id_app_r by lia.
      by apply get_by_id_assign_ids.
  - rewrite Hd. split; [done|]. intros ? ? ? [=].
Qed.

(** A candidate whose key cannot be read stops the scan. *)
Lemma scan_raises c x cs added (s : Session R) :
  c ∈ cs -> pre c = Raise x ->
  exists y s', scan (create_with pre build) cs added s = (Raise y, s').
Proof.
  intros Hin Hpre. revert added s.
  induction cs as [|a cs IH]; intros added s; [by apply elem_of_nil in Hin|].
  rewrite scan_cons. apply elem_of_cons in Hin as [Heq|Hin].
  - subst a. pose proof (create_with_cases pre build c s) as Hcase.
    rewrite Hpre in Hcase. rewrite Hcase. eauto.
  - destruct (create_with pre build a s) as [[[e|]|y] s1]; eauto.
Qed.

Lemma update_with_raises c x cs (s : Session R) :
  c ∈ cs -> pre c = Raise x ->
  let run := update_with pre build (Ok (Some cs)) s in
  (exists y, fst run = Raise y) /\ committed (snd run) = committed s.
Proof.
  intros Hin Hpre. cbv zeta. rewrite update_with_eq.
  destruct (scan_raises c x cs [] s Hin Hpre) as (y & s' & Hscan).
  pose proof (scan_committed pre build cs [] s) as Hc.
  rewrite Hscan in *. simpl in *. split; [by eexists|done].
Qed.

(** What the creator returns has the key of its candidate. *)
Lemma create_with_key c (s : Session R) e s1 :
  create_with pre build c s = (Ok (Some e), s1) ->
  pre c = Ok (Some (key_of e)).
Proof.
  intros Hc. pose proof (create_with_cases pre build c s) as Hcase.
  destruct (pre c) as [[[t u]|]|x]; [|congruence..].
  simpl in Hcase. destruct (filter _ _) as [|r [|r' l]]; [|congruence..].
  rewrite Hc in Hcase. destruct (build c t u) as [e'|] eqn:Hb; [|congruence].
  assert (e = e') as -> by congruence. by rewrite (build_key _ _ _ _ Hb).
Qed.

Lemma candidate_keys_snoc done c :
  candidate_keys pre (done ++ [c])
  = candidate_keys pre done
    ++ match pre c with Ok (Some k) => [k] | _ => [] end.
Proof.
  unfold candidate_keys. rewrite omap_app. f_equal. simpl.
  by destruct (pre c) as [[?|]|].
Qed.

(** The rows are added in the order of the listing. *)
Lemma scan_in_order cs (s : Session R) res s' :
  scan (create_with pre build) cs [] s = (Ok res, s') ->
  map key_of res `sublist_of` candidate_keys pre cs.
Proof.
  intros Hscan.
  assert (forall done c s0 added,
            map key_of added `sublist_of` candidate_keys pre done ->
            match create_with pre build c s0 with
            | (Ok (Some e), s1) =>
                map key_of (added ++ [e])
                  `sublist_of` candidate_keys pre (done ++ [c])
            | (Ok None, s1) =>
                map key_of added `sublist_of` candidate_keys pre (done ++ [c])
            | (Raise _, _) => True
            end) as Hstep; cycle 1.
  { exact (scan_invariant pre build
             (fun done _ added =>
                map key_of added `sublist_of` candidate_keys pre done)
             Hstep cs [] s [] res s' (sublist_nil_l _) Hscan). }
  intros done c s0 added HI.
  destruct (create_with pre build c s0) as [[[e|]|x] s1] eqn:Hc; [| |done].
  - rewrite candidate_keys_snoc, (create_with_key _ _ _ _ Hc), map_app.
    by apply sublist_app.
  - rewrite candidate_keys_snoc. by apply sublist_inserts_r.
Qed.

Lemma update_with_in_order cs rows af :
  match update_with pre build (Ok (Some cs)) (fresh_session rows af) with
  | (Ok _, s') =>
      exists gained,
        committed s' = rows ++ gained
        /\ map key_of gained `sublist_of` candidate_keys pre cs
  | (Raise _, s') => committed s' = rows
  end.
Proof.
  pose proof (update_with_durable pre build (Ok (Some cs)) rows af) as Hd.
  rewrite update_with_eq in *.
  destruct (scan _ cs [] _) as [[added|x] s1] eqn:Hscan; [|done].
  apply scan_in_order in Hscan.
  destruct added as [|e added].
  - destruct Hd as (Hc & _). exists []. by rewrite Hc.
  - destruct Hd as (Hc & _). eexists. split; [exact Hc|].
    by rewrite key_of_assign_ids.
Qed.

End UpdateIds.

Lemma loaded_gained {R} (s : Session R) (rows gained added : list R) :
  committed s = rows ++ gained -> length gained = length added ->
  loaded s added = gained.
Proof.
  intros Hc Hlen. unfold loaded. rewrite Hc, length_app, <- Hlen.
  replace (length rows + length gained - length gained)%nat
    with (length rows) by lia.
  by rewrite drop_app_length.
Qed.

(** ** The update commands *)

(** X11. [minisodes update] run on a stored table either raises, and then
    the table is as it was and nothing has been printed, or returns, and
    then the table has gained some rows after the old ones, the disk and the
    input are untouched, and what it printed is exactly this: the note that
    nothing new was found when no row was gained; otherwise the number of
    rows gained and, with [--list], the table of the rows gained and of no
    other row. *)
Theorem minisodes_update_reports_the_rows_gained lib site list_ rows af w :
  let '(res, (s', w')) :=
    MinisodeContent.update lib site list_ (fresh_session rows af, w) in
  match res with
  | Raise _ => committed s' = rows /\ w' = w
  | Ok _ =>
      exists gained,
        committed s' = rows ++ gained
        /\ files w' = files w /\ dirs w' = dirs w /\ stdin w' = stdin w
        /\ console w'
           = console w ++
             match gained with
             | [] => [Info "No new minisodes found."]
             | _ =>
                 Success ("Added " +:+ pretty (length gained)
                          +:+ " new minisode(s)!")
                 :: (if list_
                     then [Echo (MinisodeContent.format_episode_list
                                   lib gained "psql")]
                     else [])
             end
  end.
Proof.
  unfold MinisodeContent.update. unfold bind at 1.
  rewrite in_db_run, _update_episodes_shape.
  pose proof (update_with_durable MinisodeFacts.episode_key
                (MinisodeFacts.episode_build lib site) (get_episodes site)
                rows af) as Hd.
  destruct (update_with _ _ _ _) as [[added|x] s1]; simpl; [|done].
  destruct Hd as (Hc & _). destruct added as [|e added].
  - rewrite in_world_run. simpl. exists []. by rewrite Hc.
  - unfold bind at 1. rewrite in_world_run. cbn [fst snd out modify].
    destruct list_.
    + unfold bind at 1, gets at 1. cbn [fst snd]. rewrite in_world_run.
      cbn [fst snd out modify].
      eexists. split; [exact Hc|].
      rewrite (loaded_gained s1 rows _ (e :: added) Hc)
        by apply length_assign_ids.
      cbn [files dirs stdin console assign_ids length].
      rewrite length_assign_ids, <- app_assoc. done.
    + unfold ret. eexists. split; [exact Hc|].
      cbn [files dirs stdin console assign_ids length].
      rewrite length_assign_ids. done.
Qed.

(** X12. [videos update] does the same for the videos: it raises and
    leaves the table and the console as they were, or it returns having
    touched neither the disk nor the input, and prints that nothing new was
    found exactly when the table gained no row, and otherwise the number of
    rows gained and, with [--list], the table of those rows alone. *)
Theorem videos_update_reports_the_rows_gained lib site number list_ rows af
    w :
  let '(res, (s', w')) :=
    VideoContent.update lib site number list_ (fresh_session rows af, w) in
  match res with
  | Raise _ => committed s' = rows /\ w' = w
  | Ok _ =>
      exists gained,
        committed s' = rows ++ gained
        /\ files w' = files w /\ dirs w' = dirs w /\ stdin w' = stdin w
        /\ console w'
           = console w ++
             match gained with
             | [] => [Info "No new videos found."]
             | _ =>
                 Success ("Added " +:+ pretty (length gained)
                          +:+ " new video(s)!")
                 :: (if list_
                     then [Echo (VideoContent.format_video_list
                                   lib gained "psql")]
                     else [])
             end
  end.
Proof.
  unfold VideoContent.update. unfold bind at 1.
  rewrite in_db_run, _update_videos_shape.
  pose proof (update_with_durable VideoFacts.video_key
                (VideoFacts.video_build lib site) (post_news site number)
                rows af) as Hd.
  destruct (update_with _ _ _ _) as [[added|x] s1]; simpl; [|done].
  destruct Hd as (Hc & _). destruct added as [|e added].
  - rewrite in_world_run. simpl. exists []. by rewrite Hc.
  - unfold bind at 1. rewrite in_world_run. cbn [fst snd out modify].
    destruct list_.
    + unfold bind at 1, gets at 1. cbn [fst snd]. rewrite in_world_run.
      cbn [fst snd out modify].
      eexists. split; [exact Hc|].
      rewrite (loaded_gained s1 rows _ (e :: added) Hc)
        by apply length_assign_ids.
      cbn [files dirs stdin console assign_ids length].
      rewrite length_assign_ids, <- app_assoc. done.
    + unfold ret. eexists. split; [exact Hc|].
      cbn [files dirs stdin console assign_ids length].
      rewrite length_assign_ids. done.
Qed.

(** ** Ids and order after an update *)

Lemma NoDup_fmap_option_value {R} (f : R -> option Z) (rows : list R) :
  NoDup (map (fun r => [match f r with Some n => VInt n | None => VNull end])
             rows)
  <-> NoDup (map f rows).
Proof.
  set (g := fun o : option Z =>
              [match o with Some n => VInt n | None => VNull end]).
  assert (Inj (=) (=) g) as Hinj.
  { intros [a|] [b|]; unfold g; intros [=]; by subst. }
  change (NoDup (map (fun r => g (f r)) rows) <-> NoDup (map f rows)).
  rewrite <- (map_map f g). apply (NoDup_fmap g).
Qed.

Lemma episodes_table_accepts (rows : list MinisodeContent.Episode) :
  table_accepts MinisodeContent.table rows <-> NoDup (map model_id rows).
Proof.
  unfold table_accepts.
  change (unique_keys MinisodeContent.table) with [["minisode_id"]].
  rewrite Forall_singleton.
  apply (NoDup_fmap_option_value MinisodeContent.minisode_id).
Qed.

Lemma videos_table_accepts (rows : list VideoContent.Video) :
  table_accepts VideoContent.table rows <-> NoDup (map model_id rows).
Proof.
  unfold table_accepts.
  change (unique_keys VideoContent.table) with [["video_id"]].
  rewrite Forall_singleton.
  apply (NoDup_fmap_option_value VideoContent.video_id).
Qed.

(** X13. An update never breaks the primary keys: if no two stored
    minisodes (videos) share an id before [_update_episodes]
    ([_update_videos]) runs, none do after, whether it returns or raises;
    the new rows get ids that no row has. *)
Theorem update_keeps_the_primary_keys lib site number erows vrows af :
  table_accepts MinisodeContent.table erows ->
  table_accepts VideoContent.table vrows ->
  table_accepts MinisodeContent.table
    (committed (snd (MinisodeContent._update_episodes lib site
                       (fresh_session erows af))))
  /\ table_accepts VideoContent.table
       (committed (snd (VideoContent._update_videos lib site number
                          (fresh_session vrows af)))).
Proof.
  rewrite !episodes_table_accepts, !videos_table_accepts.
  rewrite _update_episodes_shape, _update_videos_shape.
  intros He Hv. split; by apply update_with_keeps_ids.
Qed.

Lemma update_keeps_the_primary_keys_witness :
  table_accepts MinisodeContent.table
    (committed (snd (MinisodeContent._update_episodes Sample.lib Sample.site
                       (fresh_session [Sample.episode 4 7 "Zero"] true))))
  /\ table_accepts VideoContent.table
       (committed (snd (VideoContent._update_videos Sample.lib Sample.site 100
                          (fresh_session [Sample.video 2 7 "Zero"] true)))).
Proof.
  apply (update_keeps_the_primary_keys Sample.lib Sample.site 100
           [Sample.episode 4 7 "Zero"] [Sample.video 2 7 "Zero"] true).
  - apply episodes_table_accepts. apply (bool_decide_unpack _).
    vm_compute. exact I.
  - apply videos_table_accepts. apply (bool_decide_unpack _).
    vm_compute. exact I.
Defined.

Lemma get_episode_found rows id e w :
  MinisodeContent.get_episode rows id w = (Ok (Some e), w)
  <-> get_by_id id rows = Some e.
Proof.
  unfold MinisodeContent.get_episode.
  destruct (get_by_id id rows) as [r|]; simpl.
  - unfold ret. split; congruence.
  - unfold bind, out, modify, ret. simpl. split; [congruence|done].
Qed.

Lemma get_video_found rows id v w :
  VideoContent.get_video rows id w = (Ok (Some v), w)
  <-> get_by_id id rows = Some v.
Proof.
  unfold VideoContent.get_video.
  destruct (get_by_id id rows) as [r|]; simpl.
  - unfold ret. split; congruence.
  - unfold bind, out, modify, ret. simpl. split; [congruence|done].
Qed.

(** X14. Ids are stable and new rows are found at once. Whatever
    [_update_episodes] does, [get_episode] still finds under every id the
    minisode it found before; and when the update returns the objects it
    added, the one at position [i] is found, with its fields unchanged,
    under the id [i + 1] past the largest id the table had. The same holds
    for [_update_videos] and [get_video]. *)
Theorem rows_are_found_by_id_after_update lib site number erows vrows af w :
  let erun := MinisodeContent._update_episodes lib site
                (fresh_session erows af) in
  let vrun := VideoContent._update_videos lib site number
                (fresh_session vrows af) in
  ((forall id e,
       MinisodeContent.get_episode erows id w = (Ok (Some e), w) ->
       MinisodeContent.get_episode (committed (snd erun)) id w
       = (Ok (Some e), w))
   /\ forall added (i : nat) e,
        fst erun = Ok added -> added !! i = Some e ->
        let id := max_id erows + 1 + Z.of_nat i in
        MinisodeContent.get_episode (committed (snd erun)) id w
        = (Ok (Some (with_id id e)), w))
  /\ ((forall id v,
         VideoContent.get_video vrows id w = (Ok (Some v), w) ->
         VideoContent.get_video (committed (snd vrun)) id w
         = (Ok (Some v), w))
      /\ forall added (i : nat) v,
           fst vrun = Ok added -> added !! i = Some v ->
           let id := max_id vrows + 1 + Z.of_nat i in
           VideoContent.get_video (committed (snd vrun)) id w
           = (Ok (Some (with_id id v)), w)).
Proof.
  cbv zeta. rewrite _update_episodes_shape, _update_videos_shape.
  split.
  - destruct (update_with_lookup MinisodeFacts.episode_key
                (MinisodeFacts.episode_build lib site) (get_episodes site)
                erows af) as [Hold Hnew].
    split.
    + intros id e. rewrite !get_episode_found. apply Hold.
    + intros added i e Hrun Hi. rewrite get_episode_found.
      by apply (Hnew added).
  - destruct (update_with_lookup VideoFacts.video_key
                (VideoFacts.video_build lib site) (post_news site number)
                vrows af) as [Hold Hnew].
    split.
    + intros id v. rewrite !get_video_found. apply Hold.
    + intros added i v Hrun Hi. rewrite get_video_found.
      by apply (Hnew added).
Qed.

(** ** Candidates that cannot be read, and candidates passed over *)

Lemma scan_filter {R C} `{Model R}
    (pre : C -> result (option (string * string)))
    (build : C -> string -> string -> result R) (keep : C -> bool) :
  (forall c, keep c = false -> pre c = Ok None) ->
  forall cs added (s : Session R),
    scan (create_with pre build) (filter keep cs) added s
    = scan (create_with pre build) cs added s.
Proof.
  intros Hskip cs. induction cs as [|c cs IH]; intros added s; [done|].
  rewrite filter_cons. destruct (decide (keep c)) as [Hk|Hk].
  - rewrite !scan_cons.
    destruct (create_with pre build c s) as [[[e|]|x] s1]; auto.
  - rewrite IH, scan_cons.
    apply Is_true_false in Hk. apply Hskip in Hk.
    pose proof (create_with_cases pre build c s) as Hcase.
    rewrite Hk in Hcase. by rewrite Hcase.
Qed.

(** X15. A listed minisode without a link or without a heading makes
    [_update_episodes] raise, wherever it stands in the listing: nothing is
    committed, not even what the candidates before it gave. *)
Theorem unreadable_minisode_aborts_the_update lib site eps ep
    (s : Session MinisodeContent.Episode) :
  get_episodes site = Ok (Some eps) ->
  ep ∈ eps ->
  ep_a_href ep = None \/ ep_h1_text ep = None ->
  let run := MinisodeContent._update_episodes lib site s in
  (exists x, fst run = Raise x) /\ committed (snd run) = committed s.
Proof.
  intros Hl Hin Hbad. cbv zeta. rewrite _update_episodes_shape, Hl.
  assert (exists x, MinisodeFacts.episode_key ep = Raise x) as [x Hx].
  { unfold MinisodeFacts.episode_key.
    destruct Hbad as [-> | ->]; [by eexists|].
    destruct (ep_a_href ep); by eexists. }
  exact (update_with_raises MinisodeFacts.episode_key
           (MinisodeFacts.episode_build lib site) ep x eps s Hin Hx).
Qed.

Lemma unreadable_minisode_aborts_the_update_witness :
  let run := MinisodeContent._update_episodes Sample.lib Sample.broken_site
               (fresh_session [Sample.episode 4 7 "Zero"] true) in
  (exists x, fst run = Raise x)
  /\ committed (snd run) = [Sample.episode 4 7 "Zero"].
Proof.
  apply (unreadable_minisode_aborts_the_update Sample.lib Sample.broken_site
           [Sample.tag1; Sample.tag_without_link; Sample.tag2]
           Sample.tag_without_link).
  - reflexivity.
  - apply list_elem_of_further, list_elem_of_here.
  - left. reflexivity.
Defined.

(** X16. For videos the two defects differ. An article without a heading
    is passed over: [_update_videos] does what it would do had the site not
    listed it. An article with a heading and without a link makes the update
    raise, and then nothing is committed. *)
Theorem videos_without_heading_or_link lib site number arts
    (s : Session VideoContent.Video) :
  post_news site number = Ok (Some arts) ->
  let run := VideoContent._update_videos lib site number s in
  run = update_with VideoFacts.video_key (VideoFacts.video_build lib site)
          (Ok (Some (filter (fun a => bool_decide
                                        (is_Some (art_h1_text a))) arts))) s
  /\ forall art,
       art ∈ arts -> is_Some (art_h1_text art) -> art_a_href art = None ->
       (exists x, fst run = Raise x) /\ committed (snd run) = committed s.
Proof.
  intros Hl. cbv zeta. rewrite _update_videos_shape, Hl. split.
  - rewrite !update_with_eq.
    rewrite (scan_filter VideoFacts.video_key
               (VideoFacts.video_build lib site)
               (fun a => bool_decide (is_Some (art_h1_text a)))); [done|].
    intros a Ha. apply bool_decide_eq_false_1 in Ha.
    unfold VideoFacts.video_key. destruct (art_h1_text a); [|done].
    destruct Ha. by eexists.
  - intros art Hin [h Hh] Hhref.
    apply (update_with_raises VideoFacts.video_key
             (VideoFacts.video_build lib site) art TypeError arts s Hin).
    unfold VideoFacts.video_key. by rewrite Hh, Hhref.
Qed.

Lemma videos_without_heading_or_link_witness :
  let arts := [Sample.article1; Sample.article2; Sample.article1] in
  let s := fresh_session [Sample.video 2 7 "Zero"] true in
  let run := VideoContent._update_videos Sample.lib Sample.site 100 s in
  run = update_with VideoFacts.video_key
          (VideoFacts.video_build Sample.lib Sample.site)
          (Ok (Some (filter (fun a => bool_decide
                                        (is_Some (art_h1_text a))) arts))) s
  /\ forall art,
       art ∈ arts -> is_Some (art_h1_text art) -> art_a_href art = None ->
       (exists x, fst run = Raise x) /\ committed (snd run) = committed s.
Proof.
  exact (videos_without_heading_or_link Sample.lib Sample.site 100
           [Sample.article1; Sample.article2; Sample.article1]
           (fresh_session [Sample.video 2 7 "Zero"] true) eq_refl).
Defined.

(** X17. New rows are stored in the order of the site's listing. When
    [_update_episodes] ([_update_videos]) returns, the table is the old
    rows followed by the rows gained, and the titles and addresses of the
    rows gained, read in table order, are titles and addresses of listed
    candidates in listing order, no candidate giving more than one row;
    when it raises the table is the old one. *)
Theorem new_rows_follow_the_listing lib site number eps arts erows vrows af :
  get_episodes site = Ok (Some eps) ->
  post_news site number = Ok (Some arts) ->
  match MinisodeContent._update_episodes lib site
          (fresh_session erows af) with
  | (Ok _, s') =>
      exists gained,
        committed s' = erows ++ gained
        /\ map key_of gained
             `sublist_of` candidate_keys MinisodeFacts.episode_key eps
  | (Raise _, s') => committed s' = erows
  end
  /\ match VideoContent._update_videos lib site number
             (fresh_session vrows af) with
     | (Ok _, s') =>
         exists gained,
           committed s' = vrows ++ gained
           /\ map key_of gained
                `sublist_of` candidate_keys VideoFacts.video_key arts
     | (Raise _, s') => committed s' = vrows
     end.
Proof.
  intros He Hv. rewrite _update_episodes_shape, _update_videos_shape, He, Hv.
  split.
  - apply (update_with_in_order MinisodeFacts.episode_key
             (MinisodeFacts.episode_build lib site)
             (episode_build_key lib site)).
  - apply (update_with_in_order VideoFacts.video_key
             (VideoFacts.video_build lib site) (video_build_key lib site)).
Qed.

Lemma new_rows_follow_the_listing_witness :
  match MinisodeContent._update_episodes Sample.lib Sample.site
          (fresh_session [Sample.episode 4 7 "Zero"] true) with
  | (Ok _, s') =>
      exists gained,
        committed s' = [Sample.episode 4 7 "Zero"] ++ gained
        /\ map key_of gained
             `sublist_of` candidate_keys MinisodeFacts.episode_key
                            [Sample.tag1; Sample.tag2; Sample.tag1]
  | (Raise _, s') => committed s' = [Sample.episode 4 7 "Zero"]
  end
  /\ match VideoContent._update_videos Sample.lib Sample.site 100
             (fresh_session [Sample.video 2 7 "Zero"] true) with
     | (Ok _, s') =>
         exists gained,
           committed s' = [Sample.video 2 7 "Zero"] ++ gained
           /\ map key_of gained
                `sublist_of` candidate_keys VideoFacts.video_key
                               [Sample.article1; Sample.article2;
                                Sample.article1]
     | (Raise _, s') => committed s' = [Sample.video 2 7 "Zero"]
     end.
Proof.
  exact (new_rows_follow_the_listing Sample.lib Sample.site 100
           [Sample.tag1; Sample.tag2; Sample.tag1]
           [Sample.article1; Sample.article2; Sample.article1]
           [Sample.episode 4 7 "Zero"] [Sample.video 2 7 "Zero"] true
           eq_refl eq_refl).
Defined.

(** ** Listings *)

Section Newest.
Context {R : Type} `{Model R}.

(** The shape of the two [list] queries: order by date, newest first, and
    cut to [n] rows when [n] is positive. *)
Lemma newest_first n (matching : list R) :
  let ordered := order_by_date_desc matching in
  let listed := if 0 <? n then limit n ordered else ordered in
  (forall a, a ∈ listed -> a ∈ matching)
  /\ (forall a b, a ∈ listed -> b ∈ matching -> b ∉ listed ->
                  model_date b <= model_date a)
  /\ (listed = [] <-> matching = []).
Proof.
  cbv zeta. pose proof (order_by_date_desc_perm matching) as Hperm.
  pose proof (order_by_date_desc_sorted matching) as Hsorted.
  set (ordered := order_by_date_desc matching) in *.
  destruct (0 <? n) eqn:Hn.
  - apply Z.ltb_lt in Hn. unfold limit.
    destruct (n <? 0) eqn:Hneg; [apply Z.ltb_lt in Hneg; lia|].
    set (k := Z.to_nat n). assert (0 < k)%nat as Hk by lia.
    split; [|split].
    + intros a Ha. rewrite <- Hperm. by apply (subseteq_take k).
    + intros a b Ha Hb Hnot. rewrite <- Hperm in Hb.
      rewrite <- (take_drop k ordered) in Hb, Hsorted.
      apply elem_of_app in Hb as [Hb|Hb]; [done|].
      exact (StronglySorted_app_1_elem_of _ _ _ a b Hsorted Ha Hb).
    + split.
      * intros Hempty. apply Permutation_nil_r. rewrite <- Hperm.
        destruct ordered as [|r l]; [done|].
        destruct k; [lia|discriminate].
      * intros ->. apply Permutation_nil_r in Hperm. rewrite Hperm.
        apply take_nil.
  - split; [|split].
    + intros a Ha. by rewrite <- Hperm.
    + intros a b Ha Hb Hnot. by rewrite <- Hperm in Hb.
    + split.
      * intros Hempty. apply Permutation_nil_r. by rewrite <- Hperm, Hempty.
      * intros ->. by apply Permutation_nil_r.
Qed.

End Newest.

(** X18. What [minisodes list] selects. Every minisode listed is a stored
    one and, when a search text is given, has it in its title or in its
    description; the minisodes listed are the newest of those: a stored
    minisode that matches and is left out is no more recent than any listed
    one; and nothing is listed only when nothing stored matches. *)
Theorem minisodes_list_selects_the_newest_matches number search rows :
  let listed := MinisodeContent.list_query number search rows in
  let matching := MinisodeContent.list_filter search rows in
  (forall e, e ∈ listed ->
     e ∈ rows
     /\ forall q, given search = Some q ->
          (like (MinisodeContent.title e) ("%" +:+ q +:+ "%")
           || like (MinisodeContent.description e) ("%" +:+ q +:+ "%"))%bool
          = true)
  /\ (forall a b, a ∈ listed -> b ∈ matching -> b ∉ listed ->
                  MinisodeContent.date b <= MinisodeContent.date a)
  /\ (listed = [] <-> matching = []).
Proof.
  cbv zeta. unfold MinisodeContent.list_query.
  destruct (newest_first number (MinisodeContent.list_filter search rows))
    as (Hin & Hnew & Hnil).
  split; [|split; [exact Hnew|exact Hnil]].
  intros e He. apply Hin in He. unfold MinisodeContent.list_filter in He.
  destruct (given search) as [q|].
  - apply list_elem_of_filter in He as [Hm He]. split; [done|].
    intros ? [= <-]. by apply Is_true_true.
  - split; [done|]. intros ? [=].
Qed.

(** X19. What [videos list] selects. Every video listed is a stored one,
    has the text given with [--type] in its type and the search text in its
    title; a stored video that matches both and is left out is no more
    recent than any listed one; and nothing is listed only when nothing
    stored matches. *)
Theorem videos_list_selects_the_newest_matches number type_ search rows :
  let listed := VideoContent.list_query number type_ search rows in
  let matching := VideoContent.list_filter type_ search rows in
  (forall v, v ∈ listed ->
     v ∈ rows
     /\ (forall t, given type_ = Some t ->
           like (VideoContent.type v) ("%" +:+ t +:+ "%") = true)
     /\ forall q, given search = Some q ->
          like (VideoContent.title v) ("%" +:+ q +:+ "%") = true)
  /\ (forall a b, a ∈ listed -> b ∈ matching -> b ∉ listed ->
                  VideoContent.date b <= VideoContent.date a)
  /\ (listed = [] <-> matching = []).
Proof.
  cbv zeta. unfold VideoContent.list_query.
  destruct (newest_first number
              (VideoContent.list_filter type_ search rows))
    as (Hin & Hnew & Hnil).
  split; [|split; [exact Hnew|exact Hnil]].
  intros v Hv. apply Hin in Hv. unfold VideoContent.list_filter in Hv.
  cbv zeta in Hv.
  assert (forall t, given type_ = Some t ->
            v ∈ filter (fun v => like (VideoContent.type v)
                                   ("%" +:+ t +:+ "%")) rows ->
            like (VideoContent.type v) ("%" +:+ t +:+ "%") = true) as Ht.
  { intros t _ [Hm _]%list_elem_of_filter. by apply Is_true_true. }
  destruct (given search) as [q|], (given type_) as [t|].
  - apply list_elem_of_filter in Hv as [Hq Hv].
    pose proof (Ht t eq_refl Hv) as Hty.
    apply list_elem_of_filter in Hv as [_ Hv].
    split; [done|]. split; intros ? [= <-]; [done|by apply Is_true_true].
  - apply list_elem_of_filter in Hv as [Hq Hv].
    split; [done|]. split; [intros ? [=]|].
    intros ? [= <-]. by apply Is_true_true.
  - pose proof (Ht t eq_refl Hv) as Hty.
    apply list_elem_of_filter in Hv as [_ Hv].
    split; [done|]. split; [|intros ? [=]]. by intros ? [= <-].
  - split; [done|]. split; intros ? [=].
Qed.

Lemma query_all_settled {R} `{Model R} (s : Session R) :
  flushed s = [] -> pending s = [] ->
  fst (query_all s) = Ok (committed s)
  /\ committed (snd (query_all s)) = committed s.
Proof.
  intros Hf Hp. rewrite query_all_eq. unfold flush, visible.
  destruct (autoflush s); simpl; rewrite ?Hf, ?Hp; simpl;
    by rewrite ?app_nil_r.
Qed.

(** The limit of a listing is bound only when it is positive, and then it
    has to fit a 64-bit integer. *)
Lemma list_limit_bound {S} number (st : S) :
  (if 0 <? number then lift (sqlite_bind number) ;;; ret tt else ret tt) st
  = if 2 ^ 63 <=? number then (Raise OverflowError, st) else (Ok tt, st).
Proof.
  unfold sqlite_bind, bind, lift, ret.
  destruct (Z.ltb_spec 0 number), (Z.leb_spec (2 ^ 63) number),
    (Z.ltb_spec number (- 2 ^ 63)); simpl; try reflexivity; lia.
Qed.

(** X20. [minisodes list] never touches the disk or the input. When it
    returns, the number given is below 2^63 and it has printed one thing:
    the table of the minisodes selected from the table as it is after the
    optional refresh, or the warning when none is selected. It raises only
    in two ways, and then it has printed nothing: the refresh raised, and
    the table is as it was; or the number is 2^63 or more, which SQLite
    cannot take as a limit, and the error is [OverflowError]. Without a
    refresh the table is left as it was. *)
Theorem minisodes_list_prints_the_selection lib site number refresh fmt
    search rows af w :
  let '(res, (s', w')) :=
    MinisodeContent.list_ lib site number refresh fmt search
      (fresh_session rows af, w) in
  files w' = files w /\ dirs w' = dirs w /\ stdin w' = stdin w
  /\ (refresh = false -> committed s' = rows)
  /\ match res with
     | Raise x =>
         console w' = console w
         /\ (2 ^ 63 <= number /\ x = OverflowError
             \/ refresh = true /\ committed s' = rows)
     | Ok _ =>
         number < 2 ^ 63
         /\ console w'
            = console w ++
              [match MinisodeContent.list_query number search
                       (committed s') with
               | [] => Warning "No minisodes found."
               | listed =>
                   Echo (MinisodeContent.format_episode_list lib listed fmt)
               end]
     end.
Proof.
  unfold MinisodeContent.list_. destruct refresh.
  - unfold bind at 1. unfold bind at 1.
    rewrite in_db_run, _update_episodes_shape.
    pose proof (update_with_durable MinisodeFacts.episode_key
                  (MinisodeFacts.episode_build lib site) (get_episodes site)
                  rows af) as Hd.
    destruct (update_with _ _ _ _) as [[added|x] s1]; simpl;
      [|repeat split; try done; by right].
    destruct Hd as (_ & Hf & Hp).
    destruct (query_all_settled s1 Hf Hp) as [Hq Hc].
    unfold bind at 1. rewrite in_db_run, Hq. simpl in Hc.
    unfold bind at 1. rewrite list_limit_bound.
    destruct (Z.leb_spec (2 ^ 63) number) as [Hov|Hov];
      [repeat split; try done; by left|].
    destruct (MinisodeContent.list_query _ _ _) eqn:Hl; rewrite in_world_run;
      simpl; by rewrite Hc, Hl.
  - unfold bind at 1. unfold ret at 1. unfold bind at 1.
    rewrite in_db_query_fresh.
    unfold bind at 1. rewrite list_limit_bound.
    destruct (Z.leb_spec (2 ^ 63) number) as [Hov|Hov];
      [repeat split; try done; by left|].
    destruct (MinisodeContent.list_query _ _ _) eqn:Hl; rewrite in_world_run;
      simpl; by rewrite Hl.
Qed.

(** X21. [videos list] likewise: the disk and the input untouched; when it
    returns, the number given is below 2^63 and one thing is printed, the
    table of the videos selected from the table as it is after the optional
    refresh, or the warning when none is selected; it raises only when the
    refresh raised, the table being as it was, or when the number is 2^63
    or more, with [OverflowError], and then nothing is printed; and without
    a refresh the table is left as it was. *)
Theorem videos_list_prints_the_selection lib site number refresh fmt type_
    search rows af w :
  let '(res, (s', w')) :=
    VideoContent.list_ lib site number refresh fmt type_ search
      (fresh_session rows af, w) in
  files w' = files w /\ dirs w' = dirs w /\ stdin w' = stdin w
  /\ (refresh = false -> committed s' = rows)
  /\ match res with
     | Raise x =>
         console w' = console w
         /\ (2 ^ 63 <= number /\ x = OverflowError
             \/ refresh = true /\ committed s' = rows)
     | Ok _ =>
         number < 2 ^ 63
         /\ console w'
            = console w ++
              [match VideoContent.list_query number type_ search
                       (committed s') with
               | [] => Warning "No videos found."
               | listed =>
                   Echo (VideoContent.format_video_list lib listed fmt)
               end]
     end.
Proof.
  unfold VideoContent.list_. destruct refresh.
  - unfold bind at 1. unfold bind at 1.
    rewrite in_db_run, _update_videos_shape.
    pose proof (update_with_durable VideoFacts.video_key
                  (VideoFacts.video_build lib site) (post_news site 100)
                  rows af) as Hd.
    destruct (update_with _ _ _ _) as [[added|x] s1]; simpl;
      [|repeat split; try done; by right].
    destruct Hd as (_ & Hf & Hp).
    destruct (query_all_settled s1 Hf Hp) as [Hq Hc].
    unfold bind at 1. rewrite in_db_run, Hq. simpl in Hc.
    unfold bind at 1. rewrite list_limit_bound.
    destruct (Z.leb_spec (2 ^ 63) number) as [Hov|Hov];
      [repeat split; try done; by left|].
    destruct (VideoContent.list_query _ _ _ _) eqn:Hl; rewrite in_world_run;
      simpl; by rewrite Hc, Hl.
  - unfold bind at 1. unfold ret at 1. unfold bind at 1.
    rewrite in_db_query_fresh.
    unfold bind at 1. rewrite list_limit_bound.
    destruct (Z.leb_spec (2 ^ 63) number) as [Hov|Hov];
      [repeat split; try done; by left|].
    destruct (VideoContent.list_query _ _ _ _) eqn:Hl; rewrite in_world_run;
      simpl; by rewrite Hl.
Qed.

(** ** The channel of the feeds, and probes that fail *)

Lemma episode_entries_channel site eps fg fg' :
  MinisodeContent.episode_entries site eps fg = Ok fg' ->
  channel fg' = channel fg.
Proof.
  revert fg. induction eps as [|e eps IH]; simpl; intros fg.
  - by intros [= <-].
  - destruct (head_headers site _) as [[ty len]|x]; [|done].
    intros Hent. by rewrite (IH _ Hent).
Qed.

Lemma video_entries_channel vs fg :
  channel (VideoContent.video_entries vs fg) = channel fg.
Proof.
  unfold VideoContent.video_entries. revert fg.
  induction vs as [|v vs IH]; intros fg; [done|]. simpl. by rewrite IH.
Qed.

Lemma episode_entries_raises site eps e x fg :
  e ∈ eps -> head_headers site (MinisodeContent.audio e) = Raise x ->
  exists y, MinisodeContent.episode_entries site eps fg = Raise y.
Proof.
  intros Hin Hx. revert fg.
  induction eps as [|a eps IH]; intros fg; [by apply elem_of_nil in Hin|].
  simpl. apply elem_of_cons in Hin as [Heq|Hin].
  - subst a. rewrite Hx. by eexists.
  - destruct (head_headers site (MinisodeContent.audio a)) as [[ty len]|y];
      [by apply IH|by eexists].
Qed.

(** X22. The document that [_create_episode_feed] prints or stores is a
    podcast feed of the minisodes: its title, subtitle, author, logo, link
    and language are the fixed ones, its copyright line is the current year
    followed by the owner's name, the podcast extension is loaded with the
    iTunes author, owner and image set, and it has exactly one entry for
    every stored minisode. *)
Theorem minisode_feed_channel site rows file_dir print_ w w' :
  MinisodeContent._create_episode_feed site rows file_dir print_ w
  = (Ok tt, w') ->
  exists fg,
    emitted print_ (Py.path_join file_dir "minisodes.xml") fg w w'
    /\ channel fg
       = mkFeedGenerator
           "MFM Fan Cult Minisodes"
           "Generated feed of Fan Cult exclusive minisodes."
           ("Exactly Right", "exactlyrightmedia@gmail.com")
           (pretty (year w) +:+ " Exactly Right")
           "https://emorel.li/dl/fc_logo.png"
           "https://myfavoritemurder.com" "en" ["podcast"]
           (Some "Exactly Right")
           (Some ("Exactly Right", "exactlyrightmedia@gmail.com"))
           (Some "https://emorel.li/dl/fc_logo.png") []
    /\ length (fg_entries fg) = length rows.
Proof.
  unfold MinisodeContent._create_episode_feed.
  unfold bind at 1.
  unfold FanCultContent._get_rss_feed_generator at 1.
  unfold bind at 1, gets at 1, ret at 1. cbv beta iota zeta.
  unfold bind at 1, lift at 1.
  destruct (MinisodeContent.episode_entries site _ _) as [fg|x] eqn:Hent;
    [|done].
  intros Hrun. exists fg.
  pose proof (episode_entries_channel _ _ _ _ Hent) as Hch.
  apply episode_entries_spec in Hent as (entries & He & Hf).
  apply Forall2_length in Hf.
  split; [|split].
  - unfold emitted. destruct print_.
    + unfold out, modify in Hrun. by simplify_eq.
    + unfold bind, write_file, out, modify in Hrun.
      change (MinisodeContent.model_name +:+ ".xml") with "minisodes.xml"
        in Hrun.
      destruct (_ || _)%bool; by simplify_eq.
  - rewrite Hch. reflexivity.
  - rewrite He, length_app, length_rev, <- Hf. simpl.
    rewrite Nat.add_0_r. apply Permutation_length, order_by_date_asc_perm.
Qed.

Lemma minisode_feed_channel_witness :
  let run := MinisodeContent._create_episode_feed Sample.site
               [Sample.episode 1 5 "One"; Sample.episode 2 3 "Two"]
               "/data" true (Sample.world []) in
  exists fg,
    emitted true (Py.path_join "/data" "minisodes.xml") fg (Sample.world [])
      (snd run)
    /\ channel fg
       = mkFeedGenerator
           "MFM Fan Cult Minisodes"
           "Generated feed of Fan Cult exclusive minisodes."
           ("Exactly Right", "exactlyrightmedia@gmail.com")
           (pretty (year (Sample.world [])) +:+ " Exactly Right")
           "https://emorel.li/dl/fc_logo.png"
           "https://myfavoritemurder.com" "en" ["podcast"]
           (Some "Exactly Right")
           (Some ("Exactly Right", "exactlyrightmedia@gmail.com"))
           (Some "https://emorel.li/dl/fc_logo.png") []
    /\ length (fg_entries fg) = 2%nat.
Proof.
  apply (minisode_feed_channel Sample.site
           [Sample.episode 1 5 "One"; Sample.episode 2 3 "Two"]
           "/data" true (Sample.world [])).
  vm_compute. reflexivity.
Defined.

(** X23. The document that [_create_video_feed] prints or stores is a
    media feed of the videos: the same fixed channel fields under the
    videos' title and subtitle, the media extension loaded and no iTunes
    field set, and one entry for every stored video up to the limit (for
    every stored video when the limit is negative). *)
Theorem video_feed_channel rows file_dir print_ limit_ w w' :
  VideoContent._create_video_feed rows file_dir print_ limit_ w
  = (Ok tt, w') ->
  exists fg,
    emitted print_ (Py.path_join file_dir "videos.xml") fg w w'
    /\ channel fg
       = mkFeedGenerator
           "MFM Fan Cult Videos"
           "Generated feed of Fan Cult exclusive videos."
           ("Exactly Right", "exactlyrightmedia@gmail.com")
           (pretty (year w) +:+ " Exactly Right")
           "https://emorel.li/dl/fc_logo.png"
           "https://myfavoritemurder.com" "en" ["media"]
           None None None []
    /\ length (fg_entries fg)
       = (if limit_ <? 0 then length rows
          else Nat.min (Z.to_nat limit_) (length rows)).
Proof.
  unfold VideoContent._create_video_feed.
  unfold bind at 1.
  unfold FanCultContent._get_rss_feed_generator at 1.
  unfold bind at 1, gets at 1, ret at 1. cbv beta iota zeta.
  unfold bind at 1, lift at 1.
  destruct (sqlite_bind limit_) as [n|x]; [|done].
  set (fg := VideoContent.video_entries _ _).
  intros Hrun. exists fg. split; [|split].
  - unfold emitted. destruct print_.
    + unfold out, modify in Hrun. by simplify_eq.
    + unfold bind, write_file, out, modify in Hrun.
      change (VideoContent.model_name +:+ ".xml") with "videos.xml" in Hrun.
      destruct (_ || _)%bool; by simplify_eq.
  - unfold fg. rewrite video_entries_channel. reflexivity.
  - unfold fg. rewrite video_entries_spec, length_app, length_rev, length_map.
    simpl. rewrite Nat.add_0_r. unfold limit.
    pose proof (Permutation_length (order_by_date_desc_perm rows)) as Hlen.
    destruct (limit_ <? 0); [done|]. by rewrite length_take, Hlen.
Qed.

Lemma video_feed_channel_witness :
  let run := VideoContent._create_video_feed
               [Sample.video 1 5 "One"; Sample.video 2 3 "Two";
                Sample.video 3 4 "Three"]
               "/data" false 2 (Sample.world []) in
  exists fg,
    emitted false (Py.path_join "/data" "videos.xml") fg (Sample.world [])
      (snd run)
    /\ channel fg
       = mkFeedGenerator
           "MFM Fan Cult Videos"
           "Generated feed of Fan Cult exclusive videos."
           ("Exactly Right", "exactlyrightmedia@gmail.com")
           (pretty (year (Sample.world [])) +:+ " Exactly Right")
           "https://emorel.li/dl/fc_logo.png"
           "https://myfavoritemurder.com" "en" ["media"]
           None None None []
    /\ length (fg_entries fg) = 2%nat.
Proof.
  apply (video_feed_channel
           [Sample.video 1 5 "One"; Sample.video 2 3 "Two";
            Sample.video 3 4 "Three"]
           "/data" false 2 (Sample.world [])).
  vm_compute. reflexivity.
Defined.

(** X24. A probe of an audio file that fails makes [_create_episode_feed]
    raise before anything is put out: nothing is printed, no file is
    written, whatever the mode and however many entries were made before
    it. *)
Theorem failed_probe_aborts_the_minisode_feed site rows file_dir print_ w
    e x :
  e ∈ rows ->
  head_headers site (MinisodeContent.audio e) = Raise x ->
  exists y,
    MinisodeContent._create_episode_feed site rows file_dir print_ w
    = (Raise y, w).
Proof.
  intros Hin Hx. unfold MinisodeContent._create_episode_feed.
  destruct (_get_rss_feed_generator_run MinisodeContent.model_name true w)
    as (fg0 & Hg & _).
  unfold bind at 1. rewrite Hg. unfold bind at 1, lift at 1.
  rewrite <- (order_by_date_asc_perm rows) in Hin.
  destruct (episode_entries_raises site _ e x fg0 Hin Hx) as [y ->].
  by exists y.
Qed.

Lemma failed_probe_aborts_the_minisode_feed_witness :
  exists y,
    MinisodeContent._create_episode_feed
      (mkSite (Ok None) (fun _ => Raise RequestException) (fun _ => Ok None)
              (fun _ => Raise RequestException)
              (fun _ => Raise RequestException)
              (fun _ => Raise RequestException)
              (fun _ _ => Raise RequestException) (Ok None)
              (fun _ _ _ => Raise RequestException))
      [Sample.episode 1 5 "One"; Sample.episode 2 3 "Two"] "/data" false
      (Sample.world [])
    = (Raise y, Sample.world []).
Proof.
  apply (failed_probe_aborts_the_minisode_feed _ _ _ _ _
           (Sample.episode 2 3 "Two") RequestException).
  - apply list_elem_of_further, list_elem_of_here.
  - reflexivity.
Defined.
